(** * joysticktv-receipt-bot: event classification, event store and thumbnail cache

    A shallow embedding of the Go sources of the bot:
    - the event classifier and the stream event store
      ([ExtractEventInfo], [IsStreamEvent], [StoreEvent]) and its queries
      ([GetEventsByType], [GetEventsByUser], [GetRecentEvents]);
    - the thumbnail cache ([getSubdirectory], [extractExtension],
      [downloadImageFile], [DownloadAndStore] and the helpers they call), with
      the earlier [DownloadAndStore] that does not refresh;
    - the websocket read loop ([ConnectToWebSocket], [outputEvent]);
    - the OAuth flow of the web server ([GenerateState], [ValidateState],
      [HandleLogin], [HandleCallback], [ExchangeCodeForToken]) and
      [maskString];
    - the receipt notifications ([HandleTippedEvent], [HandleFollowedEvent]).

    Go strings are byte strings, so they are modelled by [string] (a list of
    8-bit characters); a decoded JSON object ([map[string]interface{}]) is a
    finite map from strings to JSON values; the [thumbnails] table and the
    cache directory are finite maps as well, and the [stream_events] table is
    the list of its rows.  Every call that the Go code checks for an error
    takes its outcome from an explicit environment record, so that both
    branches of each [if err != nil] are present in the model. *)

From Stdlib Require Import ZArith String Ascii List Bool Lia.
From stdpp Require Import base option gmap strings list sorting.

#[local] Set Warnings "-register-all".
#[local] Open Scope string_scope.

(** ** Go strings: bytes, UTF-8 and the [strings] package *)

Module GoString.

Definition byte_val (c : ascii) : Z := Z.of_N (N_of_ascii c).
Definition byte_of (z : Z) : ascii := ascii_of_N (Z.to_N z).

Definition between (lo hi x : Z) : bool := ((lo <=? x)%Z && (x <=? hi)%Z)%bool.

(** [utf8.RuneError], the replacement character U+FFFD. *)
Definition RuneError : Z := 0xFFFD.

(** Second byte accepted after the leading byte [b0] of a three-byte
    sequence (Go's [acceptRanges]: no overlong forms, no surrogates). *)
Definition accept3 (b0 b1 : Z) : bool :=
  if (b0 =? 0xE0)%Z then between 0xA0 0xBF b1
  else if (b0 =? 0xED)%Z then between 0x80 0x9F b1
  else between 0xE1 0xEF b0 && between 0x80 0xBF b1.

(** Second byte accepted after the leading byte of a four-byte sequence. *)
Definition accept4 (b0 b1 : Z) : bool :=
  if (b0 =? 0xF0)%Z then between 0x90 0xBF b1
  else if (b0 =? 0xF4)%Z then between 0x80 0x8F b1
  else between 0xF1 0xF3 b0 && between 0x80 0xBF b1.

(** The payload bits of the bytes of a sequence, put together.  The masks
    and shifts of the decoder are written as remainders and products by
    powers of two. *)
Definition rune2 (b0 b1 : Z) : Z :=
  ((b0 mod 32) * 64 + b1 mod 64)%Z.
Definition rune3 (b0 b1 b2 : Z) : Z :=
  ((b0 mod 16) * 4096 + (b1 mod 64) * 64 + b2 mod 64)%Z.
Definition rune4 (b0 b1 b2 b3 : Z) : Z :=
  ((b0 mod 8) * 262144 + (b1 mod 64) * 4096 + (b2 mod 64) * 64 + b3 mod 64)%Z.

(** The conversion [[]rune(s)]: the string is decoded as UTF-8, one rune at
    a time; a byte that does not start a well-formed sequence yields
    [RuneError] and decoding resumes at the next byte. *)
Fixpoint runes (s : string) : list Z :=
  match s with
  | EmptyString => []
  | String c0 t0 =>
    let b0 := byte_val c0 in
    if (b0 <? 0x80)%Z then b0 :: runes t0
    else
      match t0 with
      | EmptyString => [RuneError]
      | String c1 t1 =>
        let b1 := byte_val c1 in
        if between 0xC2 0xDF b0 then
          if between 0x80 0xBF b1 then rune2 b0 b1 :: runes t1
          else RuneError :: runes t0
        else
          match t1 with
          | EmptyString => RuneError :: runes t0
          | String c2 t2 =>
            let b2 := byte_val c2 in
            if between 0xE0 0xEF b0 then
              if accept3 b0 b1 && between 0x80 0xBF b2
              then rune3 b0 b1 b2 :: runes t2
              else RuneError :: runes t0
            else
              match t2 with
              | EmptyString => RuneError :: runes t0
              | String c3 t3 =>
                let b3 := byte_val c3 in
                if between 0xF0 0xF4 b0 && accept4 b0 b1
                   && between 0x80 0xBF b2 && between 0x80 0xBF b3
                then rune4 b0 b1 b2 b3 :: runes t3
                else RuneError :: runes t0
              end
          end
      end
  end.

Definition str1 (z : Z) : string := String (byte_of z) EmptyString.
Definition str2 (a b : Z) : string := String (byte_of a) (str1 b).
Definition str3 (a b c : Z) : string := String (byte_of a) (str2 b c).
Definition str4 (a b c d : Z) : string := String (byte_of a) (str3 b c d).

(** A continuation byte, [0x80 | x & 0x3F]. *)
Definition tail6 (x : Z) : Z := (0x80 + x mod 64)%Z.

(** The conversion [string(r)] of a rune ([utf8.AppendRune]): runes outside
    the Unicode range and surrogates are encoded as [RuneError]. *)
Definition utf8_encode (r : Z) : string :=
  if (r <? 0)%Z then str3 0xEF 0xBF 0xBD
  else if (r <? 0x80)%Z then str1 r
  else if (r <? 0x800)%Z then str2 (0xC0 + r / 64) (tail6 r)
  else if between 0xD800 0xDFFF r then str3 0xEF 0xBF 0xBD
  else if (r <? 0x10000)%Z then
    str3 (0xE0 + r / 4096) (tail6 (r / 64)) (tail6 r)
  else if (r <=? 0x10FFFF)%Z then
    str4 (0xF0 + r / 262144) (tail6 (r / 4096)) (tail6 (r / 64)) (tail6 r)
  else str3 0xEF 0xBF 0xBD.

Fixpoint concat_strings (l : list string) : string :=
  match l with
  | [] => EmptyString
  | s :: l' => s +:+ concat_strings l'
  end.

(** [strings.Map(f, s)] for a mapping that never drops a character. *)
Definition strings_Map (f : Z -> Z) (s : string) : string :=
  concat_strings (map (fun r => utf8_encode (f r)) (runes s)).

(** [strings.Contains(s, sep)] for a one-byte separator. *)
Fixpoint contains_byte (c : ascii) (s : string) : bool :=
  match s with
  | EmptyString => false
  | String d t => (if ascii_dec c d then true else contains_byte c t)
  end.

(** [strings.Split(s, sep)] for a one-byte separator: the pieces between
    the separators, in order; always at least one piece. *)
Fixpoint strings_Split (c : ascii) (s : string) : list string :=
  match s with
  | EmptyString => [EmptyString]
  | String d t =>
    if ascii_dec c d then EmptyString :: strings_Split c t
    else match strings_Split c t with
         | [] => [String d EmptyString]
         | p :: ps => String d p :: ps
         end
  end.

(** [len(s)]: the number of bytes. *)
Definition len (s : string) : Z := Z.of_nat (String.length s).

(** [s != ""]. *)
Definition nonempty (s : string) : bool := negb (String.eqb s "").

(** [s <= t] on Go strings: the order of the bytes, left to right. *)
Fixpoint str_leb (s t : string) : bool :=
  match s, t with
  | EmptyString, _ => true
  | String _ _, EmptyString => false
  | String a s', String b t' =>
    if (byte_val a <? byte_val b)%Z then true
    else if (byte_val a =? byte_val b)%Z then str_leb s' t'
    else false
  end.

End GoString.


(** ** SHA-256 ([crypto/sha256], FIPS 180-4) *)

Module SHA256.
#[local] Open Scope Z_scope.

(** Words are 32-bit: sums are reduced modulo [2^32]. *)
Definition w32 (x : Z) : Z := x mod 2 ^ 32.
Definition add32 (x y : Z) : Z := w32 (x + y).
Definition rotr (n x : Z) : Z := Z.lor (Z.shiftr x n) (w32 (Z.shiftl x (32 - n))).
Definition Ch (x y z : Z) : Z := Z.lxor (Z.land x y) (Z.land (Z.lxor x 0xFFFFFFFF) z).
Definition Maj (x y z : Z) : Z := Z.lxor (Z.lxor (Z.land x y) (Z.land x z)) (Z.land y z).
Definition bsig0 (x : Z) : Z := Z.lxor (Z.lxor (rotr 2 x) (rotr 13 x)) (rotr 22 x).
Definition bsig1 (x : Z) : Z := Z.lxor (Z.lxor (rotr 6 x) (rotr 11 x)) (rotr 25 x).
Definition ssig0 (x : Z) : Z := Z.lxor (Z.lxor (rotr 7 x) (rotr 18 x)) (Z.shiftr x 3).
Definition ssig1 (x : Z) : Z := Z.lxor (Z.lxor (rotr 17 x) (rotr 19 x)) (Z.shiftr x 10).

(** The round constants are the first 32 bits of the fractional parts of the
    cube roots of the first 64 primes; the initial hash value is made in the
    same way of the square roots of the first 8 primes. *)
Definition is_prime (n : nat) : bool :=
  forallb (fun d => negb (Nat.eqb (Nat.modulo n d) 0)) (seq 2 (n - 2)).

Definition primes_below (n : nat) : list Z :=
  map Z.of_nat (filter is_prime (seq 2 (n - 2))).

Fixpoint cube_root_bits (bits : nat) (n acc : Z) : Z :=
  match bits with
  | O => acc
  | S b =>
    let candidate := acc + 2 ^ Z.of_nat b in
    if candidate * candidate * candidate <=? n
    then cube_root_bits b n candidate
    else cube_root_bits b n acc
  end.

Definition cube_root (n : Z) : Z := cube_root_bits 40 n 0.

Definition K : list Z :=
  Eval vm_compute in map (fun p => w32 (cube_root (p * 2 ^ 96))) (primes_below 312).

Definition H0 : list Z :=
  Eval vm_compute in map (fun p => w32 (Z.sqrt (p * 2 ^ 64))) (primes_below 20).

Fixpoint bytes_of (s : string) : list Z :=
  match s with
  | EmptyString => []
  | String c t => GoString.byte_val c :: bytes_of t
  end.

Fixpoint string_of (l : list Z) : string :=
  match l with
  | [] => EmptyString
  | b :: t => String (GoString.byte_of b) (string_of t)
  end.

Definition be_bytes (n : nat) (x : Z) : list Z :=
  map (fun i => (x / 256 ^ Z.of_nat i) mod 256) (rev (seq 0 n)).

(** The message followed by the byte [0x80], zero bytes up to 56 modulo 64,
    and the length in bits as eight big-endian bytes. *)
Definition pad (msg : list Z) : list Z :=
  let l := Z.of_nat (length msg) in
  let zeros := Z.to_nat ((55 - l) mod 64) in
  msg ++ [0x80] ++ repeat 0 zeros ++ be_bytes 8 (8 * l).

Fixpoint words (bs : list Z) : list Z :=
  match bs with
  | a :: b :: c :: d :: t => (((a * 256 + b) * 256 + c) * 256 + d) :: words t
  | _ => []
  end.

(** The message schedule: the sixteen words of a block extended to 64. *)
Fixpoint schedule (n : nat) (w : list Z) : list Z :=
  match n with
  | O => w
  | S n' =>
    let t := length w in
    let x := add32 (add32 (ssig1 (nth (t - 2) w 0)) (nth (t - 7) w 0))
                   (add32 (ssig0 (nth (t - 15) w 0)) (nth (t - 16) w 0)) in
    schedule n' (w ++ [x])
  end.

Definition round (st : list Z) (kw : Z * Z) : list Z :=
  match st with
  | [a; b; c; d; e; f; g; h] =>
    let t1 := add32 (add32 (add32 h (bsig1 e)) (add32 (Ch e f g) (fst kw))) (snd kw) in
    let t2 := add32 (bsig0 a) (Maj a b c) in
    [add32 t1 t2; a; b; c; add32 d t1; e; f; g]
  | _ => st
  end.

Definition compress (h : list Z) (block : list Z) : list Z :=
  let w := schedule 48 block in
  let st := fold_left round (combine K w) h in
  map (fun p => add32 (fst p) (snd p)) (combine h st).

Fixpoint blocks (n : nat) (ws : list Z) (h : list Z) : list Z :=
  match n with
  | O => h
  | S n' =>
    match ws with
    | [] => h
    | _ => blocks n' (skipn 16 ws) (compress h (firstn 16 ws))
    end
  end.

(** [sha256.Sum256]: the 32 bytes of the digest. *)
Definition Sum256 (s : string) : string :=
  let ws := words (pad (bytes_of s)) in
  string_of (concat (map (be_bytes 4) (blocks (length ws) ws H0))).

End SHA256.

Import GoString.

(** ** Decoded JSON values

    [encoding/json] decodes into [interface{}] values: [nil], [bool],
    [float64], [string], [[]interface{}] and [map[string]interface{}].  No
    function of the bot looks inside a number, so a [float64] is carried as
    its 64-bit pattern. *)

Inductive JSON : Type :=
| JNull
| JBool (b : bool)
| JNumber (bits : Z)
| JString (s : string)
| JArray (l : list JSON)
| JObject (m : gmap string JSON).

(** A decoded JSON object, the type [map[string]interface{}] of a frame. *)
Abbreviation Msg := (gmap string JSON).

(** The type assertions [v.(string)] and [v.(map[string]interface{})] applied
    to a map index expression: [ok] is false when the key is missing or the
    value has another type. *)
Definition as_string (v : option JSON) : option string :=
  match v with
  | Some (JString s) => Some s
  | _ => None
  end.

Definition as_object (v : option JSON) : option Msg :=
  match v with
  | Some (JObject m) => Some m
  | _ => None
  end.

(** ** The library functions the bot calls

    The functions of Go's standard library whose result the bot uses but
    whose definition is not part of the repository.  [None] stands for a
    non-nil [err].  [url_Parse] gives the [Path] field of the parsed URL.
    [lower_table] is [unicode.ToLower] on the runes above U+007F other than
    U+0130 and U+212A; those two are the only runes above U+007F that Go's case
    table sends to an ASCII letter, which is what [lower_table_high] records. *)
Class GoLib : Type := {
  json_Unmarshal : string -> option Msg;
  json_Marshal : Msg -> option string;
  json_MarshalIndent : Msg -> option string;
  url_Parse : string -> option string;
  lower_table : Z -> Z;
  lower_table_high : forall r : Z, (0x80 <= r)%Z -> (0x80 <= lower_table r)%Z
}.

(** [unicode.ToLower]. *)
Definition unicode_ToLower `{GoLib} (r : Z) : Z :=
  if (r <? 0x80)%Z then
    (if between 0x41 0x5A r then r + 0x20 else r)%Z
  else if (r =? 0x130)%Z then 0x69%Z
  else if (r =? 0x212A)%Z then 0x6B%Z
  else lower_table r.

(** [strings.ToLower]: every rune is mapped through [unicode.ToLower] (the
    byte loop Go uses for pure ASCII input gives the same string). *)
Definition strings_ToLower `{GoLib} (s : string) : string :=
  strings_Map unicode_ToLower s.

(** [hex.EncodeToString]. *)
Definition hex_digit (z : Z) : ascii :=
  if (z <? 10)%Z then byte_of (0x30 + z) else byte_of (0x61 + (z - 10)).

Fixpoint hex_EncodeToString (s : string) : string :=
  match s with
  | EmptyString => EmptyString
  | String c t =>
    String (hex_digit (byte_val c / 16)) (String (hex_digit (byte_val c mod 16))
      (hex_EncodeToString t))
  end.

(** Go [error] values, one constructor for each place of the bot that makes
    or passes on an error. *)
Inductive error : Type :=
| ErrExtractEvent        (* unable to extract event information from message *)
| ErrMarshalEvent        (* failed to marshal message to JSON *)
| ErrInsertEvent         (* failed to insert stream event *)
| ErrExistsQuery         (* failed to check if thumbnail exists *)
| ErrRefreshQuery        (* failed to check if refresh needed *)
| ErrMkdir               (* failed to create subdirectory *)
| ErrHttpGet             (* failed to download image *)
| ErrHttpStatus (code : Z) (* image download failed with HTTP status *)
| ErrCreateFile          (* failed to create file *)
| ErrCopy                (* failed to write image to file *)
| ErrStat                (* failed to get file info *)
| ErrSHA256              (* failed to calculate SHA256 *)
| ErrUniqueUsername      (* thumbnail already exists for user *)
| ErrDbInsert            (* database insert error *)
| ErrDbUpdate            (* database update error *)
| ErrRowsAffected        (* failed to get rows affected *)
| ErrNoRowsInserted      (* no rows inserted for user *)
| ErrNoRowToUpdate       (* no thumbnail found to update for user *)
| ErrMissingCredentials  (* missing credentials for WebSocket connection *)
| ErrDial                (* failed to connect to WebSocket *)
| ErrSubscribe           (* failed to send subscribe command *)
| ErrRead.               (* the error returned by ws.ReadJSON *)

(** ** The event classifier and the stream event store *)

(** A row of the [stream_events] table. *)
Record StreamEvent : Type := {
  ID : Z;
  ReceivedTimestamp : Z;
  EventType : string;
  UserWhoPerformedAction : option string;
  RawJSON : string
}.

(** [ExtractEventInfo]: the event type, the user (a [*string], [None] for
    [nil]) and whether extraction succeeded. *)
Definition ExtractEventInfo `{GoLib} (msg : Msg) : string * option string * bool :=
  let '(eventType, user) :=
    match as_object (msg !! "message") with
    | Some message =>
      let eventType :=
        match as_string (message !! "type") with
        | Some typeField => if nonempty typeField then typeField else ""
        | None => ""
        end in
      let user :=
        match as_object (message !! "author") with
        | Some author =>
          match as_string (author !! "slug") with
          | Some slug =>
            if nonempty slug then Some slug
            else match as_string (author !! "username") with
                 | Some username => if nonempty username then Some username else None
                 | None => None
                 end
          | None =>
            match as_string (author !! "username") with
            | Some username => if nonempty username then Some username else None
            | None => None
            end
          end
        | None => None
        end in
      let user :=
        match user with
        | Some _ => user
        | None =>
          match as_string (message !! "metadata") with
          | Some metadata =>
            if nonempty metadata then
              match json_Unmarshal metadata with
              | Some metadataObj =>
                match as_string (metadataObj !! "who") with
                | Some who => if nonempty who then Some who else None
                | None => None
                end
              | None => None
              end
            else None
          | None => None
          end
        end in
      (eventType, user)
    | None => ("", None)
    end in
  if nonempty eventType then (eventType, user, true)
  else
    match as_string (msg !! "type") with
    | Some typeField => (typeField, None, true)
    | None =>
      match as_string (msg !! "event") with
      | Some event => (event, user, true)
      | None => ("", None, false)
      end
    end.

(** [IsStreamEvent]. *)
Definition IsStreamEvent (msg : Msg) : bool :=
  match as_object (msg !! "message") with
  | Some message =>
    match as_string (message !! "event") with
    | Some event => String.eqb event "StreamEvent"
    | None => false
    end
  | None => false
  end.

(** What [StoreEvent] takes from outside: the wall clock ([time.Now().Unix()])
    and whether the [INSERT] statement is carried out by the database. *)
Record StoreEnv : Type := {
  store_now : Z;
  store_exec_fails : bool
}.

(** The [INSERT INTO stream_events ...] statement: the table is a list of
    rows in insertion order and the [AUTOINCREMENT] key of the new row is one
    more than the number of rows (rows are never deleted). *)
Definition insert_stream_event (rows : list StreamEvent)
    (timestamp : Z) (eventType : string) (user : option string) (rawJSON : string)
    : list StreamEvent :=
  rows ++ [ {| ID := Z.of_nat (length rows) + 1;
               ReceivedTimestamp := timestamp;
               EventType := eventType;
               UserWhoPerformedAction := user;
               RawJSON := rawJSON |} ].

(** [StoreEvent]: the table after the call and the returned error ([None] for
    [nil]). *)
Definition StoreEvent `{GoLib} (env : StoreEnv) (rows : list StreamEvent) (msg : Msg)
    : list StreamEvent * option error :=
  if negb (IsStreamEvent msg) then (rows, None)
  else
    match ExtractEventInfo msg with
    | (_, _, false) => (rows, Some ErrExtractEvent)
    | (eventType, user, true) =>
      match json_Marshal msg with
      | None => (rows, Some ErrMarshalEvent)
      | Some rawJSON =>
        let timestamp := store_now env in
        if store_exec_fails env then (rows, Some ErrInsertEvent)
        else (insert_stream_event rows timestamp eventType user rawJSON, None)
      end
    end.

(** ** The thumbnail cache *)

(** [time.Time] values are nanoseconds since the Unix epoch; [time.Duration]
    is a signed 64-bit count of nanoseconds. *)
Definition Second : Z := 1000000000.
Definition Minute : Z := 60 * Second.

(** [time.Unix(sec, 0)] and [t.Unix()]. *)
Definition time_Unix (sec : Z) : Z := (sec * Second)%Z.
Definition Unix (t : Z) : Z := (t / Second)%Z.

(** [t.Sub(u)]: the difference, saturated to the range of [Duration]. *)
Definition time_Sub (t u : Z) : Z :=
  let d := (t - u)%Z in
  if (d <? - 2 ^ 63)%Z then (- 2 ^ 63)%Z
  else if (2 ^ 63 - 1 <? d)%Z then (2 ^ 63 - 1)%Z
  else d.

(** [ThumbnailCache]: the database handle and the lock are left to the
    [World] below; what remains is the cache directory. *)
Record ThumbnailCache : Type := { cacheDir : string }.

(** [ThumbnailRecord]. *)
Record ThumbnailRecord : Type := {
  Username : string;
  SHA256 : string;
  FileSize : Z;
  DownloadTimestamp : Z;
  ImageURL : string;
  FileExtension : string
}.

(** A row of the [thumbnails] table without its primary key [username]. *)
Record ThumbRow : Type := {
  sha256 : string;
  file_size : Z;
  download_timestamp : Z;
  image_url : string;
  file_extension : string
}.

(** What the cache reads and writes: the [thumbnails] table, keyed by
    [username], and the regular files under the cache directory, keyed by
    their path, with their bytes. *)
Record World : Type := {
  thumbnails : gmap string ThumbRow;
  files : gmap string string
}.

(** The reply to [http.Get]: a transport error, or a response with its
    status code and body. *)
Inductive HttpReply : Type :=
| HttpError
| HttpResponse (status : Z) (body : string).

(** The outcome of every fallible call on the way of [DownloadAndStore] that
    the state of [World] does not decide, and the wall clock at the two places
    it is read.  [copy_fault = Some n] makes [io.Copy] end with an error after
    [n] bytes of the body went into the file. *)
Record Env : Type := {
  exists_query_fails : bool;
  info_query_fails : bool;
  clock_since : Z;
  mkdir_fails : bool;
  http_Get : string -> HttpReply;
  create_fails : bool;
  copy_fault : option nat;
  stat_fails : bool;
  sha_fails : bool;
  clock_now : Z;
  exec_fails : bool;
  rows_affected_fails : bool
}.

(** A Go result pair [(value, err)]. *)
Inductive result (A : Type) : Type :=
| Ok (a : A)
| Err (e : error).
Arguments Ok {A} a.
Arguments Err {A} e.

(** [ThumbnailExists]: [SELECT EXISTS(SELECT 1 FROM thumbnails WHERE username = ?)]. *)
Definition ThumbnailExists (env : Env) (w : World) (username : string) : result bool :=
  if exists_query_fails env then Err ErrExistsQuery
  else Ok (bool_decide (is_Some (thumbnails w !! username))).

(** [GetThumbnailInfo]: [Ok None] is the pair [(nil, nil)] returned for
    [sql.ErrNoRows]. *)
Definition GetThumbnailInfo (env : Env) (w : World) (username : string)
    : result (option ThumbnailRecord) :=
  if info_query_fails env then Err ErrRefreshQuery
  else
    match thumbnails w !! username with
    | None => Ok None
    | Some row =>
      Ok (Some {| Username := username;
                  SHA256 := sha256 row;
                  FileSize := file_size row;
                  DownloadTimestamp := time_Unix (download_timestamp row);
                  ImageURL := image_url row;
                  FileExtension := file_extension row |})
    end.

(** [NeedsRefresh]. *)
Definition NeedsRefresh (env : Env) (w : World) (username : string) : result bool :=
  match GetThumbnailInfo env w username with
  | Err e => Err e
  | Ok None => Ok false
  | Ok (Some record) =>
    let age := time_Sub (clock_since env) (DownloadTimestamp record) in
    Ok (5 * Minute <? age)%Z
  end.

(** [getSubdirectory]. *)
Definition getSubdirectory `{GoLib} (username : string) : string :=
  if String.eqb username "" then "other"
  else
    match runes username with
    | [] => "other"
    | r0 :: _ =>
      let firstChar := strings_ToLower (utf8_encode r0) in
      if str_leb "a" firstChar && str_leb firstChar "z" then firstChar
      else "other"
    end.

(** [filepath.Base] on a system whose separator is [/]. *)
Fixpoint strip_trailing (c : ascii) (s : string) : string :=
  match s with
  | EmptyString => EmptyString
  | String d t =>
    match strip_trailing c t with
    | EmptyString => if ascii_dec c d then EmptyString else String d EmptyString
    | t' => String d t'
    end
  end.

Definition filepath_Base (path : string) : string :=
  if String.eqb path "" then "."
  else
    let path := strip_trailing "/" path in
    let path := List.last (strings_Split "/" path) "" in
    if String.eqb path "" then "/" else path.

(** [filepath.Join]: the non-empty elements, separated by [/].  The lexical
    cleaning that Go applies to the result (removal of [.], [..] and doubled
    separators) is not modelled; paths are compared as joined. *)
Fixpoint filepath_Join (elem : list string) : string :=
  match elem with
  | [] => ""
  | e :: rest =>
    if String.eqb e "" then filepath_Join rest
    else
      match filepath_Join rest with
      | EmptyString => e
      | tl => e +:+ "/" +:+ tl
      end
  end.

(** The image extensions accepted by the [switch] of [extractExtension]. *)
Definition image_extensions : list string :=
  ["jpg"; "jpeg"; "png"; "gif"; "webp"; "bmp"; "tiff"; "svg"].

(** [extractExtension]. *)
Definition extractExtension `{GoLib} (imageURL : string) : string :=
  match url_Parse imageURL with
  | None => ".png"
  | Some path =>
    if String.eqb path "" then ".png"
    else
      let lastPart := filepath_Base path in
      if contains_byte "." lastPart then
        let parts := strings_Split "." lastPart in
        let ext := List.last parts "" in
        if (0 <? len ext)%Z && (len ext <=? 5)%Z then
          let ext := strings_ToLower ext in
          if existsb (String.eqb ext) image_extensions then "." +:+ ext
          else ".png"
        else ".png"
      else ".png"
  end.

(** [calculateSHA256]: the file is opened and read back from disk. *)
Definition calculateSHA256 (env : Env) (w : World) (filePath : string)
    : result string :=
  if sha_fails env then Err ErrSHA256
  else
    match files w !! filePath with
    | None => Err ErrSHA256
    | Some bytes => Ok (hex_EncodeToString (SHA256.Sum256 bytes))
    end.

(** [GetFilePath]. *)
Definition GetFilePath `{GoLib} (tc : ThumbnailCache) (username extension : string) : string :=
  let subdir := getSubdirectory username in
  filepath_Join [cacheDir tc; subdir; username +:+ extension].

Definition set_thumbnails (w : World) (t : gmap string ThumbRow) : World :=
  {| thumbnails := t; files := files w |}.
Definition set_files (w : World) (f : gmap string string) : World :=
  {| thumbnails := thumbnails w; files := f |}.

Definition row_of (record : ThumbnailRecord) : ThumbRow :=
  {| sha256 := SHA256 record;
     file_size := FileSize record;
     download_timestamp := Unix (DownloadTimestamp record);
     image_url := ImageURL record;
     file_extension := FileExtension record |}.

(** [insertThumbnail]: the [INSERT] is refused when the primary key is
    taken; the number of affected rows is asked for after the statement ran. *)
Definition insertThumbnail (env : Env) (w : World) (record : ThumbnailRecord)
    : World * option error :=
  if exec_fails env then (w, Some ErrDbInsert)
  else
    match thumbnails w !! Username record with
    | Some _ => (w, Some ErrUniqueUsername)
    | None =>
      let w' := set_thumbnails w (<[Username record := row_of record]> (thumbnails w)) in
      let rowsAffected := 1%Z in
      if rows_affected_fails env then (w', Some ErrRowsAffected)
      else if (rowsAffected =? 0)%Z then (w', Some ErrNoRowsInserted)
      else (w', None)
    end.

(** [updateThumbnail]: [UPDATE thumbnails SET ... WHERE username = ?]. *)
Definition updateThumbnail (env : Env) (w : World) (record : ThumbnailRecord)
    : World * option error :=
  if exec_fails env then (w, Some ErrDbUpdate)
  else
    let '(w', rowsAffected) :=
      match thumbnails w !! Username record with
      | Some _ =>
        (set_thumbnails w (<[Username record := row_of record]> (thumbnails w)), 1%Z)
      | None => (w, 0%Z)
      end in
    if rows_affected_fails env then (w', Some ErrRowsAffected)
    else if (rowsAffected =? 0)%Z then (w', Some ErrNoRowToUpdate)
    else (w', None).

(** The file system calls of [downloadImageFile].  [os.Create] truncates an
    existing file; [os.Remove] unlinks the file (its result is not looked at
    by the callers); [os.Stat] gives the size. *)
Definition os_Create (w : World) (path : string) : World :=
  set_files w (<[path := ""]> (files w)).
Definition io_Copy (w : World) (path : string) (bytes : string) : World :=
  set_files w (<[path := bytes]> (files w)).
Definition os_Remove (w : World) (path : string) : World :=
  set_files w (delete path (files w)).
Definition os_Stat (env : Env) (w : World) (path : string) : result Z :=
  if stat_fails env then Err ErrStat
  else
    match files w !! path with
    | None => Err ErrStat
    | Some bytes => Ok (len bytes)
    end.

Fixpoint take_bytes (n : nat) (s : string) : string :=
  match n, s with
  | S n', String c t => String c (take_bytes n' t)
  | _, _ => EmptyString
  end.

(** [downloadImageFile]: the world after the call, the URLs requested over
    the network, and the Go result [(filePath, size, sha256, err)]. *)
Definition downloadImageFile `{GoLib} (tc : ThumbnailCache) (env : Env) (w : World)
    (imageURL username extension : string)
    : World * list string * result (string * Z * string) :=
  let subdir := getSubdirectory username in
  let subdirPath := filepath_Join [cacheDir tc; subdir] in
  if mkdir_fails env then (w, [], Err ErrMkdir)
  else
    let filePath := filepath_Join [subdirPath; username +:+ extension] in
    match http_Get env imageURL with
    | HttpError => (w, [imageURL], Err ErrHttpGet)
    | HttpResponse status body =>
      if negb (status =? 200)%Z then (w, [imageURL], Err (ErrHttpStatus status))
      else if create_fails env then (w, [imageURL], Err ErrCreateFile)
      else
        let w := os_Create w filePath in
        match copy_fault env with
        | Some n =>
          let w := io_Copy w filePath (take_bytes n body) in
          (os_Remove w filePath, [imageURL], Err ErrCopy)
        | None =>
          let w := io_Copy w filePath body in
          match os_Stat env w filePath with
          | Err _ => (os_Remove w filePath, [imageURL], Err ErrStat)
          | Ok size =>
            match calculateSHA256 env w filePath with
            | Err _ => (os_Remove w filePath, [imageURL], Err ErrSHA256)
            | Ok sha256Hash => (w, [imageURL], Ok (filePath, size, sha256Hash))
            end
          end
        end
    end.

(** What a call of [DownloadAndStore] leaves behind. *)
Record Outcome : Type := {
  out_world : World;
  out_requests : list string;
  out_err : option error
}.

(** [DownloadAndStore] (the log lines are left out). *)
Definition DownloadAndStore `{GoLib} (tc : ThumbnailCache) (env : Env) (w : World)
    (imageURL username : string) : Outcome :=
  let username := if String.eqb username "" then "unknown" else username in
  match ThumbnailExists env w username with
  | Err _ => {| out_world := w; out_requests := []; out_err := Some ErrExistsQuery |}
  | Ok true =>
    match NeedsRefresh env w username with
    | Err _ => {| out_world := w; out_requests := []; out_err := Some ErrRefreshQuery |}
    | Ok false => {| out_world := w; out_requests := []; out_err := None |}
    | Ok true =>
      let extension := extractExtension imageURL in
      match downloadImageFile tc env w imageURL username extension with
      | (w, reqs, Err e) => {| out_world := w; out_requests := reqs; out_err := Some e |}
      | (w, reqs, Ok (filePath, fileSize, sha256Hash)) =>
        let record := {| Username := username;
                         SHA256 := sha256Hash;
                         FileSize := fileSize;
                         DownloadTimestamp := clock_now env;
                         ImageURL := imageURL;
                         FileExtension := extension |} in
        match updateThumbnail env w record with
        | (w, Some e) =>
          {| out_world := os_Remove w filePath; out_requests := reqs; out_err := Some e |}
        | (w, None) => {| out_world := w; out_requests := reqs; out_err := None |}
        end
      end
    end
  | Ok false =>
    let extension := extractExtension imageURL in
    match downloadImageFile tc env w imageURL username extension with
    | (w, reqs, Err e) => {| out_world := w; out_requests := reqs; out_err := Some e |}
    | (w, reqs, Ok (filePath, fileSize, sha256Hash)) =>
      let record := {| Username := username;
                       SHA256 := sha256Hash;
                       FileSize := fileSize;
                       DownloadTimestamp := clock_now env;
                       ImageURL := imageURL;
                       FileExtension := extension |} in
      match insertThumbnail env w record with
      | (w, Some e) =>
        {| out_world := os_Remove w filePath; out_requests := reqs; out_err := Some e |}
      | (w, None) => {| out_world := w; out_requests := reqs; out_err := None |}
      end
    end
  end.

(** ** The websocket listener *)

(** The part of [Server] that the listener reads: the stored credentials and
    the thumbnail cache ([None] for a nil pointer). *)
Record Server : Type := {
  clientID : string;
  clientSecret : string;
  thumbCache : option ThumbnailCache
}.

(** What the listener does that can be seen from outside: its log lines and
    the goroutines it starts. *)
Inductive Effect : Type :=
| LogConnected                         (* Connected to Joystick TV WebSocket API *)
| LogSentSubscribe                     (* Sent subscription request to GatewayChannel *)
| LogClosed                            (* WebSocket connection closed *)
| LogSubscribed                        (* Successfully subscribed to GatewayChannel *)
| LogRejected                          (* Subscription rejected - authentication failed *)
| GoDownloadAndStore (thumbURL username : string)
                                       (* go func() { s.thumbCache.DownloadAndStore(thumbURL, username) } *)
| LogMarshalFailed                     (* Failed to marshal event *)
| LogEvent (eventJSON : string).       (* Event received *)

(** [outputEvent]. *)
Definition outputEvent `{GoLib} (s : Server) (msg : Msg) : list Effect :=
  let returned :=
    match as_string (msg !! "type") with
    | Some msgType =>
      if String.eqb msgType "confirm_subscription" then Some [LogSubscribed]
      else if String.eqb msgType "reject_subscription" then Some [LogRejected]
      else if String.eqb msgType "ping" then Some []
      else None
    | None => None
    end in
  match returned with
  | Some effects => effects
  | None =>
    let started :=
      match as_object (msg !! "message") with
      | Some message =>
        match as_object (message !! "author") with
        | Some author =>
          match as_string (author !! "signedPhotoThumbUrl") with
          | Some thumbURL =>
            if nonempty thumbURL then
              let username :=
                match as_string (author !! "slug") with
                | Some slug => slug
                | None =>
                  match as_string (author !! "username") with
                  | Some usr => usr
                  | None => "unknown"
                  end
                end in
              match thumbCache s with
              | Some _ => [GoDownloadAndStore thumbURL username]
              | None => []
              end
            else []
          | None => []
          end
        | None => []
        end
      | None => []
      end in
    (started ++
     match json_MarshalIndent msg with
     | None => [LogMarshalFailed]
     | Some eventJSON => [LogEvent eventJSON]
     end)%list
  end.

(** What [ws.ReadJSON] gives, call after call: a decoded frame or an error. *)
Inductive Frame : Type :=
| Received (msg : Msg)
| ReadFailed.

(** Where [ConnectToWebSocket] stands once the given frames are used up: it
    has returned an error, or it is still in its [for] loop, waiting in
    [ws.ReadJSON]. *)
Inductive Status : Type :=
| Returned (e : error)
| Listening.

(** The [for] loop of [ConnectToWebSocket]. *)
Fixpoint listen `{GoLib} (s : Server) (frames : list Frame) : list Effect * Status :=
  match frames with
  | [] => ([], Listening)
  | ReadFailed :: _ => ([LogClosed], Returned ErrRead)
  | Received msg :: rest =>
    let '(effects, status) := listen s rest in
    ((outputEvent s msg ++ effects)%list, status)
  end.

(** The connection as the listener meets it: whether dialling and sending
    the subscribe command fail, and the frames read afterwards. *)
Record Link : Type := {
  dial_fails : bool;
  write_fails : bool;
  frames : list Frame
}.

(** [ConnectToWebSocket]. *)
Definition ConnectToWebSocket `{GoLib} (s : Server) (link : Link) : list Effect * Status :=
  if String.eqb (clientID s) "" || String.eqb (clientSecret s) ""
  then ([], Returned ErrMissingCredentials)
  else if dial_fails link then ([], Returned ErrDial)
  else if write_fails link then ([LogConnected], Returned ErrSubscribe)
  else
    let '(effects, status) := listen s (frames link) in
    (LogConnected :: LogSentSubscribe :: effects, status).

(** ** A small instance of the library, to run the model on example frames

    [encoding/json] and [net/url] are replaced by stand-ins that are exact on
    the inputs of the examples below and report an error elsewhere: the
    encoder covers objects (keys in byte order, as Go prints maps), arrays,
    booleans, [null] and strings of plain printable characters; the decoder
    and the URL parser are tables.  The case table is the identity, which is
    exact on the runes that have no other lower case. *)

Definition dquote : string := String (ascii_of_nat 34) EmptyString.
Definition newline : string := String (ascii_of_nat 10) EmptyString.

Definition plain_char (c : ascii) : bool :=
  let b := byte_val c in
  between 0x20 0x7E b &&
  negb (existsb (Z.eqb b) [0x22; 0x5C; 0x3C; 0x3E; 0x26]%Z).

Fixpoint plain (s : string) : bool :=
  match s with
  | EmptyString => true
  | String c t => plain_char c && plain t
  end.

Definition quoted (s : string) : option string :=
  if plain s then Some (dquote +:+ s +:+ dquote) else None.

Fixpoint insert_sorted (kv : string * string) (l : list (string * string))
    : list (string * string) :=
  match l with
  | [] => [kv]
  | x :: t => if str_leb (fst kv) (fst x) then kv :: l else x :: insert_sorted kv t
  end.

Fixpoint spaces (n : nat) : string :=
  match n with
  | O => EmptyString
  | S n' => "  " +:+ spaces n'
  end.

Fixpoint separated (sep : string) (l : list string) : string :=
  match l with
  | [] => EmptyString
  | [x] => x
  | x :: t => x +:+ sep +:+ separated sep t
  end.

Definition bracketed (indent : bool) (depth : nat) (open close : string)
    (items : list string) : string :=
  match items with
  | [] => open +:+ close
  | _ =>
    if indent then
      open +:+ newline +:+ spaces (S depth)
        +:+ separated ("," +:+ newline +:+ spaces (S depth)) items
        +:+ newline +:+ spaces depth +:+ close
    else open +:+ separated "," items +:+ close
  end.

Fixpoint sample_encode (indent : bool) (depth : nat) (j : JSON) : option string :=
  match j with
  | JNull => Some "null"
  | JBool b => Some (if b then "true" else "false")
  | JNumber _ => None
  | JString s => quoted s
  | JArray l =>
    let items :=
      fold_right (fun v acc =>
                    match sample_encode indent (S depth) v, acc with
                    | Some e, Some es => Some (e :: es)
                    | _, _ => None
                    end) (Some []) l in
    option_map (bracketed indent depth "[" "]") items
  | JObject m =>
    let items :=
      map_fold (fun k v acc =>
                  match quoted k, sample_encode indent (S depth) v, acc with
                  | Some qk, Some e, Some es =>
                    Some (insert_sorted
                            (k, qk +:+ (if indent then ": " else ":") +:+ e) es)
                  | _, _, _ => None
                  end) (Some []) m in
    option_map (fun es => bracketed indent depth "{" "}" (map snd es)) items
  end.

(** The metadata string [{"who":"carol"}] of a stream event. *)
Definition who_carol : string :=
  "{" +:+ dquote +:+ "who" +:+ dquote +:+ ":" +:+ dquote +:+ "carol" +:+ dquote +:+ "}".

Definition sample_Unmarshal (s : string) : option Msg :=
  if String.eqb s who_carol then Some {[ "who" := JString "carol" ]}
  else if String.eqb s "{}" then Some ∅
  else None.

Definition sample_url_Parse (s : string) : option string :=
  if String.eqb s "https://cdn/x/avatar.jpeg?sig=1" then Some "/x/avatar.jpeg"
  else if String.eqb s "https://cdn/x/bob.png" then Some "/x/bob.png"
  else if String.eqb s "https://cdn/x/avatar" then Some "/x/avatar"
  else None.

Definition sampleLib : GoLib :=
  {| json_Unmarshal := sample_Unmarshal;
     json_Marshal := fun msg => sample_encode false 0 (JObject msg);
     json_MarshalIndent := fun msg => sample_encode true 0 (JObject msg);
     url_Parse := sample_url_Parse;
     lower_table := fun r => r;
     lower_table_high := fun r H => H |}.

(** The frame [{"message":{"event":"StreamEvent","type":"Followed","author":{"slug":"tyrm"}}}]. *)
Definition followed_frame : Msg :=
  {[ "message" :=
       JObject {[ "event" := JString "StreamEvent";
                  "type" := JString "Followed";
                  "author" := JObject {[ "slug" := JString "tyrm" ]} ]} ]}.

(** The frame [{"message":{"event":"StreamEvent"}}]: a stream event without
    any type field. *)
Definition untyped_stream_frame : Msg :=
  {[ "message" := JObject {[ "event" := JString "StreamEvent" ]} ]}.

(** A store that accepts the insert, at some second of the wall clock. *)
Definition healthy_store : StoreEnv :=
  {| store_now := 1700000000; store_exec_fails := false |}.

(** ** The classifier as the specification words it *)

(** A field counts when it is a string and not the empty one. *)
Definition present (v : option string) : option string :=
  match v with
  | Some s => if nonempty s then Some s else None
  | None => None
  end.

(** The first candidate that counts, in the order given. *)
Fixpoint first_present (candidates : list (option string)) : option string :=
  match candidates with
  | [] => None
  | c :: rest =>
    match present c with
    | Some s => Some s
    | None => first_present rest
    end
  end.

(** The nested [message.type], [message.event] and the three places an
    actor can come from. *)
Definition nested_type (msg : Msg) : option string :=
  as_object (msg !! "message") ≫= fun message => as_string (message !! "type").

Definition nested_event (msg : Msg) : option string :=
  as_object (msg !! "message") ≫= fun message => as_string (message !! "event").

Definition author_slug (msg : Msg) : option string :=
  as_object (msg !! "message") ≫= fun message =>
  as_object (message !! "author") ≫= fun author => as_string (author !! "slug").

Definition author_username (msg : Msg) : option string :=
  as_object (msg !! "message") ≫= fun message =>
  as_object (message !! "author") ≫= fun author => as_string (author !! "username").

Definition metadata_who `{GoLib} (msg : Msg) : option string :=
  as_object (msg !! "message") ≫= fun message =>
  present (as_string (message !! "metadata")) ≫= fun metadata =>
  json_Unmarshal metadata ≫= fun metadataObj => as_string (metadataObj !! "who").

(** Actor resolution by priority: author.slug, then author.username, then
    the [who] field of the parsed metadata; the first one that counts wins. *)
Definition actor_by_priority `{GoLib} (msg : Msg) : option string :=
  first_present [author_slug msg; author_username msg; metadata_who msg].

(** Whether the classification of [msg] hands the resolved actor on: it does
    when the type is the nested one, and when the type is taken from the
    top-level [event] field; a type taken from the top-level [type] field comes
    without an actor. *)
Definition keeps_actor (msg : Msg) : bool :=
  match present (nested_type msg) with
  | Some _ => true
  | None =>
    match as_string (msg !! "type") with
    | Some _ => false
    | None => bool_decide (is_Some (as_string (msg !! "event")))
    end
  end.

(** ** The cache path as the specification words it *)

(** The runes a string can hold: Unicode scalar values. *)
Definition valid_rune (r : Z) : Prop :=
  (0 <= r < 0xD800 \/ 0xDFFF < r <= 0x10FFFF)%Z.

(** The shard: the lowercased first character when that character is an
    ASCII letter, the fixed overflow shard otherwise. *)
Definition overflow_shard : string := "other".

Definition shard_of `{GoLib} (username : string) : string :=
  match runes username with
  | [] => overflow_shard
  | r :: _ =>
    let c := unicode_ToLower r in
    if between 0x61 0x7A c then str1 c else overflow_shard
  end.

(** The suffix of the URL's path: what follows the last dot of the last
    path element, when the URL parses and that element has a dot. *)
Definition url_suffix `{GoLib} (imageURL : string) : option string :=
  url_Parse imageURL ≫= fun path =>
  if String.eqb path "" then None
  else
    let lastPart := filepath_Base path in
    if contains_byte "." lastPart
    then Some (List.last (strings_Split "." lastPart) "")
    else None.

(** A suffix is recognized when it has one to five bytes and, lowercased,
    is one of the image extensions. *)
Definition recognized `{GoLib} (ext : string) : bool :=
  (0 <? len ext)%Z && (len ext <=? 5)%Z &&
  existsb (String.eqb (strings_ToLower ext)) image_extensions.

Definition extension_of `{GoLib} (imageURL : string) : string :=
  match url_suffix imageURL with
  | Some ext => if recognized ext then "." +:+ strings_ToLower ext else ".png"
  | None => ".png"
  end.

(** The name under which [DownloadAndStore] files a user: the empty name is
    replaced by "unknown". *)
Definition actor_of (username : string) : string :=
  if String.eqb username "" then "unknown" else username.

(** The errors that come out of [insertThumbnail] and [updateThumbnail]. *)
Definition is_upsert_error (e : error) : bool :=
  match e with
  | ErrUniqueUsername | ErrDbInsert | ErrDbUpdate
  | ErrRowsAffected | ErrNoRowsInserted | ErrNoRowToUpdate => true
  | _ => false
  end.

(** The frames [outputEvent] returns on before any routing. *)
Definition is_control (msg : Msg) : bool :=
  match as_string (msg !! "type") with
  | Some msgType =>
    String.eqb msgType "confirm_subscription"
    || String.eqb msgType "reject_subscription"
    || String.eqb msgType "ping"
  | None => false
  end.

(** ** Example worlds and environments *)

Definition sample_cache : ThumbnailCache := {| cacheDir := "thumbcache" |}.

(** An environment in which nothing fails: the clock reads [now] seconds
    and every URL is answered by [reply]. *)
Definition healthy_env (now : Z) (reply : HttpReply) : Env :=
  {| exists_query_fails := false;
     info_query_fails := false;
     clock_since := now * Second;
     mkdir_fails := false;
     http_Get := fun _ => reply;
     create_fails := false;
     copy_fault := None;
     stat_fails := false;
     sha_fails := false;
     clock_now := now * Second;
     exec_fails := false;
     rows_affected_fails := false |}.

(** The same, but [io.Copy] breaks off after [n] bytes. *)
Definition broken_copy_env (now : Z) (reply : HttpReply) (n : nat) : Env :=
  {| exists_query_fails := false;
     info_query_fails := false;
     clock_since := now * Second;
     mkdir_fails := false;
     http_Get := fun _ => reply;
     create_fails := false;
     copy_fault := Some n;
     stat_fails := false;
     sha_fails := false;
     clock_now := now * Second;
     exec_fails := false;
     rows_affected_fails := false |}.

(** The same as [healthy_env], but the database refuses the [INSERT] or
    [UPDATE] statement. *)
Definition broken_db_env (now : Z) (reply : HttpReply) : Env :=
  {| exists_query_fails := false;
     info_query_fails := false;
     clock_since := now * Second;
     mkdir_fails := false;
     http_Get := fun _ => reply;
     create_fails := false;
     copy_fault := None;
     stat_fails := false;
     sha_fails := false;
     clock_now := now * Second;
     exec_fails := true;
     rows_affected_fails := false |}.

Definition empty_world : World := {| thumbnails := ∅; files := ∅ |}.

(** A cache that holds Bob's thumbnail, downloaded at second 1700000000. *)
Definition bob_world : World :=
  {| thumbnails :=
       {[ "Bob" := {| sha256 := hex_EncodeToString (SHA256.Sum256 "old");
                      file_size := 3;
                      download_timestamp := 1700000000;
                      image_url := "https://cdn/x/bob.png";
                      file_extension := ".png" |} ]};
     files := {[ "thumbcache/b/Bob.png" := "old" ]} |}.

(** Bob's record as [GetThumbnailInfo] reads it from [bob_world]. *)
Definition bob_record : ThumbnailRecord :=
  {| Username := "Bob";
     SHA256 := hex_EncodeToString (SHA256.Sum256 "old");
     FileSize := 3;
     DownloadTimestamp := time_Unix 1700000000;
     ImageURL := "https://cdn/x/bob.png";
     FileExtension := ".png" |}.

Definition sample_server : Server :=
  {| clientID := "id"; clientSecret := "secret"; thumbCache := Some sample_cache |}.

(** The frame [{"type":"reject_subscription"}]. *)
Definition reject_frame : Msg := {[ "type" := JString "reject_subscription" ]}.

(** A chat message of bob, with a thumbnail URL. *)
Definition chat_frame : Msg :=
  {[ "message" :=
       JObject {[ "type" := JString "ChatMessage";
                  "author" :=
                    JObject {[ "slug" := JString "bob";
                               "signedPhotoThumbUrl" := JString "https://cdn/x/bob.png" ]} ]} ]}.

(** A chat message whose author is
    [{"slug":"","username":"bob","signedPhotoThumbUrl":"https://cdn/x/bob.png"}]. *)
Definition empty_slug_author : Msg :=
  {[ "slug" := JString "";
     "username" := JString "bob";
     "signedPhotoThumbUrl" := JString "https://cdn/x/bob.png" ]}.

Definition empty_slug_message : Msg :=
  {[ "type" := JString "ChatMessage"; "author" := JObject empty_slug_author ]}.

Definition empty_slug_frame : Msg :=
  {[ "message" := JObject empty_slug_message ]}.

(** A name that starts with the Cyrillic letter U+0416. *)
Definition cyrillic_name : string :=
  String (ascii_of_nat 208) (String (ascii_of_nat 150) "enya").

(** Example calls: a first download for Bob; a refresh of Bob's stale
    thumbnail during which [io.Copy] breaks off after one byte; a first
    download whose [INSERT] the database refuses. *)
Definition first_download : Outcome :=
  @DownloadAndStore sampleLib sample_cache
    (healthy_env 1700000000 (HttpResponse 200 "abc"))
    empty_world "https://cdn/x/avatar.jpeg?sig=1" "Bob".

Definition broken_refresh : Outcome :=
  @DownloadAndStore sampleLib sample_cache
    (broken_copy_env 1700000600 (HttpResponse 200 "abc") 1)
    bob_world "https://cdn/x/bob.png" "Bob".

Definition refused_insert : Outcome :=
  @DownloadAndStore sampleLib sample_cache
    (broken_db_env 1700000000 (HttpResponse 200 "abc"))
    empty_world "https://cdn/x/avatar.jpeg?sig=1" "Bob".

(** A download in which every step succeeds: the two reads of the table,
    the directory, the request (answered by status 200 and [body]), the file
    and the write to the table; and the row of [username], if there is one, is
    more than five minutes old. *)
Definition all_steps_succeed (env : Env) (w : World) (imageURL username body : string)
    : Prop :=
  exists_query_fails env = false /\
  match thumbnails w !! username with
  | None => True
  | Some row =>
    info_query_fails env = false /\
    (5 * Minute < clock_since env - time_Unix (download_timestamp row))%Z
  end /\
  mkdir_fails env = false /\
  http_Get env imageURL = HttpResponse 200 body /\
  create_fails env = false /\
  copy_fault env = None /\
  stat_fails env = false /\
  sha_fails env = false /\
  exec_fails env = false /\
  rows_affected_fails env = false.

(** The outcome of a call that did nothing. *)
Definition untouched (w : World) : Outcome :=
  {| out_world := w; out_requests := []; out_err := None |}.

(** ** The earlier thumbnail cache

    [DownloadAndStore] as it was before the refresh was added, with the
    download written out in its body; the helpers it calls are the ones
    above. *)

Module Earlier.

(** [DownloadAndStore]. *)
Definition DownloadAndStore `{GoLib} (tc : ThumbnailCache) (env : Env) (w : World)
    (imageURL username : string) : Outcome :=
  let username := if String.eqb username "" then "unknown" else username in
  match ThumbnailExists env w username with
  | Err _ => {| out_world := w; out_requests := []; out_err := Some ErrExistsQuery |}
  | Ok true => {| out_world := w; out_requests := []; out_err := None |}
  | Ok false =>
    let extension := extractExtension imageURL in
    let subdir := getSubdirectory username in
    let subdirPath := filepath_Join [cacheDir tc; subdir] in
    if mkdir_fails env then
      {| out_world := w; out_requests := []; out_err := Some ErrMkdir |}
    else
      let filePath := filepath_Join [subdirPath; username +:+ extension] in
      match http_Get env imageURL with
      | HttpError =>
        {| out_world := w; out_requests := [imageURL]; out_err := Some ErrHttpGet |}
      | HttpResponse status body =>
        if negb (status =? 200)%Z then
          {| out_world := w; out_requests := [imageURL];
             out_err := Some (ErrHttpStatus status) |}
        else if create_fails env then
          {| out_world := w; out_requests := [imageURL]; out_err := Some ErrCreateFile |}
        else
          let w := os_Create w filePath in
          match copy_fault env with
          | Some n =>
            let w := io_Copy w filePath (take_bytes n body) in
            {| out_world := os_Remove w filePath; out_requests := [imageURL];
               out_err := Some ErrCopy |}
          | None =>
            let w := io_Copy w filePath body in
            match os_Stat env w filePath with
            | Err _ =>
              {| out_world := os_Remove w filePath; out_requests := [imageURL];
                 out_err := Some ErrStat |}
            | Ok size =>
              match calculateSHA256 env w filePath with
              | Err _ =>
                {| out_world := os_Remove w filePath; out_requests := [imageURL];
                   out_err := Some ErrSHA256 |}
              | Ok sha256Hash =>
                let record := {| Username := username;
                                 SHA256 := sha256Hash;
                                 FileSize := size;
                                 DownloadTimestamp := clock_now env;
                                 ImageURL := imageURL;
                                 FileExtension := extension |} in
                match insertThumbnail env w record with
                | (w, Some e) =>
                  {| out_world := os_Remove w filePath; out_requests := [imageURL];
                     out_err := Some e |}
                | (w, None) =>
                  {| out_world := w; out_requests := [imageURL]; out_err := None |}
                end
              end
            end
          end
      end
  end.

End Earlier.

(** The sixteen digits of [hex.EncodeToString]. *)
Definition hex_digits : list ascii := list_ascii_of_string "0123456789abcdef".

(** ** Reading the stream event store

    The three queries of the store select rows of [stream_events], order them
    by [received_timestamp], newest first, and keep the first [limit] of them.
    SQL leaves the order of rows with the same timestamp to the database, so
    the ordering is taken from outside, with what SQL promises of it: the
    result holds the same rows, from new to old. *)

(** The errors of the queries. *)
Inductive query_error : Type :=
| ErrQueryEvents      (* failed to query events *)
| ErrScanEvent        (* failed to scan event *)
| ErrIterateEvents.   (* error iterating events *)

(** What a query takes from outside: whether [db.Query] fails, the index of
    the row at which [rows.Scan] fails, and the number of rows after which
    [rows.Next] stops with an error. *)
Record QueryEnv : Type := {
  query_fails : bool;
  scan_fault : option nat;
  iteration_fault : option nat
}.

(** [ORDER BY received_timestamp DESC]. *)
Definition newer_first : relation StreamEvent :=
  fun a b => (ReceivedTimestamp b <= ReceivedTimestamp a)%Z.

(** The database: how it carries out [ORDER BY received_timestamp DESC]. *)
Class SqlLib : Type := {
  order_by_received_timestamp_desc : list StreamEvent -> list StreamEvent;
  order_by_permutes :
    forall rows, order_by_received_timestamp_desc rows ≡ₚ rows;
  order_by_sorts :
    forall rows, StronglySorted newer_first (order_by_received_timestamp_desc rows)
}.

(** [LIMIT ?]: a negative limit is no limit. *)
Definition sql_limit (limit : Z) (rows : list StreamEvent) : list StreamEvent :=
  if (limit <? 0)%Z then rows else take (Z.to_nat limit) rows.

(** [rows.Scan] and [time.Unix(timestamp, 0)]: the event read from a row. *)
Definition scan_event (row : StreamEvent) : StreamEvent :=
  {| ID := ID row;
     ReceivedTimestamp := time_Unix (ReceivedTimestamp row);
     EventType := EventType row;
     UserWhoPerformedAction := UserWhoPerformedAction row;
     RawJSON := RawJSON row |}.

(** The body the three queries share: the statement, given the rows its
    [WHERE] clause selects, and the loop over the result. *)
Definition query_events `{SqlLib} (env : QueryEnv) (selected : list StreamEvent) (limit : Z)
    : list StreamEvent + query_error :=
  if query_fails env then inr ErrQueryEvents
  else
    let result := sql_limit limit (order_by_received_timestamp_desc selected) in
    let delivered :=
      match iteration_fault env with
      | Some n => take n result
      | None => result
      end in
    let scan_fails :=
      match scan_fault env with
      | Some i => bool_decide (i < length delivered)%nat
      | None => false
      end in
    if scan_fails then inr ErrScanEvent
    else
      match iteration_fault env with
      | Some _ => inr ErrIterateEvents
      | None => inl (scan_event <$> delivered)
      end.

(** [GetEventsByType]: [WHERE event_type = ?]. *)
Definition GetEventsByType `{SqlLib} (env : QueryEnv) (rows : list StreamEvent)
    (eventType : string) (limit : Z) : list StreamEvent + query_error :=
  query_events env (filter (fun row => EventType row = eventType) rows) limit.

(** [GetEventsByUser]: [WHERE user_who_performed_action = ?], which no row
    with a [NULL] user satisfies. *)
Definition GetEventsByUser `{SqlLib} (env : QueryEnv) (rows : list StreamEvent)
    (user : string) (limit : Z) : list StreamEvent + query_error :=
  query_events env
    (filter (fun row => UserWhoPerformedAction row = Some user) rows) limit.

(** [GetRecentEvents]. *)
Definition GetRecentEvents `{SqlLib} (env : QueryEnv) (rows : list StreamEvent) (limit : Z)
    : list StreamEvent + query_error :=
  query_events env rows limit.

(** The table after a run of [StoreEvent] calls that starts on the empty
    table. *)
Definition stored `{GoLib} (calls : list (StoreEnv * Msg)) : list StreamEvent :=
  fold_left (fun rows call => (StoreEvent call.1 rows call.2).1) calls [].

Definition healthy_query : QueryEnv :=
  {| query_fails := false; scan_fault := None; iteration_fault := None |}.

(** The order is decidable, total and transitive, so a merge sort is one
    way to carry the ordering out; the examples run on it. *)
#[local] Instance newer_first_dec : RelDecision newer_first :=
  fun a b => decide (ReceivedTimestamp b <= ReceivedTimestamp a)%Z.

#[local] Instance newer_first_total : Total newer_first :=
  fun a b => Z.le_ge_cases (ReceivedTimestamp b) (ReceivedTimestamp a).

#[local] Instance newer_first_trans : Transitive newer_first :=
  fun a b c Hab Hbc =>
    Z.le_trans (ReceivedTimestamp c) (ReceivedTimestamp b) (ReceivedTimestamp a) Hbc Hab.

Definition sampleSql : SqlLib :=
  {| order_by_received_timestamp_desc := merge_sort newer_first;
     order_by_permutes := merge_sort_Permutation newer_first;
     order_by_sorts := StronglySorted_merge_sort newer_first |}.

(** ** The OAuth flow of the web server

    [GenerateState], [ValidateState], [HandleLogin], [HandleCallback] and
    [ExchangeCodeForToken].  The server of these handlers carries its
    configuration ([clientID], [clientSecret], [redirectURL]), the credentials
    it obtained and the states it handed out; the mutexes are left out, the
    handlers being modelled one call at a time. *)

Module OAuth.

(** [base64.URLEncoding.EncodeToString]: the alphabet of RFC 4648, section 5,
    with padding. *)
Definition encodeURL : string :=
  "ABCDEFGHIJKLMNOPQRSTUVWXYZabcdefghijklmnopqrstuvwxyz0123456789-_".

Definition digit64 (i : Z) : ascii :=
  match String.get (Z.to_nat (i mod 64)) encodeURL with
  | Some c => c
  | None => "="%char
  end.

Fixpoint base64_URLEncoding (src : list Z) : string :=
  match src with
  | [] => ""
  | [a] =>
    String (digit64 (a / 4)) (String (digit64 (a mod 4 * 16)) "==")
  | [a; b] =>
    String (digit64 (a / 4)) (String (digit64 (a mod 4 * 16 + b / 16))
      (String (digit64 (b mod 16 * 4)) "="))
  | a :: b :: c :: rest =>
    String (digit64 (a / 4)) (String (digit64 (a mod 4 * 16 + b / 16))
      (String (digit64 (b mod 16 * 4 + c / 64)) (String (digit64 (c mod 64))
        (base64_URLEncoding rest))))
  end%Z.

(** [Credentials]; [ExpiresAt] is a [time.Time]. *)
Record Credentials : Type := {
  AccessToken : string;
  RefreshToken : string;
  ExpiresAt : Z;
  ClientID : string;
  ClientSecret : string
}.

(** [AuthState]. *)
Record AuthState : Type := {
  State : string;
  Created : Z
}.

(** [Server], without its mutexes and the path of the credentials file. *)
Record Server : Type := {
  clientID : string;
  clientSecret : string;
  redirectURL : string;
  credentials : Credentials;
  authStates : gmap string AuthState
}.

Definition set_authStates (s : Server) (states : gmap string AuthState) : Server :=
  {| clientID := clientID s;
     clientSecret := clientSecret s;
     redirectURL := redirectURL s;
     credentials := credentials s;
     authStates := states |}.

Definition set_credentials (s : Server) (c : Credentials) : Server :=
  {| clientID := clientID s;
     clientSecret := clientSecret s;
     redirectURL := redirectURL s;
     credentials := c;
     authStates := authStates s |}.

(** [NewServer]. *)
Definition NewServer (clientID clientSecret redirectURL : string) : Server :=
  {| clientID := clientID;
     clientSecret := clientSecret;
     redirectURL := redirectURL;
     credentials :=
       {| AccessToken := ""; RefreshToken := ""; ExpiresAt := 0;
          ClientID := ""; ClientSecret := "" |};
     authStates := ∅ |}.

(** A state has expired when [time.Since(Created) > 10*time.Minute]. *)
Definition expired (now : Z) (a : AuthState) : bool :=
  (10 * Minute <? time_Sub now (Created a))%Z.

(** What [GenerateState] takes from outside: the 32 bytes [rand.Read] gives
    ([None] when it fails), the clock at which the state is created, and the
    clock at which the cleaning loop looks at the entry of a key. *)
Record StateEnv : Type := {
  rand_Read : option string;
  clock_created : Z;
  clock_cleaning : string -> Z
}.

(** [GenerateState]: the server after the call and the pair [(state, err)],
    [None] standing for the error of [rand.Read]. *)
Definition GenerateState (env : StateEnv) (s : Server) : Server * option string :=
  match rand_Read env with
  | None => (s, None)
  | Some b =>
    let state := base64_URLEncoding (SHA256.bytes_of b) in
    let states :=
      <[state := {| State := state; Created := clock_created env |}]> (authStates s) in
    let states :=
      filter (fun kv => expired (clock_cleaning env kv.1) kv.2 = false) states in
    (set_authStates s states, Some state)
  end.

(** [ValidateState], with the clock that [time.Since] reads. *)
Definition ValidateState (now : Z) (s : Server) (state : string) : Server * bool :=
  match authStates s !! state with
  | None => (s, false)
  | Some authState =>
    if expired now authState
    then (set_authStates s (delete state (authStates s)), false)
    else (set_authStates s (delete state (authStates s)), true)
  end.

(** What a handler writes to its [http.ResponseWriter]: one of its calls of
    [http.Error], the redirect of [HandleLogin], or the page of
    [HandleCallback]. *)
Inductive Response : Type :=
| FailedToGenerateState                 (* http.Error, 500 *)
| Redirect (url : string)               (* http.Redirect, 307 *)
| MissingCode                           (* http.Error, 400: Missing authorization code *)
| InvalidState                          (* http.Error, 400: Invalid state parameter *)
| FailedToAuthenticate                  (* http.Error, 500 *)
| AuthenticationSuccessful.             (* the HTML page, 200 *)

Definition StatusCode (r : Response) : Z :=
  match r with
  | FailedToGenerateState | FailedToAuthenticate => 500
  | Redirect _ => 307
  | MissingCode | InvalidState => 400
  | AuthenticationSuccessful => 200
  end.

(** [HandleLogin]. *)
Definition HandleLogin (env : StateEnv) (s : Server) : Server * Response :=
  match GenerateState env s with
  | (s, None) => (s, FailedToGenerateState)
  | (s, Some state) =>
    let authURL :=
      "https://joystick.tv/api/oauth/authorize?client_id=" +:+ clientID s
      +:+ "&redirect_uri=" +:+ redirectURL s
      +:+ "&state=" +:+ state +:+ "&response_type=code&scope=bot" in
    (s, Redirect authURL)
  end.

(** The answer of the token endpoint to the request of
    [ExchangeCodeForToken]: no answer, or a response with its status and what
    its body decodes to ([access_token], [refresh_token], [expires_in]; [None]
    when the decoder fails). *)
Inductive TokenReply : Type :=
| TokenNoReply
| TokenResponse (status : Z) (decoded : option (string * string * Z)).

(** What [HandleCallback] takes from outside: the clock read by
    [ValidateState], the answer of the token endpoint, the clock read when the
    token arrives, and whether [SaveCredentials] fails. *)
Record CallbackEnv : Type := {
  clock_validate : Z;
  token_reply : TokenReply;
  clock_token : Z;
  save_fails : bool
}.

(** What the handlers do besides answering: the request to the token
    endpoint (with the code, the redirect URL and the two parts of the basic
    authorization), the credentials written to the credentials file, and the
    goroutine that starts the listener. *)
Inductive Action : Type :=
| PostToken (code redirect_uri client secret : string)
| WriteCredentials (c : Credentials)
| GoConnectToWebSocket.

(** The errors of [ExchangeCodeForToken]. *)
Inductive exchange_error : Type :=
| ErrTokenRequest                     (* failed to request token *)
| ErrTokenStatus (status : Z)         (* token request failed with status *)
| ErrTokenParse.                      (* failed to parse token response *)

(** A [time.Duration] product wraps as a signed 64-bit integer. *)
Definition wrap64 (x : Z) : Z := ((x + 2 ^ 63) mod 2 ^ 64 - 2 ^ 63)%Z.

(** [ExchangeCodeForToken]. *)
Definition ExchangeCodeForToken (env : CallbackEnv) (s : Server) (code : string)
    : Server * list Action * option exchange_error :=
  let request := PostToken code (redirectURL s) (clientID s) (clientSecret s) in
  match token_reply env with
  | TokenNoReply => (s, [request], Some ErrTokenRequest)
  | TokenResponse status decoded =>
    if negb (status =? 200)%Z then (s, [request], Some (ErrTokenStatus status))
    else
      match decoded with
      | None => (s, [request], Some ErrTokenParse)
      | Some (accessToken, refreshToken, expiresIn) =>
        let c := {| AccessToken := accessToken;
                    RefreshToken := refreshToken;
                    ExpiresAt := (clock_token env + wrap64 (expiresIn * Second))%Z;
                    ClientID := clientID s;
                    ClientSecret := clientSecret s |} in
        (set_credentials s c, [request], None)
      end
  end.

(** [HandleCallback], for the values of the query parameters [code] and
    [state] (the empty string when a parameter is missing). *)
Definition HandleCallback (env : CallbackEnv) (s : Server) (code state : string)
    : Server * list Action * Response :=
  if String.eqb code "" then (s, [], MissingCode)
  else if String.eqb state "" then (s, [], InvalidState)
  else
    match ValidateState (clock_validate env) s state with
    | (s, false) => (s, [], InvalidState)
    | (s, true) =>
      match ExchangeCodeForToken env s code with
      | (s, actions, Some _) => (s, actions, FailedToAuthenticate)
      | (s, actions, None) =>
        let saved := if save_fails env then [] else [WriteCredentials (credentials s)] in
        (s, (actions ++ saved ++ [GoConnectToWebSocket])%list, AuthenticationSuccessful)
      end
    end.

End OAuth.

(** The listener that the goroutine of [HandleCallback] runs: it reads the
    credentials of the server. *)
Definition listener_of (s : OAuth.Server) (tc : option ThumbnailCache) : Server :=
  {| clientID := OAuth.ClientID (OAuth.credentials s);
     clientSecret := OAuth.ClientSecret (OAuth.credentials s);
     thumbCache := tc |}.

(** [maskString]. *)
Definition maskString (s : string) : string :=
  if (len s <=? 8)%Z then "****"
  else substring 0 4 s +:+ "****" +:+ substring (String.length s - 4) 4 s.

(** ** The receipt notifications

    [HandleTippedEvent] and [HandleFollowedEvent] print a notification on the
    receipt printer.  [png.Decode] and the bytes of the embedded file
    [joysticktv.png] come from outside the sources; an [image.Image] is a value
    of a type that is not looked into. *)

Class PngLib : Type := {
  image_Image : Type;
  png_Decode : string -> option image_Image;
  joysticktv : string
}.

Module Receipt.

(** The fields of [Server] that the two handlers read. *)
Record Server : Type := {
  printerAddr : string;
  thumbCache : option ThumbnailCache
}.

(** [template.StreamerNotification]; [Image] is [None] for a nil image. *)
Record StreamerNotification `{PngLib} : Type := {
  Header : string;
  Message : string;
  Image : option image_Image;
  Username : string
}.

(** What the handlers take from outside: whether [os.Open] fails on a file
    that is there, and whether [printer.Connect] and [notification.Print]
    fail. *)
Record PrintEnv : Type := {
  open_fails : bool;
  connect_fails : bool;
  print_fails : bool
}.

(** What a handler does that can be seen from outside: its log lines and
    the notification it sends to the printer. *)
Inductive Output `{PngLib} : Type :=
| LogNoPrinter              (* No printer address configured, skipping *)
| LogMetadataFailed         (* Failed to parse tip metadata *)
| LogEmbeddedFailed         (* Failed to decode embedded image *)
| LogConnectFailed          (* Failed to connect to printer *)
| Print (notification : StreamerNotification)
                            (* notification.Print(printer) *)
| LogPrintFailed            (* Failed to print notification *)
| LogPrinted.               (* notification printed *)

(** The name both handlers take from the author: the slug, or else the
    user name, whichever is a string that is not empty. *)
Definition author_name (author : Msg) : string :=
  let usr :=
    match as_string (author !! "username") with
    | Some usr => if nonempty usr then usr else ""
    | None => ""
    end in
  match as_string (author !! "slug") with
  | Some slug => if nonempty slug then slug else usr
  | None => usr
  end.

(** The cached profile thumbnail of [username], decoded, as both handlers
    look it up. *)
Definition cached_thumbnail `{GoLib} `{PngLib} (s : Server) (env : Env)
    (penv : PrintEnv) (w : World) (username : string) : option image_Image :=
  match thumbCache s with
  | Some tc =>
    if nonempty username then
      match GetThumbnailInfo env w username with
      | Ok (Some thumbInfo) =>
        if nonempty (FileExtension thumbInfo) then
          let thumbPath := GetFilePath tc username (FileExtension thumbInfo) in
          if open_fails penv then None
          else
            match files w !! thumbPath with
            | Some bytes => png_Decode bytes
            | None => None
            end
        else None
      | _ => None
      end
    else None
  | None => None
  end.

(** The end of both handlers: the embedded image when there is no thumbnail,
    the connection to the printer and the notification. *)
Definition print_notification `{PngLib} (penv : PrintEnv) (img : option image_Image)
    (header message username : string) : list Output :=
  let username := if String.eqb username "" then "Anonymous" else username in
  let '(img, logged) :=
    match img with
    | Some _ => (img, [])
    | None =>
      match png_Decode joysticktv with
      | Some decodedImg => (Some decodedImg, [])
      | None => (None, [LogEmbeddedFailed])
      end
    end in
  if connect_fails penv then (logged ++ [LogConnectFailed])%list
  else
    let notification :=
      {| Header := header; Message := message; Image := img; Username := username |} in
    (logged ++ [Print notification;
                if print_fails penv then LogPrintFailed else LogPrinted])%list.

(** [HandleFollowedEvent]. *)
Definition HandleFollowedEvent `{GoLib} `{PngLib} (s : Server) (env : Env)
    (penv : PrintEnv) (w : World) (msg : Msg) : list Output :=
  if String.eqb (printerAddr s) "" then [LogNoPrinter]
  else
    match as_object (msg !! "message") with
    | None => []
    | Some message =>
      let '(username, img) :=
        match as_object (message !! "author") with
        | Some author =>
          let username := author_name author in
          (username, cached_thumbnail s env penv w username)
        | None => ("", None)
        end in
      let username :=
        if String.eqb username "" then
          match as_string (message !! "metadata") with
          | Some metadataStr =>
            if nonempty metadataStr then
              match json_Unmarshal metadataStr with
              | Some metadata =>
                match as_string (metadata !! "who") with
                | Some who => if nonempty who then who else username
                | None => username
                end
              | None => username
              end
            else username
          | None => username
          end
        else username in
      print_notification penv img "New Follower" "Welcome!" username
    end.

(** [HandleTippedEvent]. *)
Definition HandleTippedEvent `{GoLib} `{PngLib} (s : Server) (env : Env)
    (penv : PrintEnv) (w : World) (msg : Msg) : list Output :=
  if String.eqb (printerAddr s) "" then [LogNoPrinter]
  else
    match as_object (msg !! "message") with
    | None => []
    | Some message =>
      match as_string (message !! "metadata") with
      | None => []
      | Some metadataStr =>
        if String.eqb metadataStr "" then []
        else
          match json_Unmarshal metadataStr with
          | None => [LogMetadataFailed]
          | Some metadata =>
            match as_string (metadata !! "tip_menu_item") with
            | None => []
            | Some tipMenuItem =>
              if String.eqb tipMenuItem "" then []
              else
                let messageText :=
                  match as_string (message !! "text") with
                  | Some messageText =>
                    if String.eqb messageText "" then tipMenuItem else messageText
                  | None => tipMenuItem
                  end in
                let '(username, img) :=
                  match as_object (message !! "author") with
                  | Some author =>
                    let username := author_name author in
                    (username, cached_thumbnail s env penv w username)
                  | None => ("", None)
                  end in
                let username :=
                  if String.eqb username "" then
                    match as_string (metadata !! "who") with
                    | Some who => who
                    | None => ""
                    end
                  else username in
                print_notification penv img "New Tip" messageText username
            end
          end
      end
    end.

End Receipt.

(** The notifications among the outputs of a handler. *)
Definition printed `{PngLib} (out : list Receipt.Output)
    : list Receipt.StreamerNotification :=
  omap (fun o => match o with Receipt.Print n => Some n | _ => None end) out.



(** ** Further example inputs *)

(** Three stored events: a follow of alice, a tip without a user, and a
    later follow of bob. *)
Definition sample_rows : list StreamEvent :=
  [ {| ID := 1; ReceivedTimestamp := 1700000000; EventType := "Followed";
       UserWhoPerformedAction := Some "alice"; RawJSON := "{}" |};
    {| ID := 2; ReceivedTimestamp := 1700000020; EventType := "Tipped";
       UserWhoPerformedAction := None; RawJSON := "{}" |};
    {| ID := 3; ReceivedTimestamp := 1700000010; EventType := "Followed";
       UserWhoPerformedAction := Some "bob"; RawJSON := "{}" |} ].

(** A store that accepts the insert, a hundred seconds after the first of
    these events, and the row it appends to them for the follow of tyrm. *)
Definition later_store : StoreEnv :=
  {| store_now := 1700000100; store_exec_fails := false |}.

Definition followed_row : StreamEvent :=
  {| ID := 4;
     ReceivedTimestamp := 1700000100;
     EventType := "Followed";
     UserWhoPerformedAction := Some "tyrm";
     RawJSON := default "" (@json_Marshal sampleLib followed_frame) |}.

(** A stand-in for [image/png]: a file decodes when it starts with the
    bytes [PNG], and the picture is the file. *)
Definition samplePng : PngLib :=
  {| image_Image := string;
     png_Decode := fun bytes => if String.prefix "PNG" bytes then Some bytes else None;
     joysticktv := "PNG joysticktv" |}.

(** The metadata string [{"tip_menu_item":"Spin","who":"carol"}] of a tip. *)
Definition tip_metadata : string :=
  "{" +:+ dquote +:+ "tip_menu_item" +:+ dquote +:+ ":" +:+ dquote +:+ "Spin" +:+ dquote
  +:+ "," +:+ dquote +:+ "who" +:+ dquote +:+ ":" +:+ dquote +:+ "carol" +:+ dquote +:+ "}".

(** The library of the examples, with a decoder that knows the metadata of
    the tip as well. *)
Definition tipLib : GoLib :=
  {| json_Unmarshal := fun s =>
       if String.eqb s tip_metadata
       then Some {[ "tip_menu_item" := JString "Spin"; "who" := JString "carol" ]}
       else sample_Unmarshal s;
     json_Marshal := fun msg => sample_encode false 0 (JObject msg);
     json_MarshalIndent := fun msg => sample_encode true 0 (JObject msg);
     url_Parse := sample_url_Parse;
     lower_table := fun r => r;
     lower_table_high := fun r H => H |}.

(** A tip without author and text:
    [{"message":{"event":"StreamEvent","type":"Tipped","metadata":"..."}}]. *)
Definition tipped_frame : Msg :=
  {[ "message" :=
       JObject {[ "event" := JString "StreamEvent";
                  "type" := JString "Tipped";
                  "metadata" := JString tip_metadata ]} ]}.

(** The same tip with the text [Great stream]. *)
Definition tipped_text_frame : Msg :=
  {[ "message" :=
       JObject {[ "event" := JString "StreamEvent";
                  "type" := JString "Tipped";
                  "text" := JString "Great stream";
                  "metadata" := JString tip_metadata ]} ]}.

Definition receipt_server : Receipt.Server :=
  {| Receipt.printerAddr := "192.168.1.50:9100";
     Receipt.thumbCache := Some sample_cache |}.

Definition ready_printer : Receipt.PrintEnv :=
  {| Receipt.open_fails := false;
     Receipt.connect_fails := false;
     Receipt.print_fails := false |}.

(** A server that handed out the state [s1] at second 100. *)
Definition oauth_server : OAuth.Server :=
  {| OAuth.clientID := "id";
     OAuth.clientSecret := "secret";
     OAuth.redirectURL := "http://localhost:8080/callback";
     OAuth.credentials :=
       {| OAuth.AccessToken := ""; OAuth.RefreshToken := ""; OAuth.ExpiresAt := 0;
          OAuth.ClientID := ""; OAuth.ClientSecret := "" |};
     OAuth.authStates :=
       {[ "s1" := {| OAuth.State := "s1"; OAuth.Created := (100 * Second)%Z |} ]} |}.

(** The token endpoint grants a token for an hour, a minute after the state
    was handed out. *)
Definition granting : OAuth.CallbackEnv :=
  {| OAuth.clock_validate := (160 * Second)%Z;
     OAuth.token_reply := OAuth.TokenResponse 200 (Some ("access", "refresh", 3600%Z));
     OAuth.clock_token := (161 * Second)%Z;
     OAuth.save_fails := false |}.

(** The same answer for a callback at second 260. *)
Definition granting_later : OAuth.CallbackEnv :=
  {| OAuth.clock_validate := (260 * Second)%Z;
     OAuth.token_reply := OAuth.TokenResponse 200 (Some ("access", "refresh", 3600%Z));
     OAuth.clock_token := (261 * Second)%Z;
     OAuth.save_fails := false |}.

(** [rand.Read] gives 32 bytes at second 200; the cleaning loop runs in the
    same second. *)
Definition state_env : OAuth.StateEnv :=
  {| OAuth.rand_Read := Some "0123456789abcdef0123456789abcdef";
     OAuth.clock_created := (200 * Second)%Z;
     OAuth.clock_cleaning := fun _ => (200 * Second)%Z |}.

(** A connection on which a chat message is read, then the read fails. *)
Definition failing_link : Link :=
  {| dial_fails := false;
     write_fails := false;
     frames := [Received chat_frame; ReadFailed; Received chat_frame] |}.

(** * Properties *)

(** ** Event classification *)

Section Classifier.
Context `{GoLib}.

(** [ExtractEventInfo] is the four-step procedure of the specification:
    nested type first, then the top-level [type] without an actor, then the
    top-level [event], else failure. *)
Lemma ExtractEventInfo_steps (msg : Msg) :
  ExtractEventInfo msg =
  match present (nested_type msg) with
  | Some t => (t, actor_by_priority msg, true)
  | None =>
    match as_string (msg !! "type") with
    | Some t => (t, None, true)
    | None =>
      match as_string (msg !! "event") with
      | Some e => (e, actor_by_priority msg, true)
      | None => ("", None, false)
      end
    end
  end.
Proof.
  unfold ExtractEventInfo, actor_by_priority, nested_type, author_slug,
    author_username, metadata_who, first_present, present.
  destruct (as_object (msg !! "message")) as [message|]; simpl.
  2: { destruct (as_string (msg !! "type")); [done|].
       destruct (as_string (msg !! "event")); done. }
  assert (Hty : forall (u : option string),
    (if nonempty
          match as_string (message !! "type") with
          | Some typeField => if nonempty typeField then typeField else ""
          | None => ""
          end
     then (match as_string (message !! "type") with
           | Some typeField => if nonempty typeField then typeField else ""
           | None => ""
           end, u, true)
     else match as_string (msg !! "type") with
          | Some typeField => (typeField, None, true)
          | None => match as_string (msg !! "event") with
                    | Some event => (event, u, true)
                    | None => ("", None, false)
                    end
          end) =
    match match as_string (message !! "type") with
          | Some s => if nonempty s then Some s else None
          | None => None
          end with
    | Some t => (t, u, true)
    | None => match as_string (msg !! "type") with
              | Some t => (t, None, true)
              | None => match as_string (msg !! "event") with
                        | Some e => (e, u, true)
                        | None => ("", None, false)
                        end
              end
    end).
  { intros u. destruct (as_string (message !! "type")) as [t|]; simpl; [|done].
    destruct (nonempty t) eqn:Ht; simpl; [by rewrite Ht|done]. }
  assert (Hwho :
    match as_string (message !! "metadata") with
    | Some metadata =>
      if nonempty metadata then
        match json_Unmarshal metadata with
        | Some metadataObj =>
          match as_string (metadataObj !! "who") with
          | Some who => if nonempty who then Some who else None
          | None => None
          end
        | None => None
        end
      else None
    | None => None
    end =
    match
      match
        match as_string (message !! "metadata") with
        | Some s => if nonempty s then Some s else None
        | None => None
        end ≫= (fun metadata =>
                  json_Unmarshal metadata ≫=
                  fun metadataObj => as_string (metadataObj !! "who"))
      with
      | Some s => if nonempty s then Some s else None
      | None => None
      end
    with
    | Some s => Some s
    | None => None
    end).
  { destruct (as_string (message !! "metadata")) as [md|]; simpl; [|done].
    destruct (nonempty md); simpl; [|done].
    destruct (json_Unmarshal md) as [o|]; simpl; [|done].
    destruct (as_string (o !! "who")) as [who|]; simpl; [|done].
    by destruct (nonempty who). }
  destruct (as_object (message !! "author")) as [author|]; simpl.
  - destruct (as_string (author !! "slug")) as [slug|]; simpl.
    + destruct (nonempty slug); simpl; [apply Hty|].
      destruct (as_string (author !! "username")) as [u|]; simpl.
      * destruct (nonempty u); simpl; [apply Hty|].
        rewrite Hty, Hwho. reflexivity.
      * rewrite Hty, Hwho. reflexivity.
    + destruct (as_string (author !! "username")) as [u|]; simpl.
      * destruct (nonempty u); simpl; [apply Hty|]. rewrite Hty, Hwho. reflexivity.
      * rewrite Hty, Hwho. reflexivity.
  - rewrite Hty, Hwho. reflexivity.
Qed.

(** C5. Actor resolution in [ExtractEventInfo] follows the fixed priority
    author.slug, then author.username, then the [who] field of the JSON-parsed
    message.metadata string, and the first match wins; at every level a field
    that is present but the empty string (or not a string) is treated as absent
    and resolution falls through to the next level.  The actor returned is the
    one resolved this way whenever the classification hands an actor on (type
    from the nested message or from the top-level [event] field). *)
Theorem ExtractEventInfo_actor_priority (msg : Msg) :
  (ExtractEventInfo msg).1.2 =
  if keeps_actor msg then actor_by_priority msg else None.
Proof.
  rewrite ExtractEventInfo_steps. unfold keeps_actor.
  destruct (present (nested_type msg)); [done|].
  destruct (as_string (msg !! "type")); [done|].
  destruct (as_string (msg !! "event")); done.
Qed.

(** The three levels of the priority order, one by one. *)
Lemma actor_by_priority_slug (msg : Msg) (slug : string) :
  author_slug msg = Some slug -> slug <> "" ->
  actor_by_priority msg = Some slug.
Proof.
  intros Hs Hne. unfold actor_by_priority, first_present, present, nonempty.
  rewrite Hs. by apply String.eqb_neq in Hne as ->.
Qed.

Lemma actor_by_priority_username (msg : Msg) (username : string) :
  present (author_slug msg) = None ->
  author_username msg = Some username -> username <> "" ->
  actor_by_priority msg = Some username.
Proof.
  intros Hs Hu Hne. unfold actor_by_priority, first_present.
  rewrite Hs, Hu. unfold present, nonempty.
  by apply String.eqb_neq in Hne as ->.
Qed.

Lemma actor_by_priority_who (msg : Msg) :
  present (author_slug msg) = None ->
  present (author_username msg) = None ->
  actor_by_priority msg = present (metadata_who msg).
Proof.
  intros Hs Hu. unfold actor_by_priority, first_present.
  rewrite Hs, Hu. by destruct (present (metadata_who msg)).
Qed.

(** A nested type that counts is returned as it is, and is not empty. *)
Lemma ExtractEventInfo_nested_type (msg : Msg) (t : string) :
  nested_type msg = Some t -> t <> "" ->
  ExtractEventInfo msg = (t, actor_by_priority msg, true).
Proof.
  intros Ht Hne. rewrite ExtractEventInfo_steps, Ht. unfold present, nonempty.
  by apply String.eqb_neq in Hne as ->.
Qed.

(** Classification fails exactly when no field gives a type at all. *)
Lemma ExtractEventInfo_fails_iff (msg : Msg) :
  (ExtractEventInfo msg).2 = false <->
  present (nested_type msg) = None /\
  as_string (msg !! "type") = None /\
  as_string (msg !! "event") = None.
Proof.
  rewrite ExtractEventInfo_steps.
  destruct (present (nested_type msg)); [by split; [|intros (? & _)]|].
  destruct (as_string (msg !! "type")); [by split; [|intros (_ & ? & _)]|].
  destruct (as_string (msg !! "event")); [by split; [|intros (_ & _ & ?)]|].
  done.
Qed.

(** It succeeds with an empty type exactly when the nested type does not
    count and the top-level field that is consulted holds the empty string. *)
Lemma ExtractEventInfo_empty_type_iff (msg : Msg) :
  ((ExtractEventInfo msg).2 = true /\ (ExtractEventInfo msg).1.1 = "") <->
  present (nested_type msg) = None /\
  (as_string (msg !! "type") = Some "" \/
   (as_string (msg !! "type") = None /\ as_string (msg !! "event") = Some "")).
Proof.
  rewrite ExtractEventInfo_steps.
  destruct (present (nested_type msg)) as [t|] eqn:Hn.
  { cbn [fst snd]. split.
    - intros [_ ->]. unfold present in Hn.
      destruct (nested_type msg) as [t'|]; [|done].
      destruct (nonempty t') eqn:Hne; [|done]. by simplify_eq.
    - by intros [? _]. }
  destruct (as_string (msg !! "type")) as [t|].
  { cbn [fst snd]. split.
    - intros [_ ->]. split; [done|by left].
    - intros [_ [[= ->]|[? _]]]; done. }
  destruct (as_string (msg !! "event")) as [e|]; cbn [fst snd].
  - split.
    + intros [_ ->]. split; [done|by right].
    + intros [_ [?|[_ [= ->]]]]; done.
  - split; [by intros [? _]|]. intros [_ [?|[_ ?]]]; done.
Qed.

(** C6. [ExtractEventInfo] on the frame [{"type":""}]: the top-level [type]
    field is returned without the test for the empty string that the nested
    type gets, so the classification succeeds with an empty event type. *)
Theorem ExtractEventInfo_empty_top_level_type :
  ExtractEventInfo {[ "type" := JString "" ]} = ("", None, true).
Proof. vm_compute. reflexivity. Qed.

(** The same happens through the top-level [event] field. *)
Lemma ExtractEventInfo_empty_top_level_event :
  ExtractEventInfo {[ "event" := JString "" ]} = ("", None, true).
Proof. vm_compute. reflexivity. Qed.

(** ** The stream event store *)

Lemma IsStreamEvent_nested_event (msg : Msg) :
  IsStreamEvent msg = true <-> nested_event msg = Some "StreamEvent".
Proof.
  unfold IsStreamEvent, nested_event.
  destruct (as_object (msg !! "message")) as [message|]; simpl; [|done].
  destruct (as_string (message !! "event")) as [event|]; simpl; [|done].
  rewrite String.eqb_eq. split; congruence.
Qed.

Lemma app_one_neq {A : Type} (l : list A) (x : A) : (l ++ [x])%list <> l.
Proof.
  intros Heq. apply (f_equal (@length A)) in Heq.
  rewrite length_app in Heq. simpl in Heq. lia.
Qed.

(** C1 (amended). [StoreEvent] appends exactly one row, carrying the extracted
    event type, the actor and the message re-serialized as JSON, if and only if
    the nested message.event field equals ["StreamEvent"], the classification
    of the message succeeds, the message serializes and the database carries
    out the insert; for every message whose nested message.event is absent or
    different it writes nothing and returns success; a message with the
    discriminator on which the classification fails is not stored and
    [StoreEvent] returns the extraction error, and a message with the
    discriminator is answered by success exactly when its row was appended; it
    never writes more than one row.  The frame
    [{"message":{"event":"StreamEvent","type":"Followed","author":{"slug":"tyrm"}}}]
    is durable and classifies as event type "Followed" with actor "tyrm". *)
Theorem StoreEvent_appends_iff (env : StoreEnv) (rows : list StreamEvent) (msg : Msg) :
  (IsStreamEvent msg = true <-> nested_event msg = Some "StreamEvent") /\
  (IsStreamEvent msg = false -> StoreEvent env rows msg = (rows, None)) /\
  ((exists row, (StoreEvent env rows msg).1 = (rows ++ [row])%list) <->
   IsStreamEvent msg = true /\ (ExtractEventInfo msg).2 = true /\
   is_Some (json_Marshal msg) /\ store_exec_fails env = false) /\
  (forall eventType user rawJSON,
     IsStreamEvent msg = true ->
     ExtractEventInfo msg = (eventType, user, true) ->
     json_Marshal msg = Some rawJSON ->
     store_exec_fails env = false ->
     StoreEvent env rows msg =
     ((rows ++ [ {| ID := Z.of_nat (length rows) + 1;
                    ReceivedTimestamp := store_now env;
                    EventType := eventType;
                    UserWhoPerformedAction := user;
                    RawJSON := rawJSON |} ])%list, None)) /\
  (IsStreamEvent msg = true -> (ExtractEventInfo msg).2 = false ->
   StoreEvent env rows msg = (rows, Some ErrExtractEvent)) /\
  (IsStreamEvent msg = true ->
   ((StoreEvent env rows msg).2 = None <->
    exists row, (StoreEvent env rows msg).1 = (rows ++ [row])%list)) /\
  ((StoreEvent env rows msg).1 = rows \/
   exists row, (StoreEvent env rows msg).1 = (rows ++ [row])%list) /\
  (IsStreamEvent followed_frame = true /\
   ExtractEventInfo followed_frame = ("Followed", Some "tyrm", true)).
Proof.
  split; [apply IsStreamEvent_nested_event|].
  split; [intros Hs; unfold StoreEvent; by rewrite Hs|].
  split; [|split; [|split; [|split; [|split]]]].
  3: { intros Hs He. unfold StoreEvent. rewrite Hs. cbn [negb].
       destruct (ExtractEventInfo msg) as [[eventType user] ok].
       cbn [snd] in He. by subst ok. }
  3: { intros Hs. unfold StoreEvent, insert_stream_event. rewrite Hs. cbn [negb].
       destruct (ExtractEventInfo msg) as [[eventType user] [|]]; cbn [fst snd].
       2: { split; [done|]. intros [row Hrow]. by apply eq_sym, app_one_neq in Hrow. }
       destruct (json_Marshal msg) as [rawJSON|]; cbn [fst snd].
       2: { split; [done|]. intros [row Hrow]. by apply eq_sym, app_one_neq in Hrow. }
       cbv zeta. destruct (store_exec_fails env); cbn [fst snd].
       - split; [done|]. intros [row Hrow]. by apply eq_sym, app_one_neq in Hrow.
       - split; [intros _; eauto|done]. }
  - unfold StoreEvent, insert_stream_event.
    destruct (IsStreamEvent msg) eqn:Hs; simpl.
    2: { split; [intros [row Hrow]; by apply eq_sym, app_one_neq in Hrow|].
         by intros (? & _). }
    destruct (ExtractEventInfo msg) as [[eventType user] ok] eqn:He.
    destruct ok; simpl.
    2: { split; [intros [row Hrow]; by apply eq_sym, app_one_neq in Hrow|].
         by intros (_ & ? & _). }
    destruct (json_Marshal msg) as [rawJSON|] eqn:Hm; simpl.
    2: { split; [intros [row Hrow]; by apply eq_sym, app_one_neq in Hrow|].
         intros (_ & _ & [? ?] & _). done. }
    destruct (store_exec_fails env) eqn:Hx; simpl.
    + split; [intros [row Hrow]; by apply eq_sym, app_one_neq in Hrow|].
      by intros (_ & _ & _ & ?).
    + split; [intros _; eauto|]. intros _. eauto.
  - intros eventType user rawJSON Hs He Hm Hx.
    unfold StoreEvent, insert_stream_event. by rewrite Hs, He, Hm, Hx.
  - unfold StoreEvent, insert_stream_event.
    destruct (IsStreamEvent msg); simpl; [|by left].
    destruct (ExtractEventInfo msg) as [[eventType user] ok].
    destruct ok; simpl; [|by left].
    destruct (json_Marshal msg); simpl; [|by left].
    destruct (store_exec_fails env); simpl; [by left|right; eauto].
  - split; vm_compute; reflexivity.
Qed.

End Classifier.

(** Witness for C1 as amended: the frame of the specification is stored, by
    a healthy store, as one row with event type "Followed" and actor "tyrm". *)
Lemma StoreEvent_followed_frame_stored :
  @StoreEvent sampleLib healthy_store [] followed_frame =
  ([ {| ID := 1;
        ReceivedTimestamp := 1700000000;
        EventType := "Followed";
        UserWhoPerformedAction := Some "tyrm";
        RawJSON := "{" +:+ dquote +:+ "message" +:+ dquote +:+ ":{" +:+ dquote +:+ "author" +:+ dquote +:+ ":{"
                   +:+ dquote +:+ "slug" +:+ dquote +:+ ":" +:+ dquote +:+ "tyrm" +:+ dquote +:+ "},"
                   +:+ dquote +:+ "event" +:+ dquote +:+ ":" +:+ dquote +:+ "StreamEvent" +:+ dquote +:+ ","
                   +:+ dquote +:+ "type" +:+ dquote +:+ ":" +:+ dquote +:+ "Followed" +:+ dquote +:+ "}}" |} ],
   None).
Proof.
  apply (proj1 (proj2 (proj2 (proj2
           (@StoreEvent_appends_iff sampleLib healthy_store [] followed_frame)))));
    vm_compute; reflexivity.
Defined.

(** Counterexample to C1 as stated: [{"message":{"event":"StreamEvent"}}]
    has the discriminator, yet a healthy store gets no row, because the frame
    carries no type and [StoreEvent] returns the extraction error. *)
Lemma StoreEvent_untyped_stream_event_not_stored :
  ~ ((exists row,
        (@StoreEvent sampleLib healthy_store [] untyped_stream_frame).1 = ([] ++ [row])%list)
     <-> nested_event untyped_stream_frame = Some "StreamEvent").
Proof.
  intros [_ Hback]. destruct Hback as [row Hrow].
  - vm_compute. reflexivity.
  - vm_compute in Hrow. discriminate Hrow.
Qed.

Lemma StoreEvent_untyped_stream_event_error :
  @StoreEvent sampleLib healthy_store [] untyped_stream_frame = ([], Some ErrExtractEvent).
Proof. vm_compute. reflexivity. Qed.

(** The empty event type reaches the store: a stream event whose only type
    is the empty top-level [type] field is stored under it. *)
Example StoreEvent_empty_type_stored :
  map EventType
    (@StoreEvent sampleLib healthy_store []
       {[ "type" := JString "";
          "message" := JObject {[ "event" := JString "StreamEvent" ]} ]}).1
  = [""] /\
  (@StoreEvent sampleLib healthy_store []
     {[ "type" := JString "";
        "message" := JObject {[ "event" := JString "StreamEvent" ]} ]}).2
  = None.
Proof. split; vm_compute; reflexivity. Qed.

(** ** UTF-8: decoding what was encoded *)

(** Turning boolean tests on integers into propositions, and deciding the
    tests that the context settles. *)
Ltac bool_to_Z :=
  unfold accept3, accept4 in *; unfold between in *;
  repeat match goal with
  | H : (_ && _)%bool = true |- _ => apply andb_prop in H as [? ?]
  | H : (if ?b then _ else _) = true |- _ => destruct b eqn:?
  | H : (_ <=? _)%Z = true |- _ => apply Z.leb_le in H
  | H : (_ <=? _)%Z = false |- _ => apply Z.leb_gt in H
  | H : (_ <? _)%Z = true |- _ => apply Z.ltb_lt in H
  | H : (_ <? _)%Z = false |- _ => apply Z.ltb_ge in H
  | H : (_ =? _)%Z = true |- _ => apply Z.eqb_eq in H
  | H : (_ =? _)%Z = false |- _ => apply Z.eqb_neq in H
  end.

Ltac decide_tests :=
  repeat match goal with
  | |- context [(?a <? ?b)%Z] =>
    first [ rewrite (proj2 (Z.ltb_lt a b)) by lia
          | rewrite (proj2 (Z.ltb_ge a b)) by lia ]
  | |- context [(?a <=? ?b)%Z] =>
    first [ rewrite (proj2 (Z.leb_le a b)) by lia
          | rewrite (proj2 (Z.leb_gt a b)) by lia ]
  | |- context [(?a =? ?b)%Z] =>
    first [ rewrite (proj2 (Z.eqb_eq a b)) by lia
          | rewrite (proj2 (Z.eqb_neq a b)) by lia ]
  end.

Section UTF8.
#[local] Open Scope Z_scope.

Lemma byte_val_range (c : ascii) : 0 <= byte_val c < 256.
Proof.
  unfold byte_val. pose proof (N_ascii_bounded c). lia.
Qed.

Lemma byte_val_of (z : Z) : 0 <= z < 256 -> byte_val (byte_of z) = z.
Proof.
  intros Hz. unfold byte_val, byte_of.
  rewrite N_ascii_embedding by lia. lia.
Qed.

Lemma runes_head_valid (s : string) (r : Z) (rest : list Z) :
  runes s = r :: rest -> valid_rune r.
Proof.
  assert (Herr : valid_rune RuneError) by (unfold valid_rune, RuneError; lia).
  destruct s as [|c0 t0]; [done|]. cbn [runes].
  pose proof (byte_val_range c0) as Hc0.
  destruct (byte_val c0 <? 128) eqn:EH0.
  { intros [= <- _]. unfold valid_rune. lia. }
  destruct t0 as [|c1 t1]; [by intros [= <- _]|].
  pose proof (byte_val_range c1) as Hc1.
  destruct (between 194 223 (byte_val c0)) eqn:EH2.
  { destruct (between 128 191 (byte_val c1)) eqn:EH21; intros [= <- _]; [|done].
    unfold valid_rune, rune2. bool_to_Z. Z.div_mod_to_equations. lia. }
  destruct t1 as [|c2 t2]; [by intros [= <- _]|].
  pose proof (byte_val_range c2) as Hc2.
  destruct (between 224 239 (byte_val c0)) eqn:EH3.
  { destruct (accept3 (byte_val c0) (byte_val c1) && between 128 191 (byte_val c2))%bool eqn:EH31;
      intros [= <- _]; [|done].
    unfold valid_rune, rune3. bool_to_Z; try discriminate; Z.div_mod_to_equations; lia. }
  destruct t2 as [|c3 t3]; [by intros [= <- _]|].
  pose proof (byte_val_range c3) as Hc3.
  match goal with |- context [if ?b then _ else _] => destruct b eqn:EH4 end;
    intros [= <- _]; [|done].
  unfold valid_rune, rune4. bool_to_Z; try discriminate; Z.div_mod_to_equations; lia.
Qed.


Lemma append_empty (s : string) : s +:+ "" = s.
Proof.
  induction s as [|c s IH]; [done|].
  change (String c (s +:+ "") = String c s). by rewrite IH.
Qed.

Lemma runes_encode (r : Z) : valid_rune r -> runes (utf8_encode r) = [r].
Proof.
  unfold valid_rune, utf8_encode, between, tail6. intros Hr.
  destruct (r <? 0) eqn:E0; [lia|].
  destruct (r <? 128) eqn:E1.
  { unfold str1. cbn [runes]. rewrite byte_val_of by lia. by rewrite E1. }
  destruct (r <? 2048) eqn:E2.
  { unfold str2, str1. cbn [runes].
    apply Z.ltb_ge in E1. apply Z.ltb_lt in E2.
    rewrite !byte_val_of by (Z.div_mod_to_equations; lia).
    unfold between, rune2.
    assert (194 <= 192 + r / 64 <= 223) by (Z.div_mod_to_equations; lia).
    assert (128 <= 128 + r mod 64 <= 191) by (Z.div_mod_to_equations; lia).
    decide_tests. cbn [andb]. f_equal. Z.div_mod_to_equations; lia. }
  destruct ((55296 <=? r) && (r <=? 57343))%bool eqn:E3.
  { bool_to_Z. lia. }
  destruct (r <? 65536) eqn:E4.
  { unfold str3, str2, str1. cbn [runes].
    apply Z.ltb_ge in E1, E2. apply Z.ltb_lt in E4.
    rewrite !byte_val_of by (Z.div_mod_to_equations; lia).
    unfold between, accept3, rune3. unfold between.
    assert (224 <= 224 + r / 4096 <= 239) by (Z.div_mod_to_equations; lia).
    assert (128 <= 128 + (r / 64) mod 64 <= 191) by (Z.div_mod_to_equations; lia).
    assert (128 <= 128 + r mod 64 <= 191) by (Z.div_mod_to_equations; lia).
    bool_to_Z.
    assert (Ha : (if 224 + r / 4096 =? 224
                  then (160 <=? 128 + (r / 64) mod 64) && (128 + (r / 64) mod 64 <=? 191)
                  else if 224 + r / 4096 =? 237
                       then (128 <=? 128 + (r / 64) mod 64) && (128 + (r / 64) mod 64 <=? 159)
                       else (225 <=? 224 + r / 4096) && (224 + r / 4096 <=? 239) &&
                            ((128 <=? 128 + (r / 64) mod 64) && (128 + (r / 64) mod 64 <=? 191)))%bool = true).
    { destruct (224 + r / 4096 =? 224) eqn:Ea; bool_to_Z.
      - apply andb_true_intro; split; [apply Z.leb_le|apply Z.leb_le];
          Z.div_mod_to_equations; lia.
      - destruct (224 + r / 4096 =? 237) eqn:Eb; bool_to_Z.
        + apply andb_true_intro; split; [apply Z.leb_le|apply Z.leb_le];
            Z.div_mod_to_equations; lia.
        + repeat (apply andb_true_intro; split); apply Z.leb_le;
            Z.div_mod_to_equations; lia. }
    rewrite Ha. decide_tests. cbn [andb]. f_equal. Z.div_mod_to_equations; lia. }
  destruct (r <=? 1114111) eqn:E5; [|bool_to_Z; lia].
  unfold str4, str3, str2, str1. cbn [runes].
  apply Z.ltb_ge in E1, E2, E4. apply Z.leb_le in E5.
  rewrite !byte_val_of by (Z.div_mod_to_equations; lia).
  unfold between, accept4, rune4. unfold between.
  assert (240 <= 240 + r / 262144 <= 244) by (Z.div_mod_to_equations; lia).
  assert (128 <= 128 + (r / 4096) mod 64 <= 191) by (Z.div_mod_to_equations; lia).
  assert (128 <= 128 + (r / 64) mod 64 <= 191) by (Z.div_mod_to_equations; lia).
  assert (128 <= 128 + r mod 64 <= 191) by (Z.div_mod_to_equations; lia).
  assert (Ha : (if 240 + r / 262144 =? 240
                then (144 <=? 128 + (r / 4096) mod 64) && (128 + (r / 4096) mod 64 <=? 191)
                else if 240 + r / 262144 =? 244
                     then (128 <=? 128 + (r / 4096) mod 64) && (128 + (r / 4096) mod 64 <=? 143)
                     else (241 <=? 240 + r / 262144) && (240 + r / 262144 <=? 243) &&
                          ((128 <=? 128 + (r / 4096) mod 64) && (128 + (r / 4096) mod 64 <=? 191)))%bool = true).
  { destruct (240 + r / 262144 =? 240) eqn:Ea; bool_to_Z.
    - apply andb_true_intro; split; [apply Z.leb_le|apply Z.leb_le];
        Z.div_mod_to_equations; lia.
    - destruct (240 + r / 262144 =? 244) eqn:Eb; bool_to_Z.
      + apply andb_true_intro; split; [apply Z.leb_le|apply Z.leb_le];
          Z.div_mod_to_equations; lia.
      + repeat (apply andb_true_intro; split); apply Z.leb_le;
          Z.div_mod_to_equations; lia. }
  rewrite Ha. decide_tests. cbn [andb]. f_equal. Z.div_mod_to_equations; lia.
Qed.

End UTF8.

(** ** The cache path: shard and extension *)

Section CachePath.
Context `{GoLib}.
#[local] Open Scope Z_scope.

Lemma unicode_ToLower_ascii (r : Z) :
  0 <= r < 0x80 -> 0 <= unicode_ToLower r < 0x80.
Proof.
  intros Hr. unfold unicode_ToLower, between.
  rewrite (proj2 (Z.ltb_lt r 0x80)) by lia.
  destruct ((0x41 <=? r) && (r <=? 0x5A))%bool eqn:E; bool_to_Z; lia.
Qed.

Lemma unicode_ToLower_high (r : Z) :
  0x80 <= r ->
  (r = 0x130 /\ unicode_ToLower r = 0x69) \/
  (r = 0x212A /\ unicode_ToLower r = 0x6B) \/
  (r <> 0x130 /\ r <> 0x212A /\ 0x80 <= unicode_ToLower r).
Proof.
  intros Hr. unfold unicode_ToLower.
  rewrite (proj2 (Z.ltb_ge r 0x80)) by lia.
  destruct (r =? 0x130) eqn:E1; bool_to_Z; [by left|].
  destruct (r =? 0x212A) eqn:E2; bool_to_Z; [right; by left|].
  right; right. repeat split; try done. by apply lower_table_high.
Qed.

(** The first byte of the encoding of a rune above U+007F is not an ASCII
    character. *)
Lemma utf8_encode_high (r : Z) :
  0x80 <= r -> exists c t, utf8_encode r = String c t /\ 0xC0 <= byte_val c.
Proof.
  intros Hr. unfold utf8_encode, str4, str3, str2, str1, between.
  rewrite (proj2 (Z.ltb_ge r 0)), (proj2 (Z.ltb_ge r 0x80)) by lia.
  destruct (r <? 0x800) eqn:E2; bool_to_Z.
  { eexists _, _; split; [done|]. rewrite byte_val_of; Z.div_mod_to_equations; lia. }
  destruct ((0xD800 <=? r) && (r <=? 0xDFFF))%bool eqn:E3.
  { eexists _, _; split; [done|]. by rewrite byte_val_of. }
  destruct (r <? 0x10000) eqn:E4; bool_to_Z.
  { eexists _, _; split; [done|]. rewrite byte_val_of; Z.div_mod_to_equations; lia. }
  destruct (r <=? 0x10FFFF) eqn:E5; bool_to_Z.
  { eexists _, _; split; [done|]. rewrite byte_val_of; Z.div_mod_to_equations; lia. }
  eexists _, _; split; [done|]. by rewrite byte_val_of.
Qed.

Lemma strings_ToLower_rune (r : Z) :
  valid_rune r -> strings_ToLower (utf8_encode r) = utf8_encode (unicode_ToLower r).
Proof.
  intros Hr. unfold strings_ToLower, strings_Map.
  rewrite runes_encode by done. cbn [map concat_strings]. apply append_empty.
Qed.

(** [getSubdirectory] computes the shard of the specification. *)
Lemma getSubdirectory_shard_of (username : string) :
  getSubdirectory username = shard_of username.
Proof.
  unfold getSubdirectory, shard_of, overflow_shard.
  destruct (String.eqb username "") eqn:Hu.
  { apply String.eqb_eq in Hu as ->. done. }
  destruct (runes username) as [|r0 rest] eqn:Hr; [done|].
  pose proof (runes_head_valid _ _ _ Hr) as Hv.
  rewrite strings_ToLower_rune by done. cbv zeta.
  destruct (Z.lt_ge_cases (unicode_ToLower r0) 0x80) as [Hlow|Hhigh].
  - assert (0 <= unicode_ToLower r0) as Hnn.
    { destruct (Z.lt_ge_cases r0 0x80).
      - apply unicode_ToLower_ascii. unfold valid_rune in Hv. lia.
      - destruct (unicode_ToLower_high r0) as [[_ ->]|[[_ ->]|(_ & _ & ?)]]; lia. }
    unfold utf8_encode.
    rewrite (proj2 (Z.ltb_ge _ 0)), (proj2 (Z.ltb_lt _ 0x80)) by lia.
    unfold str1. cbn [str_leb]. rewrite byte_val_of by lia.
    change (byte_val "a") with 0x61. change (byte_val "z") with 0x7A.
    unfold between.
    destruct (0x61 <? unicode_ToLower r0) eqn:E1;
      destruct (0x61 =? unicode_ToLower r0) eqn:E2;
      destruct (unicode_ToLower r0 <? 0x7A) eqn:E3;
      destruct (unicode_ToLower r0 =? 0x7A) eqn:E4;
      destruct (0x61 <=? unicode_ToLower r0) eqn:E5;
      destruct (unicode_ToLower r0 <=? 0x7A) eqn:E6;
      bool_to_Z; try lia; reflexivity.
  - destruct (utf8_encode_high _ Hhigh) as (c & t & -> & Hc).
    unfold between.
    rewrite (proj2 (Z.leb_gt (unicode_ToLower r0) 0x7A)) by lia.
    rewrite andb_false_r.
    replace (str_leb (String c t) "z") with false; [by rewrite andb_false_r|].
    cbn [str_leb]. change (byte_val "z") with 0x7A.
    rewrite (proj2 (Z.ltb_ge (byte_val c) 0x7A)), (proj2 (Z.eqb_neq (byte_val c) 0x7A)) by lia.
    done.
Qed.

(** A name that starts with an ASCII character: letters give their lower
    case form, every other ASCII character the overflow shard. *)
Lemma shard_of_ascii (c : ascii) (t : string) :
  byte_val c < 0x80 ->
  shard_of (String c t) =
  if between 0x41 0x5A (byte_val c) then str1 (byte_val c + 0x20)
  else if between 0x61 0x7A (byte_val c) then str1 (byte_val c)
  else overflow_shard.
Proof.
  intros Hc. pose proof (byte_val_range c) as Hr.
  unfold shard_of. cbn [runes].
  rewrite (proj2 (Z.ltb_lt (byte_val c) 0x80)) by lia. cbv zeta.
  unfold unicode_ToLower.
  rewrite (proj2 (Z.ltb_lt (byte_val c) 0x80)) by lia.
  destruct (between 0x41 0x5A (byte_val c)) eqn:Eu; [|done].
  unfold between in *. bool_to_Z.
  rewrite (proj2 (Z.leb_le 0x61 (byte_val c + 0x20))) by lia.
  by rewrite (proj2 (Z.leb_le (byte_val c + 0x20) 0x7A)) by lia.
Qed.

(** A name whose first rune lies above U+007F and is neither U+0130 nor
    U+212A goes to the overflow shard. *)
Lemma shard_of_high (username : string) (r : Z) (rest : list Z) :
  runes username = r :: rest -> 0x80 <= r -> r <> 0x130 -> r <> 0x212A ->
  shard_of username = overflow_shard.
Proof.
  intros Hr Hh H1 H2. unfold shard_of. rewrite Hr. cbv zeta.
  destruct (unicode_ToLower_high r Hh) as [[? _]|[[? _]|(_ & _ & Hl)]]; [done..|].
  unfold between. by rewrite (proj2 (Z.leb_gt (unicode_ToLower r) 0x7A)), andb_false_r by lia.
Qed.

Lemma extractExtension_extension_of (imageURL : string) :
  extractExtension imageURL = extension_of imageURL.
Proof.
  unfold extractExtension, extension_of, url_suffix, recognized.
  destruct (url_Parse imageURL) as [path|]; simpl; [|done].
  destruct (String.eqb path ""); [done|].
  destruct (contains_byte "." (filepath_Base path)); [|done].
  destruct (0 <? len _); [|done]. destruct (len _ <=? 5); [|done]. simpl.
  done.
Qed.

Lemma recognized_image_extension (e : string) :
  In e image_extensions -> recognized e = true /\ strings_ToLower e = e.
Proof.
  unfold image_extensions. simpl.
  intros [<-|[<-|[<-|[<-|[<-|[<-|[<-|[<-|[]]]]]]]]]; split; vm_compute; reflexivity.
Qed.

Lemma extension_of_whitelisted (imageURL : string) :
  exists e, In e image_extensions /\ extension_of imageURL = "." +:+ e.
Proof.
  assert (Hpng : exists e, In e image_extensions /\ ".png" = "." +:+ e).
  { exists "png". split; [|done]. unfold image_extensions. simpl. tauto. }
  unfold extension_of. destruct (url_suffix imageURL) as [ext|]; [|done].
  destruct (recognized ext) eqn:Hrec; [|done].
  unfold recognized in Hrec. apply andb_prop in Hrec as [_ Hex].
  apply existsb_exists in Hex as (e & Hin & Heq).
  apply String.eqb_eq in Heq. exists e. by rewrite Heq.
Qed.

Lemma extension_of_suffix (imageURL e : string) :
  url_suffix imageURL = Some e -> In e image_extensions ->
  extension_of imageURL = "." +:+ e.
Proof.
  intros Hs Hin. unfold extension_of. rewrite Hs.
  destruct (recognized_image_extension e Hin) as [-> ->]. done.
Qed.

Lemma extension_of_unrecognized (imageURL e : string) :
  url_suffix imageURL = Some e -> ~ In (strings_ToLower e) image_extensions ->
  extension_of imageURL = ".png".
Proof.
  intros Hs Hnin. unfold extension_of. rewrite Hs.
  destruct (recognized e) eqn:Hrec; [|done].
  unfold recognized in Hrec. apply andb_prop in Hrec as [_ Hex].
  apply existsb_exists in Hex as (x & Hin & Heq).
  apply String.eqb_eq in Heq. by rewrite Heq in Hnin.
Qed.

End CachePath.

(** ** The thumbnail cache *)

Section Cache.
Context `{GoLib}.

Lemma append_assoc (a b c : string) : (a +:+ b) +:+ c = a +:+ (b +:+ c).
Proof.
  induction a as [|x a IH]; [done|].
  change (String x ((a +:+ b) +:+ c) = String x (a +:+ (b +:+ c))). by rewrite IH.
Qed.

Lemma filepath_Join_cons (e : string) (rest : list string) :
  filepath_Join (e :: rest) =
  if String.eqb e "" then filepath_Join rest
  else match filepath_Join rest with
       | EmptyString => e
       | tl => e +:+ "/" +:+ tl
       end.
Proof. done. Qed.

(** Joining in two steps gives the path joined in one step. *)
Lemma filepath_Join_nested (l l' : list string) :
  filepath_Join (filepath_Join l :: l') = filepath_Join (l ++ l').
Proof.
  induction l as [|e l IH].
  { done. }
  change ((e :: l) ++ l')%list with (e :: (l ++ l'))%list.
  rewrite (filepath_Join_cons e l), (filepath_Join_cons e (l ++ l')), <- IH.
  destruct e as [|x e]; [done|]. cbn [String.eqb].
  destruct (filepath_Join l) as [|y tl] eqn:Hl.
  - rewrite !filepath_Join_cons. done.
  - rewrite !filepath_Join_cons.
    change (String x e +:+ "/" +:+ String y tl)
      with (String x (e +:+ "/" +:+ String y tl)).
    cbn [String.eqb].
    destruct (filepath_Join l') as [|z tl'] eqn:Hl'; [done|].
    change (String y tl +:+ "/" +:+ String z tl')
      with (String y (tl +:+ "/" +:+ String z tl')).
    cbv iota.
    change (String x (e +:+ "/" +:+ String y tl))
      with (String x e +:+ "/" +:+ String y tl).
    change (String y (tl +:+ "/" +:+ String z tl'))
      with (String y tl +:+ "/" +:+ String z tl').
    by rewrite !append_assoc.
Qed.

(** The path [downloadImageFile] writes to is the one [GetFilePath] gives. *)
Lemma download_path (tc : ThumbnailCache) (username extension : string) :
  filepath_Join [filepath_Join [cacheDir tc; getSubdirectory username];
                 username +:+ extension] =
  GetFilePath tc username extension.
Proof. unfold GetFilePath. by rewrite filepath_Join_nested. Qed.

Lemma downloadImageFile_Ok (tc : ThumbnailCache) (env : Env) (w w' : World)
    (imageURL username extension : string) (reqs : list string)
    (path : string) (size : Z) (hash : string) :
  downloadImageFile tc env w imageURL username extension = (w', reqs, Ok (path, size, hash)) ->
  exists body,
    http_Get env imageURL = HttpResponse 200 body /\
    path = GetFilePath tc username extension /\
    reqs = [imageURL] /\
    thumbnails w' = thumbnails w /\
    files w' = <[path := body]> (files w) /\
    size = len body /\
    hash = hex_EncodeToString (SHA256.Sum256 body).
Proof.
  unfold downloadImageFile. rewrite download_path.
  set (p := GetFilePath tc username extension).
  destruct (mkdir_fails env); [done|].
  destruct (http_Get env imageURL) as [|status body]; [done|].
  destruct (status =? 200)%Z eqn:Hst; [|done]. cbn [negb].
  apply Z.eqb_eq in Hst as ->.
  destruct (create_fails env); [done|].
  destruct (copy_fault env); [done|].
  unfold os_Stat, calculateSHA256, io_Copy, os_Create, set_files. cbn [files thumbnails].
  destruct (stat_fails env); [done|].
  rewrite lookup_insert_eq.
  destruct (sha_fails env); [done|].
  intros [= <- <- <- <- <-]. exists body. cbn [files thumbnails].
  by rewrite insert_insert_eq.
Qed.

(** A failed download leaves the table alone, and the files too, unless the
    destination had been opened for writing: then the destination is gone. *)
Lemma downloadImageFile_Err (tc : ThumbnailCache) (env : Env) (w w' : World)
    (imageURL username extension : string) (reqs : list string) (e : error) :
  downloadImageFile tc env w imageURL username extension = (w', reqs, Err e) ->
  is_upsert_error e = false /\
  thumbnails w' = thumbnails w /\
  (w' = w \/ files w' = delete (GetFilePath tc username extension) (files w)).
Proof.
  unfold downloadImageFile. rewrite download_path.
  set (p := GetFilePath tc username extension).
  assert (Hrm : forall bytes,
    files (os_Remove (io_Copy (os_Create w p) p bytes) p) = delete p (files w)).
  { intros bytes. unfold os_Remove, io_Copy, os_Create, set_files. cbn [files].
    by rewrite !delete_insert_eq. }
  destruct (mkdir_fails env); [intros [= <- _ <-]; auto|].
  destruct (http_Get env imageURL) as [|status body]; [intros [= <- _ <-]; auto|].
  destruct (negb (status =? 200)%Z); [intros [= <- _ <-]; auto|].
  destruct (create_fails env); [intros [= <- _ <-]; auto|].
  destruct (copy_fault env) as [n|]; [intros [= <- _ <-]; auto|].
  destruct (os_Stat _ _ _); [|intros [= <- _ <-]; auto].
  destruct (calculateSHA256 _ _ _); [done|intros [= <- _ <-]; auto].
Qed.

Lemma time_Sub_stale (t u : Z) :
  (5 * Minute <? time_Sub t u)%Z = (5 * Minute <? t - u)%Z.
Proof.
  unfold time_Sub, Minute, Second.
  change (2 ^ 63)%Z with 9223372036854775808%Z.
  repeat match goal with
         | |- context [if (?a <? ?b)%Z then _ else _] => destruct (Z.ltb_spec a b)
         end;
    repeat match goal with
           | |- context [(?a <? ?b)%Z] => destruct (Z.ltb_spec a b)
           end; try reflexivity; lia.
Qed.

Lemma NeedsRefresh_found (env : Env) (w : World) (username : string)
    (record : ThumbnailRecord) :
  GetThumbnailInfo env w username = Ok (Some record) ->
  NeedsRefresh env w username =
  Ok (5 * Minute <? clock_since env - DownloadTimestamp record)%Z.
Proof. intros Hinfo. unfold NeedsRefresh. by rewrite Hinfo, time_Sub_stale. Qed.

(** C8. The cache destination path is a function of actor and URL alone:
    whatever the world and the environment, a download writes to the path made
    of the cache directory, the shard of the actor and the actor's name with the
    extension of the URL.  The shard is the lowercased first character of the
    actor when that character is an ASCII letter (so "Alice" has shard "a") and
    the overflow shard "other" otherwise: for a first character that is an
    ASCII non-letter such as a digit, and for a first rune above U+007F (the
    two runes U+0130 and U+212A, whose lower case is the ASCII letter i and k,
    are sharded under that letter).  The extension is the suffix of the URL's
    path when that suffix is one of the image extensions, always one of the
    image extensions, and ".png" when there is no suffix or it is not
    recognized. *)
Theorem cache_path_deterministic (tc : ThumbnailCache) (username imageURL : string) :
  (forall env w w' reqs path size hash,
     downloadImageFile tc env w imageURL username (extractExtension imageURL)
     = (w', reqs, Ok (path, size, hash)) ->
     path = filepath_Join [cacheDir tc; shard_of username;
                           username +:+ extension_of imageURL]) /\
  GetFilePath tc username (extractExtension imageURL) =
    filepath_Join [cacheDir tc; shard_of username; username +:+ extension_of imageURL] /\
  getSubdirectory username = shard_of username /\
  extractExtension imageURL = extension_of imageURL /\
  getSubdirectory "Alice" = "a" /\
  (forall c t, username = String c t -> (byte_val c < 0x80)%Z ->
     shard_of username =
     if between 0x41 0x5A (byte_val c) then str1 (byte_val c + 0x20)
     else if between 0x61 0x7A (byte_val c) then str1 (byte_val c)
     else overflow_shard) /\
  (forall r rest, runes username = r :: rest ->
     (0x80 <= r)%Z -> r <> 0x130%Z -> r <> 0x212A%Z ->
     shard_of username = overflow_shard) /\
  (exists e, In e image_extensions /\ extension_of imageURL = "." +:+ e) /\
  (forall e, url_suffix imageURL = Some e -> In e image_extensions ->
     extension_of imageURL = "." +:+ e) /\
  (url_suffix imageURL = None -> extension_of imageURL = ".png") /\
  (forall e, url_suffix imageURL = Some e ->
     ~ In (strings_ToLower e) image_extensions ->
     extension_of imageURL = ".png").
Proof.
  assert (Hpath : GetFilePath tc username (extractExtension imageURL) =
    filepath_Join [cacheDir tc; shard_of username; username +:+ extension_of imageURL]).
  { unfold GetFilePath.
    by rewrite getSubdirectory_shard_of, extractExtension_extension_of. }
  split.
  { intros env w w' reqs path size hash Hd.
    apply downloadImageFile_Ok in Hd as (body & _ & -> & _). exact Hpath. }
  split; [exact Hpath|].
  split; [apply getSubdirectory_shard_of|].
  split; [apply extractExtension_extension_of|].
  split; [vm_compute; reflexivity|].
  split; [intros c t -> Hc; by apply shard_of_ascii|].
  split; [intros r rest; apply shard_of_high|].
  split; [apply extension_of_whitelisted|].
  split; [apply extension_of_suffix|].
  split; [intros Hs; unfold extension_of; by rewrite Hs|].
  apply extension_of_unrecognized.
Qed.

(** What a successful call that went to the network leaves behind. *)
Lemma DownloadAndStore_success (tc : ThumbnailCache) (env : Env) (w : World)
    (imageURL username : string) :
  out_err (DownloadAndStore tc env w imageURL username) = None ->
  out_requests (DownloadAndStore tc env w imageURL username) <> [] ->
  exists body,
    http_Get env imageURL = HttpResponse 200 body /\
    thumbnails (out_world (DownloadAndStore tc env w imageURL username)) =
      <[actor_of username :=
          {| sha256 := hex_EncodeToString (SHA256.Sum256 body);
             file_size := len body;
             download_timestamp := Unix (clock_now env);
             image_url := imageURL;
             file_extension := extractExtension imageURL |}]> (thumbnails w) /\
    files (out_world (DownloadAndStore tc env w imageURL username)) =
      <[GetFilePath tc (actor_of username) (extractExtension imageURL) := body]>
        (files w).
Proof.
  unfold DownloadAndStore. cbv zeta.
  change (if String.eqb username "" then "unknown" else username)
    with (actor_of username).
  set (actor := actor_of username). set (ext := extractExtension imageURL).
  destruct (ThumbnailExists env w actor) as [[|]|]; [| |done].
  - destruct (NeedsRefresh env w actor) as [[|]|]; [|done..].
    destruct (downloadImageFile tc env w imageURL actor ext)
      as [[w1 reqs] [[[path size] hash]|e]] eqn:Hd; [|done].
    apply downloadImageFile_Ok in Hd as (body & Hget & -> & -> & Ht & Hf & -> & ->).
    unfold updateThumbnail, row_of, set_thumbnails.
    cbn [Username SHA256 FileSize DownloadTimestamp ImageURL FileExtension].
    destruct (exec_fails env); [done|].
    destruct (thumbnails w1 !! actor) eqn:Hrow;
      (destruct (rows_affected_fails env); [done|]); [|done].
    cbn [Z.eqb out_err out_world out_requests thumbnails files].
    intros _ _. exists body. by rewrite Ht, Hf.
  - destruct (downloadImageFile tc env w imageURL actor ext)
      as [[w1 reqs] [[[path size] hash]|e]] eqn:Hd; [|done].
    apply downloadImageFile_Ok in Hd as (body & Hget & -> & -> & Ht & Hf & -> & ->).
    unfold insertThumbnail, row_of, set_thumbnails.
    cbn [Username SHA256 FileSize DownloadTimestamp ImageURL FileExtension].
    destruct (exec_fails env); [done|].
    destruct (thumbnails w1 !! actor) eqn:Hrow; [done|].
    destruct (rows_affected_fails env); [done|].
    cbn [Z.eqb out_err out_world out_requests thumbnails files].
    intros _ _. exists body. by rewrite Ht, Hf.
Qed.

(** C2. After every successful completion of [DownloadAndStore] that
    performed a download (a first download or a refresh), the metadata record
    of the actor holds the hex SHA-256 digest of the bytes of the file that is
    on disk at the path of that actor and the recorded extension, and the size
    of that file. *)
Theorem DownloadAndStore_digest_matches_file (tc : ThumbnailCache) (env : Env)
    (w : World) (imageURL username : string) :
  out_err (DownloadAndStore tc env w imageURL username) = None ->
  out_requests (DownloadAndStore tc env w imageURL username) <> [] ->
  exists row bytes,
    thumbnails (out_world (DownloadAndStore tc env w imageURL username))
      !! actor_of username = Some row /\
    files (out_world (DownloadAndStore tc env w imageURL username))
      !! GetFilePath tc (actor_of username) (file_extension row) = Some bytes /\
    sha256 row = hex_EncodeToString (SHA256.Sum256 bytes) /\
    file_size row = len bytes.
Proof.
  intros Hok Hreq.
  destruct (DownloadAndStore_success tc env w imageURL username Hok Hreq)
    as (body & _ & Ht & Hf).
  eexists _, body. rewrite Ht, Hf.
  rewrite lookup_insert_eq. split; [done|]. cbn [file_extension].
  by rewrite lookup_insert_eq.
Qed.

(** C3. Within the staleness window [DownloadAndStore] is idempotent: when
    the cache finds a record for the actor whose download timestamp is less
    than five minutes old, the call makes no network request, leaves the table
    and the files as they are, and returns success; and so does the same call
    made again on what the first call left. *)
Theorem DownloadAndStore_fresh_is_noop (tc : ThumbnailCache) (env : Env)
    (w : World) (imageURL username : string) (record : ThumbnailRecord) :
  ThumbnailExists env w (actor_of username) = Ok true ->
  GetThumbnailInfo env w (actor_of username) = Ok (Some record) ->
  (clock_since env - DownloadTimestamp record < 5 * Minute)%Z ->
  DownloadAndStore tc env w imageURL username =
    {| out_world := w; out_requests := []; out_err := None |} /\
  DownloadAndStore tc env
    (out_world (DownloadAndStore tc env w imageURL username)) imageURL username =
    {| out_world := w; out_requests := []; out_err := None |}.
Proof.
  intros Hex Hinfo Hage.
  assert (Hcall : DownloadAndStore tc env w imageURL username =
                  {| out_world := w; out_requests := []; out_err := None |}).
  { unfold DownloadAndStore. cbv zeta.
    change (if String.eqb username "" then "unknown" else username)
      with (actor_of username).
    rewrite Hex, (NeedsRefresh_found _ _ _ _ Hinfo).
    by rewrite (proj2 (Z.ltb_ge _ _)) by lia. }
  split; [exact Hcall|]. rewrite Hcall. cbn [out_world]. exact Hcall.
Qed.

Lemma insertThumbnail_error (env : Env) (w w' : World) (record : ThumbnailRecord)
    (e : error) :
  insertThumbnail env w record = (w', Some e) -> is_upsert_error e = true.
Proof.
  unfold insertThumbnail. destruct (exec_fails env); [by intros [= _ <-]|].
  destruct (thumbnails w !! Username record); [by intros [= _ <-]|].
  destruct (rows_affected_fails env); cbn [Z.eqb]; [by intros [= _ <-]|done].
Qed.

Lemma updateThumbnail_error (env : Env) (w w' : World) (record : ThumbnailRecord)
    (e : error) :
  updateThumbnail env w record = (w', Some e) -> is_upsert_error e = true.
Proof.
  unfold updateThumbnail. destruct (exec_fails env); [by intros [= _ <-]|].
  destruct (thumbnails w !! Username record);
    destruct (rows_affected_fails env); cbn [Z.eqb]; by intros [= _ <-].
Qed.

(** C9. Whenever [DownloadAndStore] returns an error of the metadata insert
    or update, the file had been downloaded and written to the destination
    path (the download step returned the path, with the fetched bytes on disk),
    and that file has been removed when the call returns its error. *)
Theorem DownloadAndStore_failed_upsert_removes_file (tc : ThumbnailCache)
    (env : Env) (w : World) (imageURL username : string) (e : error) :
  out_err (DownloadAndStore tc env w imageURL username) = Some e ->
  is_upsert_error e = true ->
  exists w1 body,
    downloadImageFile tc env w imageURL (actor_of username) (extractExtension imageURL)
    = (w1, [imageURL],
       Ok (GetFilePath tc (actor_of username) (extractExtension imageURL),
           len body, hex_EncodeToString (SHA256.Sum256 body))) /\
    files w1 !! GetFilePath tc (actor_of username) (extractExtension imageURL)
    = Some body /\
    out_requests (DownloadAndStore tc env w imageURL username) = [imageURL] /\
    files (out_world (DownloadAndStore tc env w imageURL username))
      !! GetFilePath tc (actor_of username) (extractExtension imageURL) = None.
Proof.
  unfold DownloadAndStore. cbv zeta.
  change (if String.eqb username "" then "unknown" else username)
    with (actor_of username).
  set (actor := actor_of username). set (ext := extractExtension imageURL).
  assert (Hgone : forall w0 p, files (os_Remove w0 p) !! p = None).
  { intros w0 p. unfold os_Remove, set_files. cbn [files]. apply lookup_delete_eq. }
  destruct (ThumbnailExists env w actor) as [[|]|]; [| |by intros [= <-]].
  - destruct (NeedsRefresh env w actor) as [[|]|]; [|done|by intros [= <-]].
    destruct (downloadImageFile tc env w imageURL actor ext)
      as [[w1 reqs] [[[path size] hash]|e1]] eqn:Hd.
    + apply downloadImageFile_Ok in Hd as (body & Hget & -> & -> & _ & Hf & -> & ->).
      destruct (updateThumbnail env w1 _) as [w2 [e2|]]; [|done].
      cbn [out_err out_world out_requests]. intros _ _. exists w1, body.
      split; [done|]. split; [by rewrite Hf, lookup_insert_eq|].
      split; [done|apply Hgone].
    + apply downloadImageFile_Err in Hd as [Hne _].
      cbn [out_err]. intros [= <-]. congruence.
  - destruct (downloadImageFile tc env w imageURL actor ext)
      as [[w1 reqs] [[[path size] hash]|e1]] eqn:Hd.
    + apply downloadImageFile_Ok in Hd as (body & Hget & -> & -> & _ & Hf & -> & ->).
      destruct (insertThumbnail env w1 _) as [w2 [e2|]]; [|done].
      cbn [out_err out_world out_requests]. intros _ _. exists w1, body.
      split; [done|]. split; [by rewrite Hf, lookup_insert_eq|].
      split; [done|apply Hgone].
    + apply downloadImageFile_Err in Hd as [Hne _].
      cbn [out_err]. intros [= <-]. congruence.
Qed.

End Cache.

Section Refresh.
Context `{GoLib}.

(** C4 (amended). For an actor with an existing stale record: when the
    download step fails with a transport error or an HTTP status other than
    200, [DownloadAndStore] returns an error and leaves the table and every
    file as they were; when it fails while the fetched bytes are written, it
    returns an error and leaves the table as it was, but the file at the
    destination path is removed; in every failure of the download step the
    metadata row is unchanged and so is every file at another path. *)
Theorem DownloadAndStore_failed_refresh (tc : ThumbnailCache) (env : Env)
    (w : World) (imageURL username : string) (record : ThumbnailRecord) :
  ThumbnailExists env w (actor_of username) = Ok true ->
  GetThumbnailInfo env w (actor_of username) = Ok (Some record) ->
  (5 * Minute < clock_since env - DownloadTimestamp record)%Z ->
  ((http_Get env imageURL = HttpError \/
    exists status body,
      http_Get env imageURL = HttpResponse status body /\ status <> 200%Z) ->
   out_err (DownloadAndStore tc env w imageURL username) <> None /\
   out_world (DownloadAndStore tc env w imageURL username) = w) /\
  (forall body n,
     mkdir_fails env = false ->
     http_Get env imageURL = HttpResponse 200 body ->
     create_fails env = false ->
     copy_fault env = Some n ->
     out_err (DownloadAndStore tc env w imageURL username) = Some ErrCopy /\
     thumbnails (out_world (DownloadAndStore tc env w imageURL username))
       = thumbnails w /\
     files (out_world (DownloadAndStore tc env w imageURL username))
       = delete (GetFilePath tc (actor_of username) (extractExtension imageURL))
                (files w)) /\
  (forall e,
     out_err (DownloadAndStore tc env w imageURL username) = Some e ->
     is_upsert_error e = false ->
     thumbnails (out_world (DownloadAndStore tc env w imageURL username))
       = thumbnails w /\
     forall p,
       p <> GetFilePath tc (actor_of username) (extractExtension imageURL) ->
       files (out_world (DownloadAndStore tc env w imageURL username)) !! p
       = files w !! p).
Proof.
  intros Hex Hinfo Hage. unfold DownloadAndStore. cbv zeta.
  change (if String.eqb username "" then "unknown" else username)
    with (actor_of username).
  rewrite Hex, (NeedsRefresh_found _ _ _ _ Hinfo).
  rewrite (proj2 (Z.ltb_lt _ _)) by lia.
  set (actor := actor_of username). set (ext := extractExtension imageURL).
  split; [|split].
  - intros Hfail. unfold downloadImageFile.
    destruct (mkdir_fails env); [done|].
    destruct Hfail as [->|[status [body [-> Hst]]]]; [done|].
    by rewrite (proj2 (Z.eqb_neq status 200)).
  - intros body n Hmk Hget Hcr Hcp. unfold downloadImageFile.
    rewrite Hmk, Hget, Hcr, Hcp, download_path.
    cbn [Z.eqb Pos.eqb negb out_err out_world].
    split; [done|]. split; [done|].
    unfold os_Remove, io_Copy, os_Create, set_files. cbn [files].
    by rewrite !delete_insert_eq.
  - intros e.
    destruct (downloadImageFile tc env w imageURL actor ext)
      as [[w1 reqs] [[[path size] hash]|e1]] eqn:Hd.
    + destruct (updateThumbnail env w1 _) as [w2 [e2|]] eqn:Hu; [|done].
      cbn [out_err]. intros [= <-] Hne.
      apply updateThumbnail_error in Hu. congruence.
    + apply downloadImageFile_Err in Hd as (_ & Ht & Hf).
      cbn [out_err out_world]. intros _ _. split; [done|].
      intros p Hp. destruct Hf as [-> | ->]; [done|]. by apply lookup_delete_ne.
Qed.

End Refresh.

(** ** The listener *)

Section Listener.
Context `{GoLib}.

(** [outputEvent] returns on a control frame before any routing. *)
Lemma outputEvent_routes (s : Server) (msg : Msg) :
  is_control msg = false ->
  forall message author thumbURL,
    as_object (msg !! "message") = Some message ->
    as_object (message !! "author") = Some author ->
    as_string (author !! "signedPhotoThumbUrl") = Some thumbURL ->
    thumbURL <> "" ->
    forall tc, thumbCache s = Some tc ->
    outputEvent s msg =
    GoDownloadAndStore thumbURL
      match as_string (author !! "slug") with
      | Some slug => slug
      | None => match as_string (author !! "username") with
                | Some usr => usr
                | None => "unknown"
                end
      end
    :: match json_MarshalIndent msg with
       | None => [LogMarshalFailed]
       | Some eventJSON => [LogEvent eventJSON]
       end.
Proof.
  intros Hc message author thumbURL Hm Ha Ht Hne tc Htc.
  unfold outputEvent. unfold is_control in Hc.
  destruct (as_string (msg !! "type")) as [msgType|].
  - apply orb_false_elim in Hc as [Hc Hp]. apply orb_false_elim in Hc as [Hc Hr].
    rewrite Hc, Hr, Hp, Hm, Ha, Ht, Htc. unfold nonempty.
    by apply String.eqb_neq in Hne as ->.
  - rewrite Hm, Ha, Ht, Htc. unfold nonempty.
    by apply String.eqb_neq in Hne as ->.
Qed.


Lemma listen_Listening (s : Server) (frames : list Frame) :
  (listen s frames).2 = Listening <-> ~ In ReadFailed frames.
Proof.
  induction frames as [|[msg|] rest IH].
  - simpl. tauto.
  - cbn [listen]. destruct (listen s rest) as [effects status] eqn:Hl.
    cbn [snd] in *. rewrite IH. simpl. split; [intros Hn [Hf|Hf]; [done|tauto]|tauto].
  - simpl. split; [done|]. intros Hn. exfalso. apply Hn. by left.
Qed.

(** Once connected and subscribed, [ConnectToWebSocket] is its loop. *)
Lemma ConnectToWebSocket_listen (s : Server) (link : Link) :
  clientID s <> "" -> clientSecret s <> "" ->
  dial_fails link = false -> write_fails link = false ->
  ConnectToWebSocket s link =
  (LogConnected :: LogSentSubscribe :: (listen s (frames link)).1,
   (listen s (frames link)).2).
Proof.
  intros Hid Hsec Hd Hw. unfold ConnectToWebSocket.
  apply String.eqb_neq in Hid as ->. apply String.eqb_neq in Hsec as ->.
  rewrite Hd, Hw. cbn [orb]. by destruct (listen s (frames link)).
Qed.

(** C7 (amended). A frame with top-level type "reject_subscription" that is
    read in the listening loop is intercepted before any routing: nothing is
    started or printed for it but the log line of the authentication failure.
    The loop then goes on with the frames that follow; [ConnectToWebSocket]
    stays in the listening state until a read fails. *)
Theorem reject_subscription_intercepted (s : Server) (msg : Msg) (rest : list Frame) :
  as_string (msg !! "type") = Some "reject_subscription" ->
  outputEvent s msg = [LogRejected] /\
  listen s (Received msg :: rest) =
    (LogRejected :: (listen s rest).1, (listen s rest).2) /\
  ((listen s (Received msg :: rest)).2 = Listening <-> ~ In ReadFailed rest) /\
  (forall link,
     clientID s <> "" -> clientSecret s <> "" ->
     dial_fails link = false -> write_fails link = false ->
     frames link = Received msg :: rest ->
     ConnectToWebSocket s link =
       (LogConnected :: LogSentSubscribe :: LogRejected :: (listen s rest).1,
        (listen s rest).2) /\
     ((ConnectToWebSocket s link).2 = Listening <-> ~ In ReadFailed rest)).
Proof.
  intros Ht.
  assert (Ho : outputEvent s msg = [LogRejected]).
  { unfold outputEvent. by rewrite Ht. }
  assert (Hl : listen s (Received msg :: rest) =
               (LogRejected :: (listen s rest).1, (listen s rest).2)).
  { cbn [listen]. rewrite Ho. by destruct (listen s rest). }
  split; [done|]. split; [done|]. split.
  - rewrite Hl. cbn [snd]. apply listen_Listening.
  - intros link Hid Hsec Hd Hw Hf.
    rewrite (ConnectToWebSocket_listen s link Hid Hsec Hd Hw), Hf, Hl.
    cbn [fst snd]. split; [done|apply listen_Listening].
Qed.

End Listener.

(** ** The properties on the example inputs *)

(** Witness for C2, a first download for Bob: the row holds the digest and
    the size of the file at [thumbcache/b/Bob.jpeg]. *)
Lemma DownloadAndStore_digest_first_download :
  (out_err first_download = None /\ out_requests first_download <> []) /\
  exists row bytes,
    thumbnails (out_world first_download) !! actor_of "Bob" = Some row /\
    files (out_world first_download)
      !! @GetFilePath sampleLib sample_cache (actor_of "Bob") (file_extension row)
      = Some bytes /\
    sha256 row = hex_EncodeToString (SHA256.Sum256 bytes) /\
    file_size row = len bytes.
Proof.
  split.
  - split; [vm_compute; reflexivity|vm_compute; discriminate].
  - apply (@DownloadAndStore_digest_matches_file sampleLib sample_cache
             (healthy_env 1700000000 (HttpResponse 200 "abc"))
             empty_world "https://cdn/x/avatar.jpeg?sig=1" "Bob");
      [vm_compute; reflexivity|vm_compute; discriminate].
Defined.

(** The scenario of the specification: the thumbnail
    [https://cdn/x/avatar.jpeg?sig=1] of "Bob", who has no record yet, is
    stored at [thumbcache/b/Bob.jpeg] with one row of extension [.jpeg]. *)
Example first_download_stored :
  files (out_world first_download) = {[ "thumbcache/b/Bob.jpeg" := "abc" ]} /\
  thumbnails (out_world first_download) =
    {[ "Bob" := {| sha256 := "ba7816bf8f01cfea414140de5dae2223b00361a396177a9cb410ff61f20015ad";
                   file_size := 3;
                   download_timestamp := 1700000000;
                   image_url := "https://cdn/x/avatar.jpeg?sig=1";
                   file_extension := ".jpeg" |} ]}.
Proof. split; vm_compute; reflexivity. Qed.

(** Witness for C3: Bob's record two minutes after the download, and a host
    that cannot be reached. *)
Lemma DownloadAndStore_fresh_bob :
  @DownloadAndStore sampleLib sample_cache (healthy_env 1700000120 HttpError)
    bob_world "https://cdn/x/bob.png" "Bob"
  = {| out_world := bob_world; out_requests := []; out_err := None |}.
Proof.
  apply (@DownloadAndStore_fresh_is_noop sampleLib sample_cache
           (healthy_env 1700000120 HttpError) bob_world
           "https://cdn/x/bob.png" "Bob" bob_record);
    vm_compute; reflexivity.
Defined.

(** Counterexample to C4 as stated: Bob's record is ten minutes old, the
    refresh gets its response, and [io.Copy] breaks off after one byte; the
    call returns an error and the row is unchanged, but the file that was
    cached for Bob is no longer there. *)
Lemma DownloadAndStore_failed_write_loses_file :
  out_err broken_refresh = Some ErrCopy /\
  thumbnails (out_world broken_refresh) = thumbnails bob_world /\
  files bob_world !! "thumbcache/b/Bob.png" = Some "old" /\
  ~ (files (out_world broken_refresh) !! "thumbcache/b/Bob.png"
     = files bob_world !! "thumbcache/b/Bob.png").
Proof.
  split; [vm_compute; reflexivity|].
  split; [vm_compute; reflexivity|].
  split; [vm_compute; reflexivity|].
  vm_compute. discriminate.
Qed.

(** Witness for C4 as amended, on the same call. *)
Lemma DownloadAndStore_failed_refresh_bob :
  out_err broken_refresh = Some ErrCopy /\
  thumbnails (out_world broken_refresh) = thumbnails bob_world /\
  files (out_world broken_refresh)
  = delete (@GetFilePath sampleLib sample_cache (actor_of "Bob")
              (@extractExtension sampleLib "https://cdn/x/bob.png"))
           (files bob_world).
Proof.
  destruct (@DownloadAndStore_failed_refresh sampleLib sample_cache
              (broken_copy_env 1700000600 (HttpResponse 200 "abc") 1)
              bob_world "https://cdn/x/bob.png" "Bob" bob_record)
    as (_ & Hwrite & _); [vm_compute; reflexivity..|].
  apply (Hwrite "abc" 1%nat); vm_compute; reflexivity.
Defined.

(** The other scenario of the specification: Bob's record is ten minutes old
    and the host cannot be reached; the row and the file stay as they were. *)
Example unreachable_refresh_keeps_cache :
  @DownloadAndStore sampleLib sample_cache (healthy_env 1700000600 HttpError)
    bob_world "https://cdn/x/bob.png" "Bob"
  = {| out_world := bob_world;
       out_requests := ["https://cdn/x/bob.png"];
       out_err := Some ErrHttpGet |}.
Proof. vm_compute. reflexivity. Qed.

(** Witness for C8: a name that starts with a Cyrillic letter. *)
Lemma cyrillic_name_overflow_shard :
  @shard_of sampleLib cyrillic_name = overflow_shard.
Proof.
  apply (proj1 (proj2 (proj2 (proj2 (proj2 (proj2 (proj2
           (@cache_path_deterministic sampleLib sample_cache cyrillic_name
              "https://cdn/x/avatar.jpeg?sig=1")))))))
         0x416%Z [101; 110; 121; 97]%Z);
    [vm_compute; reflexivity|lia|lia|lia].
Defined.

Example shard_examples :
  @getSubdirectory sampleLib "Alice" = "a" /\
  @getSubdirectory sampleLib "9lives" = "other" /\
  @getSubdirectory sampleLib cyrillic_name = "other" /\
  @getSubdirectory sampleLib "" = "other" /\
  @extractExtension sampleLib "https://cdn/x/avatar.jpeg?sig=1" = ".jpeg" /\
  @extractExtension sampleLib "https://cdn/x/avatar" = ".png".
Proof. repeat split; vm_compute; reflexivity. Qed.

(** Witness for C9: a first download whose [INSERT] is refused. *)
Lemma DownloadAndStore_refused_insert_removes_file :
  (out_err refused_insert = Some ErrDbInsert /\ is_upsert_error ErrDbInsert = true) /\
  exists w1 body,
    @downloadImageFile sampleLib sample_cache
      (broken_db_env 1700000000 (HttpResponse 200 "abc")) empty_world
      "https://cdn/x/avatar.jpeg?sig=1" (actor_of "Bob")
      (@extractExtension sampleLib "https://cdn/x/avatar.jpeg?sig=1")
    = (w1, ["https://cdn/x/avatar.jpeg?sig=1"],
       Ok (@GetFilePath sampleLib sample_cache (actor_of "Bob")
             (@extractExtension sampleLib "https://cdn/x/avatar.jpeg?sig=1"),
           len body, hex_EncodeToString (SHA256.Sum256 body))) /\
    files w1 !! @GetFilePath sampleLib sample_cache (actor_of "Bob")
                  (@extractExtension sampleLib "https://cdn/x/avatar.jpeg?sig=1")
    = Some body /\
    out_requests refused_insert = ["https://cdn/x/avatar.jpeg?sig=1"] /\
    files (out_world refused_insert)
      !! @GetFilePath sampleLib sample_cache (actor_of "Bob")
           (@extractExtension sampleLib "https://cdn/x/avatar.jpeg?sig=1")
    = None.
Proof.
  split; [split; vm_compute; reflexivity|].
  apply (@DownloadAndStore_failed_upsert_removes_file sampleLib sample_cache
           (broken_db_env 1700000000 (HttpResponse 200 "abc"))
           empty_world "https://cdn/x/avatar.jpeg?sig=1" "Bob" ErrDbInsert);
    vm_compute; reflexivity.
Defined.

(** After the refused insert nothing is left in the cache. *)
Example refused_insert_leaves_nothing :
  out_world refused_insert = empty_world.
Proof. vm_compute. reflexivity. Qed.


(** The thumbnail of that frame ends up in the row and the file of
    "unknown"; bob gets no row. *)
Example empty_slug_download_stored :
  thumbnails (out_world
    (@DownloadAndStore sampleLib sample_cache
       (healthy_env 1700000000 (HttpResponse 200 "abc"))
       empty_world "https://cdn/x/bob.png" "")) !! "bob" = None /\
  files (out_world
    (@DownloadAndStore sampleLib sample_cache
       (healthy_env 1700000000 (HttpResponse 200 "abc"))
       empty_world "https://cdn/x/bob.png" ""))
  = {[ "thumbcache/u/unknown.png" := "abc" ]}.
Proof. split; vm_compute; reflexivity. Qed.

(** Counterexample to C7 as stated: after the rejection the loop is still
    listening, and the chat message that follows is routed (its thumbnail
    download is started and the event is printed). *)
Lemma listen_continues_after_reject :
  (@listen sampleLib sample_server [Received reject_frame; Received chat_frame]).2
  = Listening /\
  In (GoDownloadAndStore "https://cdn/x/bob.png" "bob")
     (@listen sampleLib sample_server [Received reject_frame; Received chat_frame]).1 /\
  ~ ((@listen sampleLib sample_server [Received reject_frame; Received chat_frame]).1
     = (@listen sampleLib sample_server [Received reject_frame]).1).
Proof.
  split; [vm_compute; reflexivity|].
  split; [vm_compute; tauto|].
  vm_compute. discriminate.
Qed.

(** Witness for C7 as amended, on the same frames. *)
Lemma reject_subscription_intercepted_example :
  @outputEvent sampleLib sample_server reject_frame = [LogRejected] /\
  @listen sampleLib sample_server [Received reject_frame; Received chat_frame]
  = (LogRejected :: (@listen sampleLib sample_server [Received chat_frame]).1,
     (@listen sampleLib sample_server [Received chat_frame]).2) /\
  ((@listen sampleLib sample_server [Received reject_frame; Received chat_frame]).2
   = Listening <-> ~ In ReadFailed [Received chat_frame]).
Proof.
  destruct (@reject_subscription_intercepted sampleLib sample_server reject_frame
              [Received chat_frame]) as (Ho & Hl & Hs & _);
    [vm_compute; reflexivity|].
  exact (conj Ho (conj Hl Hs)).
Defined.

(** The scenario of the specification: [{"type":"ping"}] classifies as
    "ping", is not durable, and neither the store nor the listener does
    anything with it. *)
Example ping_frame_ignored :
  @ExtractEventInfo sampleLib {[ "type" := JString "ping" ]} = ("ping", None, true) /\
  IsStreamEvent {[ "type" := JString "ping" ]} = false /\
  @StoreEvent sampleLib healthy_store [] {[ "type" := JString "ping" ]} = ([], None) /\
  @outputEvent sampleLib sample_server {[ "type" := JString "ping" ]} = [].
Proof. repeat split; vm_compute; reflexivity. Qed.

(** The actor falls through an empty slug and an empty username to the
    [who] field of the metadata. *)
Example actor_from_metadata :
  @ExtractEventInfo sampleLib
    {[ "message" :=
         JObject {[ "type" := JString "Tipped";
                    "author" := JObject {[ "slug" := JString "";
                                           "username" := JString "" ]};
                    "metadata" := JString who_carol ]} ]}
  = ("Tipped", Some "carol", true).
Proof. vm_compute. reflexivity. Qed.

Section CacheMore.
Context `{GoLib}.
#[local] Open Scope Z_scope.

Lemma downloadImageFile_requests (tc : ThumbnailCache) (env : Env) (w : World)
    (imageURL username extension : string) :
  (downloadImageFile tc env w imageURL username extension).1.2 =
  if mkdir_fails env then [] else [imageURL].
Proof.
  unfold downloadImageFile. cbv zeta.
  destruct (mkdir_fails env); [reflexivity|].
  destruct (http_Get env imageURL) as [|status body]; [reflexivity|].
  destruct (negb (status =? 200)); [reflexivity|].
  destruct (create_fails env); [reflexivity|].
  destruct (copy_fault env); [reflexivity|].
  destruct (os_Stat _ _ _); [|reflexivity].
  destruct (calculateSHA256 _ _ _); reflexivity.
Qed.

Lemma insertThumbnail_frame (env : Env) (w w' : World) (record : ThumbnailRecord)
    (e : option error) :
  insertThumbnail env w record = (w', e) ->
  files w' = files w /\
  (forall other, other <> Username record ->
     thumbnails w' !! other = thumbnails w !! other) /\
  (rows_affected_fails env = false -> e <> None -> w' = w) /\
  (e = None -> thumbnails w' = <[Username record := row_of record]> (thumbnails w)).
Proof.
  unfold insertThumbnail.
  destruct (exec_fails env).
  { intros [= <- <-]. repeat split; try discriminate; reflexivity. }
  destruct (thumbnails w !! Username record).
  { intros [= <- <-]. repeat split; try discriminate; reflexivity. }
  cbv zeta. destruct (rows_affected_fails env); cbn [Z.eqb]; intros [= <- <-];
    (split; [reflexivity|split; [intros other Ho; cbn; apply lookup_insert_ne; congruence|]]);
    split; try discriminate; try congruence; try reflexivity.
Qed.

Lemma updateThumbnail_frame (env : Env) (w w' : World) (record : ThumbnailRecord)
    (e : option error) :
  updateThumbnail env w record = (w', e) ->
  files w' = files w /\
  (forall other, other <> Username record ->
     thumbnails w' !! other = thumbnails w !! other) /\
  (rows_affected_fails env = false -> e <> None -> w' = w) /\
  (e = None -> thumbnails w' = <[Username record := row_of record]> (thumbnails w)).
Proof.
  unfold updateThumbnail.
  destruct (exec_fails env).
  { intros [= <- <-]. repeat split; try discriminate; reflexivity. }
  destruct (thumbnails w !! Username record);
    destruct (rows_affected_fails env); cbn [Z.eqb]; intros [= <- <-];
    (split; [reflexivity|split; [intros other Ho; cbn; try apply lookup_insert_ne; congruence|]]);
    split; try discriminate; try congruence; try reflexivity.
Qed.

(** What a call of [DownloadAndStore] can be, by the two reads it starts
    with and the download that may follow. *)
Lemma DownloadAndStore_unfold (tc : ThumbnailCache) (env : Env) (w : World)
    (imageURL username : string) :
  DownloadAndStore tc env w imageURL username =
  if exists_query_fails env then
    {| out_world := w; out_requests := []; out_err := Some ErrExistsQuery |}
  else
    match thumbnails w !! actor_of username with
    | Some row =>
      if info_query_fails env then
        {| out_world := w; out_requests := []; out_err := Some ErrRefreshQuery |}
      else if 5 * Minute <? clock_since env - time_Unix (download_timestamp row) then
        match downloadImageFile tc env w imageURL (actor_of username)
                (extractExtension imageURL) with
        | (w1, reqs, Err e) => {| out_world := w1; out_requests := reqs; out_err := Some e |}
        | (w1, reqs, Ok (filePath, fileSize, sha256Hash)) =>
          match updateThumbnail env w1
                  {| Username := actor_of username; SHA256 := sha256Hash;
                     FileSize := fileSize; DownloadTimestamp := clock_now env;
                     ImageURL := imageURL;
                     FileExtension := extractExtension imageURL |} with
          | (w2, Some e) =>
            {| out_world := os_Remove w2 filePath; out_requests := reqs; out_err := Some e |}
          | (w2, None) => {| out_world := w2; out_requests := reqs; out_err := None |}
          end
        end
      else untouched w
    | None =>
      match downloadImageFile tc env w imageURL (actor_of username)
              (extractExtension imageURL) with
      | (w1, reqs, Err e) => {| out_world := w1; out_requests := reqs; out_err := Some e |}
      | (w1, reqs, Ok (filePath, fileSize, sha256Hash)) =>
        match insertThumbnail env w1
                {| Username := actor_of username; SHA256 := sha256Hash;
                   FileSize := fileSize; DownloadTimestamp := clock_now env;
                   ImageURL := imageURL;
                   FileExtension := extractExtension imageURL |} with
        | (w2, Some e) =>
          {| out_world := os_Remove w2 filePath; out_requests := reqs; out_err := Some e |}
        | (w2, None) => {| out_world := w2; out_requests := reqs; out_err := None |}
        end
      end
    end.
Proof.
  unfold DownloadAndStore. cbv zeta.
  change (if String.eqb username "" then "unknown" else username) with (actor_of username).
  unfold ThumbnailExists.
  destruct (exists_query_fails env); [reflexivity|].
  destruct (thumbnails w !! actor_of username) as [row|] eqn:Hrow.
  - rewrite bool_decide_eq_true_2 by eauto.
    unfold NeedsRefresh, GetThumbnailInfo. rewrite Hrow.
    destruct (info_query_fails env); [reflexivity|].
    cbn [DownloadTimestamp]. rewrite time_Sub_stale.
    destruct (5 * Minute <? clock_since env - time_Unix (download_timestamp row));
      reflexivity.
  - rewrite bool_decide_eq_false_2 by (intros [? ?]; discriminate).
    reflexivity.
Qed.

Lemma downloadImageFile_Ok_steps (tc : ThumbnailCache) (env : Env) (w w' : World)
    (imageURL username extension : string) (reqs : list string)
    (r : string * Z * string) :
  downloadImageFile tc env w imageURL username extension = (w', reqs, Ok r) ->
  mkdir_fails env = false /\ create_fails env = false /\ copy_fault env = None /\
  stat_fails env = false /\ sha_fails env = false.
Proof.
  unfold downloadImageFile, os_Stat, calculateSHA256. cbv zeta.
  destruct (mkdir_fails env); [discriminate|].
  destruct (http_Get env imageURL) as [|status body]; [discriminate|].
  destruct (negb (status =? 200)); [discriminate|].
  destruct (create_fails env); [discriminate|].
  destruct (copy_fault env); [discriminate|].
  destruct (stat_fails env); [discriminate|].
  destruct (files _ !! _); [|discriminate].
  destruct (sha_fails env); [discriminate|].
  intros _. repeat split.
Qed.

Lemma downloadImageFile_all_steps (tc : ThumbnailCache) (env : Env) (w : World)
    (imageURL username extension body : string) :
  mkdir_fails env = false -> http_Get env imageURL = HttpResponse 200 body ->
  create_fails env = false -> copy_fault env = None ->
  stat_fails env = false -> sha_fails env = false ->
  downloadImageFile tc env w imageURL username extension =
  ({| thumbnails := thumbnails w;
      files := <[GetFilePath tc username extension := body]> (files w) |},
   [imageURL],
   Ok (GetFilePath tc username extension, len body,
       hex_EncodeToString (SHA256.Sum256 body))).
Proof.
  intros Hm Hg Hc Hcp Hs Hsha.
  unfold downloadImageFile, os_Stat, calculateSHA256. cbv zeta.
  rewrite download_path, Hm, Hg, Hc, Hcp, Hs, Hsha.
  cbn [Z.eqb negb Pos.eqb io_Copy os_Create set_files files thumbnails].
  rewrite lookup_insert_eq. unfold io_Copy, os_Create, set_files. cbn [files thumbnails].
  by rewrite insert_insert_eq.
Qed.

(** X1. [DownloadAndStore] sends at most one request, for the URL it was
    given, and it sends it exactly when the first read of the table succeeds,
    the user has no row or a row that is read and is more than five minutes
    old, and the shard directory can be made. *)
Theorem DownloadAndStore_requests_iff (tc : ThumbnailCache) (env : Env) (w : World)
    (imageURL username : string) :
  (out_requests (DownloadAndStore tc env w imageURL username) = [] \/
   out_requests (DownloadAndStore tc env w imageURL username) = [imageURL]) /\
  (out_requests (DownloadAndStore tc env w imageURL username) = [imageURL] <->
   exists_query_fails env = false /\
   mkdir_fails env = false /\
   match thumbnails w !! actor_of username with
   | None => True
   | Some row =>
     info_query_fails env = false /\
     5 * Minute < clock_since env - time_Unix (download_timestamp row)
   end).
Proof.
  rewrite DownloadAndStore_unfold.
  pose proof (downloadImageFile_requests tc env w imageURL (actor_of username)
                (extractExtension imageURL)) as Hreq.
  destruct (exists_query_fails env).
  { cbn. split; [by left|]. split; [done|]. by intros [? _]. }
  destruct (thumbnails w !! actor_of username) as [row|].
  - destruct (info_query_fails env).
    { cbn. split; [by left|]. split; [done|]. by intros (_ & _ & ? & _). }
    destruct (5 * Minute <? clock_since env - time_Unix (download_timestamp row)) eqn:Hage.
    + apply Z.ltb_lt in Hage.
      destruct (downloadImageFile _ _ _ _ _ _) as [[w1 reqs] [[[path size] hash]|e]];
        cbn [fst snd] in Hreq; subst reqs.
      * destruct (updateThumbnail _ _ _) as [w2 [e|]]; cbn [out_requests];
          (destruct (mkdir_fails env); [split; [by left|]; split; [done|]; by intros (_ & ? & _)|]);
          (split; [by right|]; done).
      * cbn [out_requests].
        destruct (mkdir_fails env); [split; [by left|]; split; [done|]; by intros (_ & ? & _)|].
        split; [by right|]; done.
    + apply Z.ltb_ge in Hage. cbn. split; [by left|]. split; [done|].
      intros (_ & _ & _ & ?). lia.
  - destruct (downloadImageFile _ _ _ _ _ _) as [[w1 reqs] [[[path size] hash]|e]];
      cbn [fst snd] in Hreq; subst reqs.
    + destruct (insertThumbnail _ _ _) as [w2 [e|]]; cbn [out_requests];
        (destruct (mkdir_fails env); [split; [by left|]; split; [done|]; by intros (_ & ? & _)|]);
        (split; [by right|]; done).
    + cbn [out_requests].
      destruct (mkdir_fails env); [split; [by left|]; split; [done|]; by intros (_ & ? & _)|].
      split; [by right|]; done.
Qed.

(** The rows of the other users are out of the reach of a call. *)
Lemma DownloadAndStore_other_rows (tc : ThumbnailCache) (env : Env) (w : World)
    (imageURL username other : string) :
  other <> actor_of username ->
  thumbnails (out_world (DownloadAndStore tc env w imageURL username)) !! other
  = thumbnails w !! other.
Proof.
  intros Ho. rewrite DownloadAndStore_unfold.
  set (actor := actor_of username) in *. set (ext := extractExtension imageURL).
  assert (Hdl : forall w1 reqs r,
            downloadImageFile tc env w imageURL actor ext = (w1, reqs, r) ->
            thumbnails w1 = thumbnails w).
  { intros w1 reqs [[[p s] h]|e] Hd.
    - by apply downloadImageFile_Ok in Hd as (body & _ & _ & _ & Ht & _).
    - by apply downloadImageFile_Err in Hd as (_ & Ht & _). }
  destruct (exists_query_fails env); [done|].
  destruct (thumbnails w !! actor) as [row|].
  - destruct (info_query_fails env); [done|].
    destruct (5 * Minute <? _); [|done].
    destruct (downloadImageFile tc env w imageURL actor ext)
      as [[w1 reqs] [[[p s] h]|e]] eqn:Hd; pose proof (Hdl _ _ _ eq_refl) as Ht;
      [|cbn [out_world]; by rewrite Ht].
    destruct (updateThumbnail _ _ _) as [w2 [e|]] eqn:Hu;
      apply updateThumbnail_frame in Hu as (_ & Ht2 & _); cbn [Username] in Ht2;
      cbn [out_world os_Remove set_files thumbnails]; by rewrite Ht2, Ht.
  - destruct (downloadImageFile tc env w imageURL actor ext)
      as [[w1 reqs] [[[p s] h]|e]] eqn:Hd; pose proof (Hdl _ _ _ eq_refl) as Ht;
      [|cbn [out_world]; by rewrite Ht].
    destruct (insertThumbnail _ _ _) as [w2 [e|]] eqn:Hu;
      apply insertThumbnail_frame in Hu as (_ & Ht2 & _); cbn [Username] in Ht2;
      cbn [out_world os_Remove set_files thumbnails]; by rewrite Ht2, Ht.
Qed.

(** X2. [DownloadAndStore] touches one user only: the row of every other
    user, and every file but the one at the path of the user and the
    extension of the URL, are after the call what they were before, whatever
    fails on the way. *)
Theorem DownloadAndStore_touches_one_user (tc : ThumbnailCache) (env : Env) (w : World)
    (imageURL username : string) :
  (forall other, other <> actor_of username ->
     thumbnails (out_world (DownloadAndStore tc env w imageURL username)) !! other
     = thumbnails w !! other) /\
  (forall path, path <> GetFilePath tc (actor_of username) (extractExtension imageURL) ->
     files (out_world (DownloadAndStore tc env w imageURL username)) !! path
     = files w !! path).
Proof.
  rewrite DownloadAndStore_unfold.
  set (actor := actor_of username). set (ext := extractExtension imageURL).
  assert (Hdl : forall w1 reqs r,
            downloadImageFile tc env w imageURL actor ext = (w1, reqs, r) ->
            thumbnails w1 = thumbnails w /\
            (forall path, path <> GetFilePath tc actor ext ->
               files w1 !! path = files w !! path) /\
            (forall p s h, r = Ok (p, s, h) -> p = GetFilePath tc actor ext)).
  { intros w1 reqs [[[p s] h]|e] Hd.
    - apply downloadImageFile_Ok in Hd as (body & _ & -> & _ & Ht & Hf & _).
      split; [done|]. split; [|by intros ? ? ? [= -> _ _]].
      intros path Hp. rewrite Hf. by apply lookup_insert_ne.
    - apply downloadImageFile_Err in Hd as (_ & Ht & [-> | Hf]).
      + repeat split; done.
      + split; [done|]. split; [|done].
        intros path Hp. rewrite Hf. by apply lookup_delete_ne. }
  assert (Hrm : forall w2 path, path <> GetFilePath tc actor ext ->
            files (os_Remove w2 (GetFilePath tc actor ext)) !! path = files w2 !! path).
  { intros w2 path Hp. cbn. by apply lookup_delete_ne. }
  destruct (exists_query_fails env); [done|].
  destruct (thumbnails w !! actor) as [row|].
  - destruct (info_query_fails env); [done|].
    destruct (5 * Minute <? _); [|done].
    destruct (downloadImageFile tc env w imageURL actor ext)
      as [[w1 reqs] [[[p s] h]|e]] eqn:Hd;
      destruct (Hdl _ _ _ eq_refl) as (Ht & Hf & Hp).
    + rewrite (Hp _ _ _ eq_refl).
      destruct (updateThumbnail _ _ _) as [w2 [e|]] eqn:Hu;
        apply updateThumbnail_frame in Hu as (Hf2 & Ht2 & _);
        cbn [Username] in Ht2; cbn [out_world]; split.
      * intros other Ho. cbn [os_Remove set_files thumbnails]. by rewrite Ht2, Ht.
      * intros path Hpath. by rewrite Hrm, Hf2, Hf.
      * intros other Ho. by rewrite Ht2, Ht.
      * intros path Hpath. by rewrite Hf2, Hf.
    + cbn [out_world]. split; [by rewrite Ht|done].
  - destruct (downloadImageFile tc env w imageURL actor ext)
      as [[w1 reqs] [[[p s] h]|e]] eqn:Hd;
      destruct (Hdl _ _ _ eq_refl) as (Ht & Hf & Hp).
    + rewrite (Hp _ _ _ eq_refl).
      destruct (insertThumbnail _ _ _) as [w2 [e|]] eqn:Hu;
        apply insertThumbnail_frame in Hu as (Hf2 & Ht2 & _);
        cbn [Username] in Ht2; cbn [out_world]; split.
      * intros other Ho. cbn [os_Remove set_files thumbnails]. by rewrite Ht2, Ht.
      * intros path Hpath. by rewrite Hrm, Hf2, Hf.
      * intros other Ho. by rewrite Ht2, Ht.
      * intros path Hpath. by rewrite Hf2, Hf.
    + cbn [out_world]. split; [by rewrite Ht|done].
Qed.

(** X3. [DownloadAndStore] stores a download exactly when every step
    succeeds, and then what it leaves is fixed by the body of the response:
    the file holds the body, and the row of the user holds its digest, its
    size, the second of the clock, the URL and the extension. *)
Theorem DownloadAndStore_stores_iff (tc : ThumbnailCache) (env : Env) (w : World)
    (imageURL username : string) :
  (out_err (DownloadAndStore tc env w imageURL username) = None /\
   out_requests (DownloadAndStore tc env w imageURL username) <> []
   <-> exists body, all_steps_succeed env w imageURL (actor_of username) body) /\
  (forall body,
     all_steps_succeed env w imageURL (actor_of username) body ->
     DownloadAndStore tc env w imageURL username =
     {| out_world :=
          {| thumbnails :=
               <[actor_of username :=
                   {| sha256 := hex_EncodeToString (SHA256.Sum256 body);
                      file_size := len body;
                      download_timestamp := Unix (clock_now env);
                      image_url := imageURL;
                      file_extension := extractExtension imageURL |}]> (thumbnails w);
             files :=
               <[GetFilePath tc (actor_of username) (extractExtension imageURL) := body]>
                 (files w) |};
        out_requests := [imageURL];
        out_err := None |}).
Proof.
  set (actor := actor_of username). set (ext := extractExtension imageURL).
  assert (Hall : forall body,
            all_steps_succeed env w imageURL actor body ->
            DownloadAndStore tc env w imageURL username =
            {| out_world :=
                 {| thumbnails :=
                      <[actor :=
                          {| sha256 := hex_EncodeToString (SHA256.Sum256 body);
                             file_size := len body;
                             download_timestamp := Unix (clock_now env);
                             image_url := imageURL;
                             file_extension := ext |}]> (thumbnails w);
                    files := <[GetFilePath tc actor ext := body]> (files w) |};
               out_requests := [imageURL];
               out_err := None |}).
  { intros body (Hex & Hrow & Hm & Hg & Hc & Hcp & Hs & Hsha & Hexec & Hra).
    rewrite DownloadAndStore_unfold. fold actor ext.
    rewrite Hex, (downloadImageFile_all_steps tc env w _ _ _ body) by done.
    destruct (thumbnails w !! actor) as [row|] eqn:Hlook.
    - destruct Hrow as [-> Hage]. rewrite (proj2 (Z.ltb_lt _ _) Hage).
      unfold updateThumbnail, row_of, set_thumbnails.
      cbn [Username SHA256 FileSize DownloadTimestamp ImageURL FileExtension thumbnails files].
      by rewrite Hexec, Hlook, Hra.
    - unfold insertThumbnail, row_of, set_thumbnails.
      cbn [Username SHA256 FileSize DownloadTimestamp ImageURL FileExtension thumbnails files].
      by rewrite Hexec, Hlook, Hra. }
  split; [|exact Hall]. split.
  - rewrite DownloadAndStore_unfold. fold actor ext. unfold all_steps_succeed.
    destruct (exists_query_fails env); [by intros [? _]|].
    destruct (thumbnails w !! actor) as [row|] eqn:Hlook.
    + destruct (info_query_fails env); [by intros [? _]|].
      destruct (5 * Minute <? _) eqn:Hage; [|by intros [_ ?]].
      apply Z.ltb_lt in Hage.
      destruct (downloadImageFile tc env w imageURL actor ext)
        as [[w1 reqs] [[[p sz] h]|e]] eqn:Hd; [|by intros [? _]].
      pose proof (downloadImageFile_Ok_steps _ _ _ _ _ _ _ _ _ Hd)
        as (Hm & Hc & Hcp & Hs & Hsha).
      apply downloadImageFile_Ok in Hd as (body & Hg & _).
      destruct (updateThumbnail _ _ _) as [w2 [e|]] eqn:Hu; [by intros [? _]|].
      intros _. exists body. revert Hu. unfold updateThumbnail.
      destruct (exec_fails env); [done|].
      destruct (thumbnails w1 !! _); destruct (rows_affected_fails env); done.
    + destruct (downloadImageFile tc env w imageURL actor ext)
        as [[w1 reqs] [[[p sz] h]|e]] eqn:Hd; [|by intros [? _]].
      pose proof (downloadImageFile_Ok_steps _ _ _ _ _ _ _ _ _ Hd)
        as (Hm & Hc & Hcp & Hs & Hsha).
      apply downloadImageFile_Ok in Hd as (body & Hg & _).
      destruct (insertThumbnail _ _ _) as [w2 [e|]] eqn:Hu; [by intros [? _]|].
      intros _. exists body. revert Hu. unfold insertThumbnail.
      destruct (exec_fails env); [done|].
      destruct (thumbnails w1 !! _); [done|].
      destruct (rows_affected_fails env); done.
  - intros [body Hbody]. by rewrite (Hall body Hbody).
Qed.

(** X4. When [DownloadAndStore] returns an error, the table is as it was,
    unless the driver failed to report the number of affected rows after the
    statement had run. *)
Theorem DownloadAndStore_error_keeps_table (tc : ThumbnailCache) (env : Env)
    (w : World) (imageURL username : string) (e : error) :
  out_err (DownloadAndStore tc env w imageURL username) = Some e ->
  rows_affected_fails env = false ->
  thumbnails (out_world (DownloadAndStore tc env w imageURL username)) = thumbnails w.
Proof.
  rewrite DownloadAndStore_unfold. intros Herr Hra. revert Herr.
  set (actor := actor_of username). set (ext := extractExtension imageURL).
  assert (Hdl : forall w1 reqs r,
            downloadImageFile tc env w imageURL actor ext = (w1, reqs, r) ->
            thumbnails w1 = thumbnails w).
  { intros w1 reqs [[[p s] h]|e'] Hd.
    - by apply downloadImageFile_Ok in Hd as (body & _ & _ & _ & Ht & _).
    - by apply downloadImageFile_Err in Hd as (_ & Ht & _). }
  destruct (exists_query_fails env); [done|].
  destruct (thumbnails w !! actor) as [row|].
  - destruct (info_query_fails env); [done|].
    destruct (5 * Minute <? _); [|done].
    destruct (downloadImageFile tc env w imageURL actor ext)
      as [[w1 reqs] [[[p s] h]|e']] eqn:Hd; pose proof (Hdl _ _ _ eq_refl) as Ht; [|done].
    destruct (updateThumbnail _ _ _) as [w2 [e'|]] eqn:Hu; [|done].
    apply updateThumbnail_frame in Hu as (_ & _ & Hsame & _).
    rewrite Hsame by done. done.
  - destruct (downloadImageFile tc env w imageURL actor ext)
      as [[w1 reqs] [[[p s] h]|e']] eqn:Hd; pose proof (Hdl _ _ _ eq_refl) as Ht; [|done].
    destruct (insertThumbnail _ _ _) as [w2 [e'|]] eqn:Hu; [|done].
    apply insertThumbnail_frame in Hu as (_ & _ & Hsame & _).
    rewrite Hsame by done. done.
Qed.

(** X5. A call made after a download was stored does nothing exactly when the
    clock it reads is at most five minutes past the stored time, which is
    the time of the download cut to the whole second; so a call that comes
    up to four minutes and 59 seconds after a download never asks the network
    again. *)
Theorem DownloadAndStore_again (tc : ThumbnailCache) (env env' : Env) (w : World)
    (imageURL imageURL' username : string) :
  out_err (DownloadAndStore tc env w imageURL username) = None ->
  out_requests (DownloadAndStore tc env w imageURL username) <> [] ->
  exists_query_fails env' = false ->
  info_query_fails env' = false ->
  (DownloadAndStore tc env'
     (out_world (DownloadAndStore tc env w imageURL username)) imageURL' username
   = untouched (out_world (DownloadAndStore tc env w imageURL username))
   <-> clock_since env' - time_Unix (Unix (clock_now env)) <= 5 * Minute) /\
  (clock_since env' - clock_now env <= 4 * Minute + 59 * Second ->
   DownloadAndStore tc env'
     (out_world (DownloadAndStore tc env w imageURL username)) imageURL' username
   = untouched (out_world (DownloadAndStore tc env w imageURL username))).
Proof.
  intros Hok Hreq Hex Hinfo.
  destruct (DownloadAndStore_success tc env w imageURL username Hok Hreq)
    as (body & _ & Ht & _).
  set (w1 := out_world (DownloadAndStore tc env w imageURL username)) in *.
  assert (Hiff : DownloadAndStore tc env' w1 imageURL' username = untouched w1
                 <-> clock_since env' - time_Unix (Unix (clock_now env)) <= 5 * Minute).
  { rewrite DownloadAndStore_unfold, Hex, Ht, lookup_insert_eq, Hinfo.
    cbn [download_timestamp].
    destruct (5 * Minute <? _) eqn:Hage.
    - apply Z.ltb_lt in Hage. split; [|lia].
      destruct (downloadImageFile tc env' w1 imageURL' (actor_of username)
                  (extractExtension imageURL')) as [[w2 reqs] [[[p s] h]|e]] eqn:Hd;
        [|discriminate].
      pose proof (downloadImageFile_requests tc env' w1 imageURL' (actor_of username)
                    (extractExtension imageURL')) as Hr.
      rewrite Hd in Hr. cbn [fst snd] in Hr.
      apply downloadImageFile_Ok_steps in Hd as (Hm & _). rewrite Hm in Hr. subst reqs.
      destruct (updateThumbnail _ _ _) as [w3 [e|]]; discriminate.
    - apply Z.ltb_ge in Hage. done. }
  split; [exact Hiff|].
  intros Hsoon. apply Hiff. unfold time_Unix, Unix.
  pose proof (Z.mod_pos_bound (clock_now env) Second eq_refl).
  pose proof (Z.div_mod (clock_now env) Second ltac:(discriminate)).
  unfold Minute in *. unfold Second in *. lia.
Qed.

(** X6. What [insertThumbnail] or [updateThumbnail] wrote is what
    [GetThumbnailInfo] reads back: the same digest, size, URL and extension,
    and the download time cut to the whole second, which is less than a
    second before the time that was written. *)
Theorem GetThumbnailInfo_after_write (env env' : Env) (w w' : World)
    (record : ThumbnailRecord) :
  insertThumbnail env w record = (w', None) \/
  updateThumbnail env w record = (w', None) ->
  info_query_fails env' = false ->
  GetThumbnailInfo env' w' (Username record) =
    Ok (Some {| Username := Username record;
                SHA256 := SHA256 record;
                FileSize := FileSize record;
                DownloadTimestamp := time_Unix (Unix (DownloadTimestamp record));
                ImageURL := ImageURL record;
                FileExtension := FileExtension record |}) /\
  DownloadTimestamp record - Second
    < time_Unix (Unix (DownloadTimestamp record)) <= DownloadTimestamp record /\
  (exists_query_fails env' = false ->
   ThumbnailExists env' w' (Username record) = Ok true).
Proof.
  intros Hw Hinfo.
  assert (Ht : thumbnails w' = <[Username record := row_of record]> (thumbnails w)).
  { destruct Hw as [Hw | Hw].
    - by apply insertThumbnail_frame in Hw as (_ & _ & _ & Ht); apply Ht.
    - by apply updateThumbnail_frame in Hw as (_ & _ & _ & Ht); apply Ht. }
  split; [|split].
  - unfold GetThumbnailInfo. by rewrite Hinfo, Ht, lookup_insert_eq.
  - unfold time_Unix, Unix.
    pose proof (Z.mod_pos_bound (DownloadTimestamp record) Second eq_refl).
    pose proof (Z.div_mod (DownloadTimestamp record) Second ltac:(discriminate)).
    unfold Second in *. lia.
  - intros Hex. unfold ThumbnailExists. rewrite Hex, Ht, lookup_insert_eq.
    by rewrite bool_decide_eq_true_2 by eauto.
Qed.

End CacheMore.

Section EarlierCache.
Context `{GoLib}.
#[local] Open Scope Z_scope.

(** X7. The earlier [DownloadAndStore] is the later one without the
    refresh: when the user has a row it does nothing, however old the row is,
    and in every other case (no row, or a failed lookup) the two versions leave
    the same world, send the same request and return the same error. *)
Theorem Earlier_DownloadAndStore_never_refreshes (tc : ThumbnailCache) (env : Env)
    (w : World) (imageURL username : string) :
  Earlier.DownloadAndStore tc env w imageURL username =
  match ThumbnailExists env w (actor_of username) with
  | Ok true => {| out_world := w; out_requests := []; out_err := None |}
  | _ => DownloadAndStore tc env w imageURL username
  end.
Proof.
  unfold Earlier.DownloadAndStore, DownloadAndStore. cbv zeta.
  change (if String.eqb username "" then "unknown" else username) with (actor_of username).
  destruct (ThumbnailExists env w (actor_of username)) as [[|]|e]; try reflexivity.
  unfold downloadImageFile. cbv zeta.
  destruct (mkdir_fails env); [reflexivity|].
  destruct (http_Get env imageURL) as [|status body]; [reflexivity|].
  destruct (negb (status =? 200)); [reflexivity|].
  destruct (create_fails env); [reflexivity|].
  destruct (copy_fault env); [reflexivity|].
  destruct (os_Stat _ _ _); [|reflexivity].
  destruct (calculateSHA256 _ _ _); reflexivity.
Qed.

End EarlierCache.

Section Digest.
#[local] Open Scope Z_scope.

Lemma round_length (st : list Z) (kw : Z * Z) :
  length st = 8%nat -> length (SHA256.round st kw) = 8%nat.
Proof.
  intros Hl. do 9 (destruct st as [|? st]; try discriminate). reflexivity.
Qed.

Lemma compress_length (h block : list Z) :
  length h = 8%nat -> length (SHA256.compress h block) = 8%nat.
Proof.
  intros Hl. unfold SHA256.compress. cbv zeta.
  rewrite length_map, length_combine.
  assert (Hf : forall l st, length st = 8%nat ->
                 length (fold_left SHA256.round l st) = 8%nat).
  { induction l as [|kw l IH]; intros st Hst; [exact Hst|].
    cbn [fold_left]. apply IH, round_length, Hst. }
  rewrite Hf by exact Hl. rewrite Hl. reflexivity.
Qed.

Lemma blocks_length (n : nat) (ws h : list Z) :
  length h = 8%nat -> length (SHA256.blocks n ws h) = 8%nat.
Proof.
  revert ws h. induction n as [|n IH]; intros ws h Hl; [exact Hl|].
  cbn [SHA256.blocks]. destruct ws as [|x ws]; [exact Hl|].
  apply IH, compress_length, Hl.
Qed.

Lemma string_of_length (l : list Z) :
  String.length (SHA256.string_of l) = length l.
Proof. induction l as [|b l IH]; [reflexivity|]. cbn. by rewrite IH. Qed.

Lemma be_words_length (l : list Z) :
  length (concat (map (SHA256.be_bytes 4) l)) = (4 * length l)%nat.
Proof.
  induction l as [|x l IH]; [reflexivity|].
  cbn [map concat]. rewrite length_app, IH.
  unfold SHA256.be_bytes. rewrite length_map, length_rev, length_seq. cbn [length]. lia.
Qed.

Lemma Sum256_length (s : string) : String.length (SHA256.Sum256 s) = 32%nat.
Proof.
  unfold SHA256.Sum256. cbv zeta.
  rewrite string_of_length, be_words_length, blocks_length; reflexivity.
Qed.

Lemma hex_digit_In (z : Z) : 0 <= z < 16 -> In (hex_digit z) hex_digits.
Proof.
  intros Hz.
  assert (Hcases : z = 0 \/ z = 1 \/ z = 2 \/ z = 3 \/ z = 4 \/ z = 5 \/ z = 6 \/ z = 7 \/
                   z = 8 \/ z = 9 \/ z = 10 \/ z = 11 \/ z = 12 \/ z = 13 \/ z = 14 \/
                   z = 15) by lia.
  repeat (destruct Hcases as [-> | Hcases]; [vm_compute; tauto|]).
  subst z. vm_compute. tauto.
Qed.

Lemma hex_EncodeToString_digits (s : string) :
  String.length (hex_EncodeToString s) = (2 * String.length s)%nat /\
  Forall (fun c => In c hex_digits) (list_ascii_of_string (hex_EncodeToString s)).
Proof.
  induction s as [|c s [IHl IHd]]; [split; [reflexivity|constructor]|].
  cbn [hex_EncodeToString String.length list_ascii_of_string].
  split; [rewrite IHl; lia|].
  pose proof (byte_val_range c) as Hc.
  constructor; [|constructor; [|exact IHd]]; apply hex_digit_In.
  - split; [apply Z.div_pos; lia|apply Z.div_lt_upper_bound; lia].
  - apply Z.mod_pos_bound. lia.
Qed.

(** X8. The digest [calculateSHA256] returns is always 64 lower-case
    hexadecimal digits, so the slice [sha256Hash[:16]] that [DownloadAndStore]
    takes for its log line is within bounds. *)
Theorem calculateSHA256_hex64 (env : Env) (w : World) (filePath sha256Hash : string) :
  calculateSHA256 env w filePath = Ok sha256Hash ->
  String.length sha256Hash = 64%nat /\
  Forall (fun c => In c hex_digits) (list_ascii_of_string sha256Hash) /\
  (16 <= len sha256Hash).
Proof.
  unfold calculateSHA256. destruct (sha_fails env); [discriminate|].
  destruct (files w !! filePath) as [bytes|]; [|discriminate].
  intros [= <-].
  destruct (hex_EncodeToString_digits (SHA256.Sum256 bytes)) as [Hl Hd].
  rewrite Sum256_length in Hl. unfold len. rewrite Hl. split; [reflexivity|].
  split; [exact Hd|lia].
Qed.

End Digest.

Section Shard.
Context `{GoLib}.
#[local] Open Scope Z_scope.

(** X9. The shard directory is one of 27 names, whatever the user name is:
    a single lower-case ASCII letter or [other]; no user name can make the
    cache use a directory of another name. *)
Theorem getSubdirectory_names (username : string) :
  getSubdirectory username = "other" \/
  exists c, 0x61 <= c <= 0x7A /\ getSubdirectory username = str1 c.
Proof.
  rewrite getSubdirectory_shard_of. unfold shard_of.
  destruct (runes username) as [|r rest]; [by left|]. cbv zeta.
  destruct (between 0x61 0x7A (unicode_ToLower r)) eqn:Hb; [|by left].
  right. exists (unicode_ToLower r). split; [|reflexivity].
  unfold between in Hb. apply andb_true_iff in Hb as [Hlo Hhi].
  apply Z.leb_le in Hlo, Hhi. lia.
Qed.

End Shard.

Section Queries.
Context `{GoLib} `{SqlLib}.
#[local] Open Scope Z_scope.

Lemma query_events_inl (env : QueryEnv) (selected events : list StreamEvent) (limit : Z) :
  query_events env selected limit = inl events ->
  events = scan_event <$> sql_limit limit (order_by_received_timestamp_desc selected).
Proof.
  unfold query_events. cbv zeta.
  destruct (query_fails env); [discriminate|].
  destruct (iteration_fault env); [by destruct (scan_fault env); [case_bool_decide|]|].
  destruct (scan_fault env); [case_bool_decide; [discriminate|]|]; by intros [= <-].
Qed.


(** The rows a query returns are the newest of the selected ones: the
    selected rows split into the rows kept, sorted from new to old, and the
    rows left out, none of which is newer than a row kept; rows are left out
    only when the limit is reached. *)
Lemma query_events_newest (env : QueryEnv) (selected events : list StreamEvent)
    (limit : Z) :
  query_events env selected limit = inl events ->
  exists kept rest,
    events = scan_event <$> kept /\
    selected ≡ₚ (kept ++ rest)%list /\
    StronglySorted newer_first kept /\
    (forall k r, k ∈ kept -> r ∈ rest -> newer_first k r) /\
    (rest <> [] -> 0 <= limit /\ Z.of_nat (length kept) = limit).
Proof.
  intros Hq. apply query_events_inl in Hq.
  pose proof (order_by_sorts selected) as Hs.
  pose proof (order_by_permutes selected) as Hp.
  set (sorted := order_by_received_timestamp_desc selected) in *.
  unfold sql_limit in Hq. destruct (limit <? 0) eqn:Hl.
  - exists sorted, []. rewrite app_nil_r. repeat split; try done.
    intros k r _ Hr. by apply elem_of_nil in Hr.
  - apply Z.ltb_ge in Hl.
    exists (take (Z.to_nat limit) sorted), (drop (Z.to_nat limit) sorted).
    rewrite take_drop. rewrite <- (take_drop (Z.to_nat limit) sorted) in Hs.
    split; [done|]. split; [done|].
    split; [by apply StronglySorted_app_1_l in Hs|].
    split; [intros k r; by apply StronglySorted_app_1_elem_of|].
    intros Hrest. split; [done|].
    rewrite length_take. destruct (decide (Z.to_nat limit <= length sorted)%nat); [lia|].
    rewrite drop_ge in Hrest by lia. done.
Qed.

Lemma scan_event_newer_first (a b : StreamEvent) :
  newer_first a b -> newer_first (scan_event a) (scan_event b).
Proof. unfold newer_first, scan_event, time_Unix, Second. cbn. lia. Qed.

(** X10. [GetEventsByType] returns the newest events of the type asked for:
    every event returned has that type and is read from a stored row, the
    events come from new to old, there are at most [limit] of them when
    [limit] is not negative, and a stored row of the type is left out only
    when [limit] rows are returned, none of them older than it. *)
Theorem GetEventsByType_newest (env : QueryEnv) (rows : list StreamEvent)
    (eventType : string) (limit : Z) (events : list StreamEvent) :
  GetEventsByType env rows eventType limit = inl events ->
  Forall (fun e => EventType e = eventType) events /\
  StronglySorted newer_first events /\
  (0 <= limit -> Z.of_nat (length events) <= limit) /\
  exists kept rest,
    events = scan_event <$> kept /\
    filter (fun row => EventType row = eventType) rows ≡ₚ (kept ++ rest)%list /\
    (forall k r, k ∈ kept -> r ∈ rest -> ReceivedTimestamp r <= ReceivedTimestamp k) /\
    (rest <> [] -> Z.of_nat (length kept) = limit).
Proof.
  unfold GetEventsByType. intros Hq.
  pose proof (query_events_inl _ _ _ _ Hq) as Hev.
  apply query_events_newest in Hq as (kept & rest & Hk & Hp & Hs & Hnew & Hrest).
  assert (Hin : forall k, k ∈ kept -> EventType k = eventType).
  { intros k Hkin.
    assert (Hk' : k ∈ filter (fun row => EventType row = eventType) rows)
      by (rewrite Hp; apply elem_of_app; by left).
    by apply list_elem_of_filter in Hk' as [? _]. }
  split; [|split; [|split]].
  - rewrite Hk. apply Forall_fmap, Forall_forall. intros k Hkin. cbn. by apply Hin.
  - rewrite Hk. by apply (StronglySorted_fmap _ _ _ _ scan_event_newer_first).
  - intros Hl. rewrite Hev, length_fmap. unfold sql_limit.
    rewrite (proj2 (Z.ltb_ge _ _) Hl), length_take. lia.
  - exists kept, rest. repeat split; try done. intros Hr. by apply Hrest.
Qed.

Lemma first_present_nonempty (candidates : list (option string)) (s : string) :
  first_present candidates = Some s -> s <> "".
Proof.
  induction candidates as [|c rest IH]; [discriminate|].
  cbn [first_present]. destruct c as [c|]; cbn [present]; [|exact IH].
  unfold nonempty. destruct (String.eqb_spec c ""); cbn [negb]; [exact IH|].
  by intros [= <-].
Qed.

Lemma ExtractEventInfo_user_nonempty (msg : Msg) :
  (ExtractEventInfo msg).1.2 <> Some "".
Proof.
  assert (Ha : actor_by_priority msg <> Some "").
  { intros Ha. by apply first_present_nonempty in Ha. }
  rewrite ExtractEventInfo_steps.
  destruct (present (nested_type msg)); [exact Ha|].
  destruct (as_string (msg !! "type")); [done|].
  destruct (as_string (msg !! "event")); [exact Ha|done].
Qed.

Lemma StoreEvent_row (env : StoreEnv) (rows : list StreamEvent) (msg : Msg)
    (row : StreamEvent) :
  (StoreEvent env rows msg).1 = (rows ++ [row])%list ->
  row = {| ID := Z.of_nat (length rows) + 1;
           ReceivedTimestamp := store_now env;
           EventType := (ExtractEventInfo msg).1.1;
           UserWhoPerformedAction := (ExtractEventInfo msg).1.2;
           RawJSON := default "" (json_Marshal msg) |}.
Proof.
  unfold StoreEvent.
  destruct (negb (IsStreamEvent msg)); [intros Hr; by apply symmetry, app_one_neq in Hr|].
  destruct (ExtractEventInfo msg) as [[eventType user] [|]];
    [|intros Hr; by apply symmetry, app_one_neq in Hr].
  destruct (json_Marshal msg) as [rawJSON|];
    [|intros Hr; by apply symmetry, app_one_neq in Hr].
  cbv zeta. destruct (store_exec_fails env);
    [intros Hr; by apply symmetry, app_one_neq in Hr|].
  unfold insert_stream_event. cbn [fst snd default].
  intros Hr. apply app_inv_head in Hr. by injection Hr as <-.
Qed.

Lemma StoreEvent_rows (env : StoreEnv) (rows : list StreamEvent) (msg : Msg) :
  (StoreEvent env rows msg).1 = rows \/
  exists row, (StoreEvent env rows msg).1 = (rows ++ [row])%list.
Proof.
  unfold StoreEvent.
  destruct (negb (IsStreamEvent msg)); [by left|].
  destruct (ExtractEventInfo msg) as [[eventType user] [|]]; [|by left].
  destruct (json_Marshal msg) as [rawJSON|]; [|by left].
  cbv zeta. destruct (store_exec_fails env); [by left|].
  right. by eexists.
Qed.

Lemma stored_snoc (calls : list (StoreEnv * Msg)) (call : StoreEnv * Msg) :
  stored (calls ++ [call])%list = (StoreEvent call.1 (stored calls) call.2).1.
Proof. unfold stored. by rewrite fold_left_app. Qed.

Lemma stored_user_nonempty (calls : list (StoreEnv * Msg)) :
  Forall (fun row => UserWhoPerformedAction row <> Some "") (stored calls).
Proof.
  induction calls as [|call calls IH] using rev_ind; [constructor|].
  rewrite stored_snoc.
  destruct (StoreEvent_rows call.1 (stored calls) call.2) as [-> | [row Hrow]];
    [exact IH|].
  rewrite Hrow. apply Forall_app. split; [exact IH|]. constructor; [|constructor].
  apply StoreEvent_row in Hrow. rewrite Hrow. cbn.
  apply ExtractEventInfo_user_nonempty.
Qed.

(** X11. The user [StoreEvent] records is never the empty string: the
    classifier gives a user that is not empty or none at all, so every row of
    a table that [StoreEvent] filled has a user that is not empty or [NULL]. *)
Theorem StoreEvent_user_never_empty (msg : Msg) (calls : list (StoreEnv * Msg)) :
  (ExtractEventInfo msg).1.2 <> Some "" /\
  Forall (fun row => UserWhoPerformedAction row <> Some "") (stored calls).
Proof. split; [apply ExtractEventInfo_user_nonempty|apply stored_user_nonempty]. Qed.

(** X12. [GetEventsByUser] returns only events of the user asked for, so an
    event stored without a user is in no answer; and on a table that
    [StoreEvent] filled, the query for the empty user name finds nothing. *)
Theorem GetEventsByUser_named_only (env : QueryEnv) (rows : list StreamEvent)
    (user : string) (limit : Z) (events : list StreamEvent) :
  GetEventsByUser env rows user limit = inl events ->
  Forall (fun e => UserWhoPerformedAction e = Some user) events /\
  (forall calls, rows = stored calls -> user = "" -> events = []).
Proof.
  unfold GetEventsByUser. intros Hq.
  apply query_events_newest in Hq as (kept & rest & Hk & Hp & _). subst events.
  assert (Hin : forall k, k ∈ kept ->
                  k ∈ rows /\ UserWhoPerformedAction k = Some user).
  { intros k Hk.
    assert (Hk' : k ∈ filter (fun row => UserWhoPerformedAction row = Some user) rows)
      by (rewrite Hp; apply elem_of_app; by left).
    apply list_elem_of_filter in Hk'. tauto. }
  split.
  - apply Forall_fmap, Forall_forall. intros k Hk. cbn. by apply Hin.
  - intros calls -> ->. destruct kept as [|k kept]; [done|].
    destruct (Hin k) as [Hk Hu]; [by constructor|].
    pose proof (stored_user_nonempty calls) as Hall.
    rewrite Forall_forall in Hall. by apply Hall in Hk.
Qed.



End Queries.

Section OAuthFlow.
#[local] Open Scope Z_scope.

Example base64_URLEncoding_examples :
  OAuth.base64_URLEncoding (SHA256.bytes_of "hello") = "aGVsbG8=" /\
  OAuth.base64_URLEncoding [0xfb; 0xff] = "-_8=" /\
  OAuth.base64_URLEncoding [0xfb; 0xff; 0xbe] = "-_--" /\
  OAuth.base64_URLEncoding (SHA256.bytes_of "f") = "Zg==".
Proof. vm_compute. repeat split. Qed.

Lemma time_Sub_over (d t u : Z) :
  0 <= d < 2 ^ 63 - 1 -> (d <? time_Sub t u) = (d <? t - u).
Proof.
  intros Hd. unfold time_Sub. cbv zeta.
  destruct (t - u <? - 2 ^ 63) eqn:H1; [|destruct (2 ^ 63 - 1 <? t - u) eqn:H2];
    try reflexivity;
    repeat match goal with
           | H : (_ <? _) = true |- _ => apply Z.ltb_lt in H
           | H : (_ <? _) = false |- _ => apply Z.ltb_ge in H
           end;
    destruct (d <? t - u) eqn:H3;
    repeat match goal with
           | H : (_ <? _) = true |- _ => apply Z.ltb_lt in H
           | H : (_ <? _) = false |- _ => apply Z.ltb_ge in H
           end;
    first [apply Z.ltb_lt | apply Z.ltb_ge]; lia.
Qed.

Lemma expired_iff (now : Z) (a : OAuth.AuthState) :
  OAuth.expired now a = false <-> now - OAuth.Created a <= 10 * Minute.
Proof.
  unfold OAuth.expired. rewrite time_Sub_over by (unfold Minute, Second; lia).
  apply Z.ltb_ge.
Qed.

Lemma set_authStates_same (s : OAuth.Server) :
  OAuth.set_authStates s (OAuth.authStates s) = s.
Proof. by destruct s. Qed.

Lemma ValidateState_server (now : Z) (s : OAuth.Server) (state : string) :
  (OAuth.ValidateState now s state).1 =
  OAuth.set_authStates s (delete state (OAuth.authStates s)).
Proof.
  unfold OAuth.ValidateState.
  destruct (OAuth.authStates s !! state) as [a|] eqn:Ha.
  - by destruct (OAuth.expired now a).
  - cbn [fst]. by rewrite delete_id, set_authStates_same.
Qed.

Lemma ValidateState_true (now : Z) (s : OAuth.Server) (state : string) :
  (OAuth.ValidateState now s state).2 = true <->
  exists a, OAuth.authStates s !! state = Some a /\
            now - OAuth.Created a <= 10 * Minute.
Proof.
  unfold OAuth.ValidateState.
  destruct (OAuth.authStates s !! state) as [a|] eqn:Ha.
  - pose proof (expired_iff now a) as He.
    destruct (OAuth.expired now a); cbn [snd]; split.
    + done.
    + intros (a' & [= <-] & Hage). by apply He in Hage.
    + intros _. exists a. split; [done|]. by apply He.
    + done.
  - cbn [snd]. split; [done|]. by intros (a & ? & _).
Qed.

(** X14. A state is good for one validation: whatever [ValidateState] answers,
    the state is gone afterwards and the other states are as they were, so a
    second validation of the same state fails; and the answer is yes exactly
    when the state was handed out and is at most ten minutes old. *)
Theorem ValidateState_once (now now' : Z) (s : OAuth.Server) (state : string) :
  (OAuth.ValidateState now s state).1 =
    OAuth.set_authStates s (delete state (OAuth.authStates s)) /\
  (OAuth.ValidateState now' (OAuth.ValidateState now s state).1 state).2 = false /\
  ((OAuth.ValidateState now s state).2 = true <->
   exists a, OAuth.authStates s !! state = Some a /\
             now - OAuth.Created a <= 10 * Minute).
Proof.
  split; [apply ValidateState_server|]. split; [|apply ValidateState_true].
  rewrite ValidateState_server. unfold OAuth.ValidateState.
  cbn [OAuth.authStates OAuth.set_authStates]. by rewrite lookup_delete_eq.
Qed.

Lemma GenerateState_states (env : OAuth.StateEnv) (s s' : OAuth.Server)
    (state : string) :
  OAuth.GenerateState env s = (s', Some state) ->
  OAuth.authStates s' =
  filter (fun kv => OAuth.expired (OAuth.clock_cleaning env kv.1) kv.2 = false)
    (<[state := {| OAuth.State := state; OAuth.Created := OAuth.clock_created env |}]>
       (OAuth.authStates s)).
Proof.
  unfold OAuth.GenerateState. destruct (OAuth.rand_Read env); [|discriminate].
  cbv zeta. by intros [= <- <-].
Qed.

(** X15. The state [GenerateState] hands out passes [ValidateState] when it
    is presented within ten minutes; the states that are left when
    [GenerateState] returns are the new one and the old ones that are at most
    ten minutes old, each with its time of creation. *)
Theorem GenerateState_then_ValidateState (env : OAuth.StateEnv) (s s' : OAuth.Server)
    (state : string) (now : Z) :
  OAuth.GenerateState env s = (s', Some state) ->
  OAuth.clock_cleaning env state - OAuth.clock_created env <= 10 * Minute ->
  now - OAuth.clock_created env <= 10 * Minute ->
  (OAuth.ValidateState now s' state).2 = true /\
  (forall k a,
     OAuth.authStates s' !! k = Some a <->
     (if String.eqb k state
      then a = {| OAuth.State := state; OAuth.Created := OAuth.clock_created env |}
      else OAuth.authStates s !! k = Some a) /\
     OAuth.clock_cleaning env k - OAuth.Created a <= 10 * Minute).
Proof.
  intros Hgen Hclean Hnow. apply GenerateState_states in Hgen.
  assert (Hlook : forall k a,
            OAuth.authStates s' !! k = Some a <->
            (if String.eqb k state
             then a = {| OAuth.State := state;
                         OAuth.Created := OAuth.clock_created env |}
             else OAuth.authStates s !! k = Some a) /\
            OAuth.clock_cleaning env k - OAuth.Created a <= 10 * Minute).
  { intros k a. rewrite Hgen, map_lookup_filter_Some. cbn [fst snd].
    rewrite expired_iff.
    destruct (String.eqb_spec k state) as [-> | Hk].
    - rewrite lookup_insert_eq. split; intros [Ha Hage]; (split; [congruence|done]).
    - by rewrite lookup_insert_ne. }
  split; [|exact Hlook].
  apply ValidateState_true. eexists. split.
  - apply Hlook. rewrite String.eqb_refl. split; [reflexivity|done].
  - done.
Qed.

Lemma HandleCallback_posts (env : OAuth.CallbackEnv) (s : OAuth.Server)
    (code state : string) :
  (OAuth.HandleCallback env s code state).1.2 <> [] ->
  code <> "" /\ state <> "" /\
  (OAuth.ValidateState (OAuth.clock_validate env) s state).2 = true.
Proof.
  unfold OAuth.HandleCallback.
  destruct (String.eqb_spec code ""); [done|].
  destruct (String.eqb_spec state ""); [done|].
  destruct (OAuth.ValidateState _ s state) as [s1 [|]]; [done|done].
Qed.

(** X16. [HandleCallback] asks the token endpoint only for a request that
    carries a code and a state that was handed out at most ten minutes
    before; every request that carries a code uses its state up, so a second
    callback with the same state is answered by status 400 and asks nothing;
    a request without a code is answered by status 400 and leaves the states
    as they are. *)
Theorem HandleCallback_state_once (env env' : OAuth.CallbackEnv) (s : OAuth.Server)
    (code code' state : string) :
  ((OAuth.HandleCallback env s code state).1.2 <> [] ->
   code <> "" /\ state <> "" /\
   exists a, OAuth.authStates s !! state = Some a /\
             OAuth.clock_validate env - OAuth.Created a <= 10 * Minute) /\
  (code <> "" ->
   (OAuth.HandleCallback env' (OAuth.HandleCallback env s code state).1.1
      code' state).1.2 = [] /\
   OAuth.StatusCode
     (OAuth.HandleCallback env' (OAuth.HandleCallback env s code state).1.1
        code' state).2 = 400) /\
  (code = "" ->
   OAuth.HandleCallback env s code state = (s, [], OAuth.MissingCode)).
Proof.
  split; [|split].
  - intros Hp. apply HandleCallback_posts in Hp as (Hc & Hs & Hv).
    by apply ValidateState_true in Hv.
  - intros Hc.
    assert (Hgone : state <> "" ->
              OAuth.authStates (OAuth.HandleCallback env s code state).1.1 !! state
              = None).
    { intros Hs. unfold OAuth.HandleCallback.
      destruct (String.eqb_spec code ""); [done|].
      destruct (String.eqb_spec state ""); [done|].
      pose proof (ValidateState_server (OAuth.clock_validate env) s state) as Hsrv.
      destruct (OAuth.ValidateState _ s state) as [s1 [|]]; cbn [fst] in Hsrv; subst s1.
      - unfold OAuth.ExchangeCodeForToken. cbv zeta.
        destruct (OAuth.token_reply env) as [|status [[[? ?] ?]|]];
          [|destruct (negb (status =? 200))..];
          cbn [fst OAuth.authStates OAuth.set_authStates OAuth.set_credentials];
          apply lookup_delete_eq.
      - cbn [fst OAuth.authStates OAuth.set_authStates]. apply lookup_delete_eq. }
    set (s1 := (OAuth.HandleCallback env s code state).1.1) in *.
    unfold OAuth.HandleCallback.
    destruct (String.eqb_spec code' ""); [done|].
    destruct (String.eqb_spec state ""); [done|].
    unfold OAuth.ValidateState. by rewrite Hgone.
  - intros ->. reflexivity.
Qed.

Lemma listen_status `{GoLib} (s : Server) (frames : list Frame) :
  (listen s frames).2 = Listening \/ (listen s frames).2 = Returned ErrRead.
Proof.
  induction frames as [|[msg|] rest IH]; [by left| |by right].
  cbn [listen]. by destruct (listen s rest).
Qed.

Lemma ConnectToWebSocket_credentials `{GoLib} (s : Server) (link : Link) :
  clientID s <> "" -> clientSecret s <> "" ->
  (ConnectToWebSocket s link).2 <> Returned ErrMissingCredentials.
Proof.
  intros Hid Hsecret. unfold ConnectToWebSocket.
  destruct (String.eqb_spec (clientID s) ""); [done|].
  destruct (String.eqb_spec (clientSecret s) ""); [done|].
  cbn [orb]. destruct (dial_fails link); [cbn; congruence|].
  destruct (write_fails link); [cbn; congruence|].
  pose proof (listen_status s (frames link)) as Hl.
  destruct (listen s (frames link)) as [effects status]. cbn [snd] in *.
  destruct Hl as [-> | ->]; congruence.
Qed.

(** X17. When [HandleCallback] answers with the success page, the credentials
    of the server hold the token that was granted and the client id and secret
    of the configuration, and the listener is started; with a configuration
    that is not empty (as [main] requires), that listener gets past its check
    of the credentials.  The listener is started by no other answer. *)
Theorem HandleCallback_success_connects `{GoLib} (env : OAuth.CallbackEnv)
    (s : OAuth.Server) (code state : string) :
  OAuth.clientID s <> "" -> OAuth.clientSecret s <> "" ->
  (In OAuth.GoConnectToWebSocket (OAuth.HandleCallback env s code state).1.2 <->
   (OAuth.HandleCallback env s code state).2 = OAuth.AuthenticationSuccessful) /\
  ((OAuth.HandleCallback env s code state).2 = OAuth.AuthenticationSuccessful ->
   (exists accessToken refreshToken expiresIn,
      OAuth.token_reply env =
        OAuth.TokenResponse 200 (Some (accessToken, refreshToken, expiresIn)) /\
      OAuth.AccessToken
        (OAuth.credentials (OAuth.HandleCallback env s code state).1.1) = accessToken) /\
   OAuth.ClientID (OAuth.credentials (OAuth.HandleCallback env s code state).1.1)
     = OAuth.clientID s /\
   OAuth.ClientSecret (OAuth.credentials (OAuth.HandleCallback env s code state).1.1)
     = OAuth.clientSecret s /\
   forall tc link,
     (ConnectToWebSocket
        (listener_of (OAuth.HandleCallback env s code state).1.1 tc) link).2
     <> Returned ErrMissingCredentials).
Proof.
  intros Hid Hsecret. unfold OAuth.HandleCallback.
  destruct (String.eqb code ""); [split; [split|]; [by intros []|done..]|].
  destruct (String.eqb state ""); [split; [split|]; [by intros []|done..]|].
  pose proof (ValidateState_server (OAuth.clock_validate env) s state) as Hsrv.
  destruct (OAuth.ValidateState _ s state) as [s1 [|]]; cbn [fst] in Hsrv; subst s1;
    [|split; [split|]; [by intros []|done..]].
  unfold OAuth.ExchangeCodeForToken. cbv zeta.
  cbn [OAuth.clientID OAuth.clientSecret OAuth.redirectURL OAuth.set_authStates].
  destruct (OAuth.token_reply env) as [|status [[[accessToken refreshToken] expiresIn]|]].
  - split; [split|]; [|done..]. cbn. intros [|[]]; done.
  - destruct (status =? 200) eqn:Hst; cbn [negb].
    + apply Z.eqb_eq in Hst. subst status. split; [split; [done|]|].
      * intros _. cbn [fst snd]. apply in_or_app. right. apply in_or_app. right. by left.
      * intros _. cbn [fst snd OAuth.credentials OAuth.set_credentials OAuth.AccessToken
                       OAuth.ClientID OAuth.ClientSecret].
        split; [by eexists _, _, _|]. split; [done|]. split; [done|].
        intros tc link. apply ConnectToWebSocket_credentials; assumption.
    + split; [split|]; [|done..]. cbn. intros [|[]]; done.
  - destruct (status =? 200); cbn [negb]; (split; [split|]; [|done..]);
      cbn; intros [|[]]; done.
Qed.

Lemma base64_URLEncoding_nonempty (b : string) :
  b <> "" -> OAuth.base64_URLEncoding (SHA256.bytes_of b) <> "".
Proof.
  destruct b as [|c b]; [done|]. intros _. cbn [SHA256.bytes_of].
  by destruct (SHA256.bytes_of b) as [|y [|z l]].
Qed.

(** X18. The login flow closes: [HandleLogin] redirects to the authorization
    endpoint with the client id, the redirect URL and a fresh state that is
    not empty, and a callback that brings a code and that state back within
    ten minutes gets past the check of the state and asks the token endpoint,
    with that code and the configuration of the server; when [rand.Read]
    fails, [HandleLogin] answers with status 500 and hands out no state. *)
Theorem HandleLogin_then_HandleCallback (env : OAuth.StateEnv)
    (cenv : OAuth.CallbackEnv) (s : OAuth.Server) (b code : string) :
  OAuth.rand_Read env = Some b -> b <> "" -> code <> "" ->
  OAuth.clock_cleaning env (OAuth.base64_URLEncoding (SHA256.bytes_of b))
    - OAuth.clock_created env <= 10 * Minute ->
  OAuth.clock_validate cenv - OAuth.clock_created env <= 10 * Minute ->
  (OAuth.HandleLogin env s).2 =
    OAuth.Redirect
      ("https://joystick.tv/api/oauth/authorize?client_id=" +:+ OAuth.clientID s
       +:+ "&redirect_uri=" +:+ OAuth.redirectURL s
       +:+ "&state=" +:+ OAuth.base64_URLEncoding (SHA256.bytes_of b)
       +:+ "&response_type=code&scope=bot") /\
  OAuth.base64_URLEncoding (SHA256.bytes_of b) <> "" /\
  (exists rest,
     (OAuth.HandleCallback cenv (OAuth.HandleLogin env s).1 code
        (OAuth.base64_URLEncoding (SHA256.bytes_of b))).1.2
     = OAuth.PostToken code (OAuth.redirectURL s) (OAuth.clientID s)
         (OAuth.clientSecret s) :: rest) /\
  (forall env', OAuth.rand_Read env' = None ->
     OAuth.HandleLogin env' s = (s, OAuth.FailedToGenerateState)).
Proof.
  intros Hrand Hb Hcode Hclean Hvalid.
  set (state := OAuth.base64_URLEncoding (SHA256.bytes_of b)) in *.
  assert (Hgen : OAuth.GenerateState env s = ((OAuth.GenerateState env s).1, Some state)).
  { unfold OAuth.GenerateState. by rewrite Hrand. }
  assert (Hstate : state <> "") by by apply base64_URLEncoding_nonempty.
  pose proof (GenerateState_states env s _ state Hgen) as Hstates.
  assert (Hlogin : OAuth.HandleLogin env s =
            ((OAuth.GenerateState env s).1,
             OAuth.Redirect
               ("https://joystick.tv/api/oauth/authorize?client_id=" +:+ OAuth.clientID s
                +:+ "&redirect_uri=" +:+ OAuth.redirectURL s
                +:+ "&state=" +:+ state +:+ "&response_type=code&scope=bot"))).
  { unfold OAuth.HandleLogin. rewrite Hgen. cbv zeta.
    unfold OAuth.GenerateState. by rewrite Hrand. }
  split; [by rewrite Hlogin|]. split; [exact Hstate|]. split.
  - rewrite Hlogin. cbn [fst]. unfold OAuth.HandleCallback.
    destruct (String.eqb_spec code ""); [done|].
    destruct (String.eqb_spec state ""); [done|].
    assert (Hv : (OAuth.ValidateState (OAuth.clock_validate cenv)
                    (OAuth.GenerateState env s).1 state).2 = true).
    { apply ValidateState_true. eexists. split.
      - rewrite Hstates. apply map_lookup_filter_Some. split.
        + apply lookup_insert_eq.
        + cbn [fst snd]. by apply expired_iff.
      - done. }
    pose proof (ValidateState_server (OAuth.clock_validate cenv)
                  (OAuth.GenerateState env s).1 state) as Hsrv.
    destruct (OAuth.ValidateState _ _ state) as [s1 ok]. cbn [fst snd] in *. subst ok s1.
    assert (Hcfg : forall s0 states,
              OAuth.redirectURL (OAuth.set_authStates s0 states) = OAuth.redirectURL s0 /\
              OAuth.clientID (OAuth.set_authStates s0 states) = OAuth.clientID s0 /\
              OAuth.clientSecret (OAuth.set_authStates s0 states) = OAuth.clientSecret s0)
      by done.
    assert (Hgs : OAuth.redirectURL (OAuth.GenerateState env s).1 = OAuth.redirectURL s /\
                  OAuth.clientID (OAuth.GenerateState env s).1 = OAuth.clientID s /\
                  OAuth.clientSecret (OAuth.GenerateState env s).1 = OAuth.clientSecret s).
    { unfold OAuth.GenerateState. by rewrite Hrand. }
    destruct Hgs as (Hr & Hi & Hsec).
    unfold OAuth.ExchangeCodeForToken. cbv zeta.
    cbn [OAuth.redirectURL OAuth.clientID OAuth.clientSecret OAuth.set_authStates].
    rewrite Hr, Hi, Hsec.
    destruct (OAuth.token_reply cenv) as [|status [[[? ?] ?]|]];
      [|destruct (negb (status =? 200))..]; cbn [fst snd app]; by eexists.
  - intros env' Hnone. unfold OAuth.HandleLogin, OAuth.GenerateState. by rewrite Hnone.
Qed.

Lemma substring_length (n m : nat) (s : string) :
  (n + m <= String.length s)%nat -> String.length (substring n m s) = m.
Proof.
  revert n m. induction s as [|c s IH]; intros n m Hl.
  - cbn in Hl. assert (n = 0%nat /\ m = 0%nat) as [-> ->] by lia. reflexivity.
  - destruct n as [|n]; [destruct m as [|m]; [reflexivity|]|].
    + cbn [substring String.length]. f_equal. apply IH. cbn in Hl. lia.
    + cbn [substring]. apply IH. cbn in Hl. lia.
Qed.

Lemma length_append (a b : string) :
  String.length (a +:+ b) = (String.length a + String.length b)%nat.
Proof.
  induction a as [|c a IH]; [reflexivity|].
  change (String c a +:+ b) with (String c (a +:+ b)). cbn [String.length]. by rewrite IH.
Qed.

Lemma substring_prefix (m : nat) (a b : string) :
  (m <= String.length a)%nat -> substring 0 m (a +:+ b) = substring 0 m a.
Proof.
  revert m. induction a as [|c a IH]; intros m Hm.
  - cbn in Hm. assert (m = 0%nat) as -> by lia. by destruct b.
  - change (String c a +:+ b) with (String c (a +:+ b)).
    destruct m as [|m]; [reflexivity|]. cbn [substring]. f_equal. apply IH.
    cbn in Hm. lia.
Qed.

Lemma substring_suffix (m : nat) (a b : string) :
  substring (String.length a) m (a +:+ b) = substring 0 m b.
Proof.
  induction a as [|c a IH]; [reflexivity|].
  change (String c a +:+ b) with (String c (a +:+ b)). cbn [String.length substring].
  exact IH.
Qed.

(** X19. [maskString] shows nothing of a string of up to eight bytes, and of
    a longer string only its first four and its last four bytes: the result
    has four or twelve bytes, and two strings that differ only between their
    first four and their last four bytes are masked alike. *)
Theorem maskString_hides_middle (first middle middle' last : string) :
  String.length first = 4%nat -> String.length last = 4%nat ->
  middle <> "" -> middle' <> "" ->
  maskString (first +:+ middle +:+ last) = first +:+ "****" +:+ last /\
  maskString (first +:+ middle +:+ last) = maskString (first +:+ middle' +:+ last) /\
  (forall s, (String.length s <= 8)%nat -> maskString s = "****") /\
  forall s, String.length (maskString s) = 4%nat \/
            String.length (maskString s) = 12%nat.
Proof.
  intros Hf Hl Hm Hm'.
  assert (Hmask : forall mid, mid <> "" ->
            maskString (first +:+ mid +:+ last) = first +:+ "****" +:+ last).
  { intros mid Hmid. unfold maskString, len.
    assert (Hlen : String.length (first +:+ mid +:+ last)
                   = (8 + String.length mid)%nat)
      by (rewrite !length_append; lia).
    assert (0 < String.length mid)%nat by (destruct mid; [done|cbn; lia]).
    rewrite (proj2 (Z.leb_gt _ _)) by lia.
    rewrite substring_prefix by lia.
    assert (Hfirst : substring 0 4 first = first).
    { do 5 (destruct first as [|? first]; try discriminate). reflexivity. }
    rewrite Hfirst. f_equal. f_equal.
    rewrite <- append_assoc.
    replace (String.length ((first +:+ mid) +:+ last) - 4)%nat
      with (String.length (first +:+ mid)) by (rewrite !length_append; lia).
    rewrite substring_suffix.
    do 5 (destruct last as [|? last]; try discriminate). reflexivity. }
  split; [by apply Hmask|]. split; [by rewrite !Hmask|]. split.
  - intros s Hs. unfold maskString, len. by rewrite (proj2 (Z.leb_le _ _)) by lia.
  - intros s. unfold maskString, len. destruct (_ <=? 8) eqn:Hs; [by left|].
    right. apply Z.leb_gt in Hs. rewrite !length_append.
    rewrite !substring_length by lia. reflexivity.
Qed.

End OAuthFlow.

Section Receipts.
Context `{GoLib} `{PngLib}.

Ltac case_scrutinee :=
  match goal with
  | |- context [as_string ?v] =>
    lazymatch v with
    | context [match _ with _ => _ end] => fail
    | _ => destruct (as_string v) eqn:?
    end
  | |- context [as_object ?v] => destruct (as_object v) eqn:?
  | |- context [json_Unmarshal ?v] => is_var v; destruct (json_Unmarshal v) eqn:?
  | |- context [String.eqb ?v ""] => is_var v; destruct (String.eqb_spec v ""); try subst v
  end;
  cbn [negb mbind option_bind present default String.eqb Ascii.eqb Bool.eqb andb].

Lemma printed_print_notification (penv : Receipt.PrintEnv) (img : option image_Image)
    (header message username : string) :
  printed (Receipt.print_notification penv img header message username) =
  if Receipt.connect_fails penv then []
  else [ {| Receipt.Header := header;
            Receipt.Message := message;
            Receipt.Image := match img with
                             | Some _ => img
                             | None => png_Decode joysticktv
                             end;
            Receipt.Username := if String.eqb username "" then "Anonymous"
                                else username |} ].
Proof.
  unfold Receipt.print_notification, printed. cbv zeta.
  destruct img as [i|]; [|destruct (png_Decode joysticktv)];
    destruct (Receipt.connect_fails penv); destruct (Receipt.print_fails penv);
    reflexivity.
Qed.

(** The name on a follower notification, as the handler works it out from
    the message. *)
Lemma followed_name (msg message : Msg) :
  as_object (msg !! "message") = Some message ->
  (let username :=
     match as_object (message !! "author") with
     | Some author => Receipt.author_name author
     | None => ""
     end in
   let username :=
     if String.eqb username "" then
       match as_string (message !! "metadata") with
       | Some metadataStr =>
         if nonempty metadataStr then
           match json_Unmarshal metadataStr with
           | Some metadata =>
             match as_string (metadata !! "who") with
             | Some who => if nonempty who then who else username
             | None => username
             end
           | None => username
           end
         else username
       | None => username
       end
     else username in
   if String.eqb username "" then "Anonymous" else username)
  = default "Anonymous" (actor_by_priority msg).
Proof.
  intros Hm. cbv zeta.
  unfold actor_by_priority, author_slug, author_username, metadata_who,
    Receipt.author_name.
  rewrite Hm. cbn [mbind option_bind first_present]. cbv zeta. unfold present, nonempty.
  destruct (as_object (message !! "author")) as [author|];
    cbn [mbind option_bind];
    repeat case_scrutinee; try reflexivity; try congruence;
    simplify_eq; unfold id; congruence.
Qed.

Lemma extractExtension_nonempty (imageURL : string) :
  nonempty (extractExtension imageURL) = true.
Proof.
  rewrite extractExtension_extension_of.
  destruct (extension_of_whitelisted imageURL) as (e & _ & ->). reflexivity.
Qed.

(** X20. The follower notification names the user the classifier gives:
    when the printer is configured and reached, [HandleFollowedEvent] prints
    one notification, and for a message with a type the name on it is the user
    [ExtractEventInfo] extracts from the same message, or [Anonymous] when it
    extracts none; the name is never empty.  When the printer is not
    configured, the message is missing or the printer is not reached, nothing
    is printed. *)
Theorem HandleFollowedEvent_names_classified_user (s : Receipt.Server) (env : Env)
    (penv : Receipt.PrintEnv) (w : World) (msg message : Msg) (t : string) :
  as_object (msg !! "message") = Some message ->
  as_string (message !! "type") = Some t -> t <> "" ->
  (Receipt.printerAddr s <> "" -> Receipt.connect_fails penv = false ->
   exists image,
     printed (Receipt.HandleFollowedEvent s env penv w msg) =
     [ {| Receipt.Header := "New Follower";
          Receipt.Message := "Welcome!";
          Receipt.Image := image;
          Receipt.Username := default "Anonymous" (ExtractEventInfo msg).1.2 |} ]) /\
  default "Anonymous" (ExtractEventInfo msg).1.2 <> "" /\
  (Receipt.printerAddr s = "" \/ Receipt.connect_fails penv = true ->
   printed (Receipt.HandleFollowedEvent s env penv w msg) = []).
Proof.
  intros Hm Ht Hne.
  assert (Hx : (ExtractEventInfo msg).1.2 = actor_by_priority msg).
  { rewrite (ExtractEventInfo_nested_type msg t); [done| |done].
    unfold nested_type. by rewrite Hm. }
  pose proof (followed_name msg message Hm) as Hname. cbv zeta in Hname.
  split; [|split].
  - intros Hp Hc. unfold Receipt.HandleFollowedEvent.
    destruct (String.eqb_spec (Receipt.printerAddr s) ""); [done|].
    rewrite Hm.
    destruct (as_object (message !! "author")) as [author|];
      rewrite printed_print_notification, Hc, Hname, Hx; by eexists.
  - pose proof (ExtractEventInfo_user_nonempty msg) as Hu.
    destruct ((ExtractEventInfo msg).1.2) as [u|]; [|done].
    cbn. congruence.
  - intros Hor. unfold Receipt.HandleFollowedEvent.
    destruct (String.eqb_spec (Receipt.printerAddr s) ""); [done|].
    destruct Hor as [? | Hc]; [done|]. rewrite Hm.
    destruct (as_object (message !! "author")) as [author|];
      by rewrite printed_print_notification, Hc.
Qed.

(** The name on a tip notification, as the handler works it out once the
    metadata is parsed. *)
Lemma tipped_name (msg message metadata : Msg) (metadataStr : string) :
  as_object (msg !! "message") = Some message ->
  as_string (message !! "metadata") = Some metadataStr ->
  metadataStr <> "" ->
  json_Unmarshal metadataStr = Some metadata ->
  (let username :=
     match as_object (message !! "author") with
     | Some author => Receipt.author_name author
     | None => ""
     end in
   let username :=
     if String.eqb username "" then
       match as_string (metadata !! "who") with
       | Some who => who
       | None => ""
       end
     else username in
   if String.eqb username "" then "Anonymous" else username)
  = default "Anonymous" (actor_by_priority msg).
Proof.
  intros Hm Hmeta Hne Hparse. cbv zeta.
  assert (Hwho : metadata_who msg = as_string (metadata !! "who")).
  { unfold metadata_who. rewrite Hm. cbn [mbind option_bind]. rewrite Hmeta.
    unfold present, nonempty. destruct (String.eqb_spec metadataStr ""); [done|].
    cbn [negb mbind option_bind]. by rewrite Hparse. }
  unfold actor_by_priority. rewrite Hwho.
  unfold author_slug, author_username, Receipt.author_name.
  rewrite Hm. cbn [mbind option_bind first_present]. unfold present, nonempty.
  destruct (as_object (message !! "author")) as [author|];
    cbn [mbind option_bind];
    repeat case_scrutinee; try reflexivity; try congruence;
    simplify_eq; unfold id; congruence.
Qed.

(** X21. [HandleTippedEvent] prints a tip only when the metadata of the
    message parses and names a tip menu item; the notification then carries
    the text of the message when the message has a text that is not empty, and
    the tip menu item when the text is missing or empty, so its message is
    never empty; and for a message with a type the name on it is the user
    [ExtractEventInfo] extracts from the same message, or [Anonymous]. *)
Theorem HandleTippedEvent_prints (s : Receipt.Server) (env : Env)
    (penv : Receipt.PrintEnv) (w : World) (msg : Msg)
    (n : Receipt.StreamerNotification) :
  In n (printed (Receipt.HandleTippedEvent s env penv w msg)) ->
  printed (Receipt.HandleTippedEvent s env penv w msg) = [n] /\
  Receipt.Header n = "New Tip" /\
  Receipt.Message n <> "" /\
  Receipt.Username n <> "" /\
  exists message metadataStr metadata tipMenuItem,
    as_object (msg !! "message") = Some message /\
    as_string (message !! "metadata") = Some metadataStr /\
    json_Unmarshal metadataStr = Some metadata /\
    as_string (metadata !! "tip_menu_item") = Some tipMenuItem /\
    tipMenuItem <> "" /\
    (forall messageText,
       as_string (message !! "text") = Some messageText -> messageText <> "" ->
       Receipt.Message n = messageText) /\
    (as_string (message !! "text") = None \/ as_string (message !! "text") = Some "" ->
     Receipt.Message n = tipMenuItem) /\
    (forall t, as_string (message !! "type") = Some t -> t <> "" ->
       Receipt.Username n = default "Anonymous" (ExtractEventInfo msg).1.2).
Proof.
  unfold Receipt.HandleTippedEvent.
  destruct (String.eqb_spec (Receipt.printerAddr s) ""); [by intros []|].
  destruct (as_object (msg !! "message")) as [message|] eqn:Hm; [|by intros []].
  destruct (as_string (message !! "metadata")) as [metadataStr|] eqn:Hmeta;
    [|by intros []].
  destruct (String.eqb_spec metadataStr ""); [by intros []|].
  destruct (json_Unmarshal metadataStr) as [metadata|] eqn:Hparse; [|by intros []].
  destruct (as_string (metadata !! "tip_menu_item")) as [tipMenuItem|] eqn:Htip;
    [|by intros []].
  destruct (String.eqb_spec tipMenuItem ""); [by intros []|].
  pose proof (tipped_name msg message metadata metadataStr Hm Hmeta ltac:(done) Hparse)
    as Hname.
  cbv zeta in Hname. cbv zeta.
  assert (Hanon : default "Anonymous" (actor_by_priority msg) <> "").
  { destruct (actor_by_priority msg) as [u|] eqn:Hu; [|done].
    cbn. intros ->. by apply first_present_nonempty in Hu. }
  assert (Htext : forall text,
            text = match as_string (message !! "text") with
                   | Some messageText =>
                     if String.eqb messageText "" then tipMenuItem else messageText
                   | None => tipMenuItem
                   end ->
            text <> "" /\
            (forall messageText,
               as_string (message !! "text") = Some messageText -> messageText <> "" ->
               text = messageText) /\
            (as_string (message !! "text") = None \/
             as_string (message !! "text") = Some "" -> text = tipMenuItem)).
  { intros text ->. destruct (as_string (message !! "text")) as [messageText|];
      [destruct (String.eqb_spec messageText "")|].
    - subst messageText. split; [done|]. split; [by intros ? [= <-] ?|done].
    - split; [done|]. split; [by intros ? [= <-] _|]. intros [? | [= ?]]; done.
    - split; [done|]. split; [done|done]. }
  destruct (as_object (message !! "author")) as [author|];
    rewrite printed_print_notification, Hname;
    (destruct (Receipt.connect_fails penv); [by intros []|]);
    (intros [<- | []]; cbn [Receipt.Header Receipt.Message Receipt.Username];
     destruct (Htext _ eq_refl) as (Hne & Hpresent & Habsent);
     split; [done|]; split; [done|]; split; [done|]; split; [done|];
     exists message, metadataStr, metadata, tipMenuItem;
     split; [done|]; split; [done|]; split; [done|]; split; [done|]; split; [done|];
     split; [done|]; split; [done|];
     intros t Ht Htne;
     rewrite (ExtractEventInfo_nested_type msg t); [done| |done];
     unfold nested_type; by rewrite Hm).
Qed.

(** X22. From the frame to the receipt: for an author with a slug and a
    thumbnail URL, [outputEvent] starts the download under the slug, and once
    that download is stored [HandleFollowedEvent] finds the row under the same
    name, opens the file the download wrote and prints the picture decoded
    from the bytes of the response, or the embedded picture when those bytes do
    not decode. *)
Theorem HandleFollowedEvent_prints_downloaded_thumbnail (srv : Server)
    (s : Receipt.Server) (tc : ThumbnailCache) (denv env : Env)
    (penv : Receipt.PrintEnv) (w : World) (msg message author : Msg)
    (thumbURL slug : string) :
  thumbCache srv = Some tc -> Receipt.thumbCache s = Some tc ->
  Receipt.printerAddr s <> "" ->
  is_control msg = false ->
  as_object (msg !! "message") = Some message ->
  as_object (message !! "author") = Some author ->
  as_string (author !! "signedPhotoThumbUrl") = Some thumbURL -> thumbURL <> "" ->
  as_string (author !! "slug") = Some slug -> slug <> "" ->
  out_err (DownloadAndStore tc denv w thumbURL slug) = None ->
  out_requests (DownloadAndStore tc denv w thumbURL slug) <> [] ->
  info_query_fails env = false ->
  Receipt.open_fails penv = false -> Receipt.connect_fails penv = false ->
  In (GoDownloadAndStore thumbURL slug) (outputEvent srv msg) /\
  exists body,
    http_Get denv thumbURL = HttpResponse 200 body /\
    printed (Receipt.HandleFollowedEvent s env penv
               (out_world (DownloadAndStore tc denv w thumbURL slug)) msg) =
    [ {| Receipt.Header := "New Follower";
         Receipt.Message := "Welcome!";
         Receipt.Image := match png_Decode body with
                          | Some decodedImg => Some decodedImg
                          | None => png_Decode joysticktv
                          end;
         Receipt.Username := slug |} ].
Proof.
  intros Hsrv Htc Hp Hctl Hm Ha Hurl Hune Hslug Hsne Hok Hreq Hinfo Hopen Hconn.
  split.
  { rewrite (outputEvent_routes srv msg Hctl message author thumbURL Hm Ha Hurl Hune
               tc Hsrv), Hslug. by left. }
  destruct (DownloadAndStore_success tc denv w thumbURL slug Hok Hreq)
    as (body & Hget & Ht & Hf).
  assert (Hactor : actor_of slug = slug).
  { unfold actor_of. by destruct (String.eqb_spec slug ""). }
  rewrite Hactor in Ht, Hf.
  exists body. split; [exact Hget|].
  unfold Receipt.HandleFollowedEvent.
  destruct (String.eqb_spec (Receipt.printerAddr s) ""); [done|].
  rewrite Hm, Ha.
  assert (Hname : Receipt.author_name author = slug).
  { unfold Receipt.author_name. rewrite Hslug. unfold nonempty.
    by destruct (String.eqb_spec slug ""). }
  rewrite Hname.
  assert (Himg : Receipt.cached_thumbnail s env penv
                   (out_world (DownloadAndStore tc denv w thumbURL slug)) slug
                 = png_Decode body).
  { unfold Receipt.cached_thumbnail, GetThumbnailInfo. rewrite Htc, Hinfo, Ht.
    rewrite lookup_insert_eq. cbn [FileExtension file_extension].
    rewrite extractExtension_nonempty, Hopen, Hf, lookup_insert_eq.
    unfold nonempty. by destruct (String.eqb_spec slug ""). }
  rewrite Himg.
  destruct (String.eqb_spec slug ""); [done|].
  rewrite printed_print_notification, Hconn.
  destruct (String.eqb_spec slug ""); [done|].
  by destruct (png_Decode body).
Qed.

(** X23. The thumbnail of an author with an empty slug is not found again:
    [outputEvent] starts its download under the empty name, which the cache
    files under [unknown], while [HandleFollowedEvent] looks the author up
    under the user name; so for a user without a row of that name the
    follower notification carries the embedded picture, whatever the download
    did. *)
Theorem HandleFollowedEvent_misses_empty_slug (srv : Server) (s : Receipt.Server)
    (tc : ThumbnailCache) (denv env : Env) (penv : Receipt.PrintEnv) (w : World)
    (msg message author : Msg) (thumbURL usr : string) :
  thumbCache srv = Some tc -> Receipt.thumbCache s = Some tc ->
  Receipt.printerAddr s <> "" ->
  is_control msg = false ->
  as_object (msg !! "message") = Some message ->
  as_object (message !! "author") = Some author ->
  as_string (author !! "signedPhotoThumbUrl") = Some thumbURL -> thumbURL <> "" ->
  as_string (author !! "slug") = Some "" ->
  as_string (author !! "username") = Some usr -> usr <> "" -> usr <> "unknown" ->
  thumbnails w !! usr = None ->
  Receipt.connect_fails penv = false ->
  In (GoDownloadAndStore thumbURL "") (outputEvent srv msg) /\
  printed (Receipt.HandleFollowedEvent s env penv
             (out_world (DownloadAndStore tc denv w thumbURL "")) msg) =
  [ {| Receipt.Header := "New Follower";
       Receipt.Message := "Welcome!";
       Receipt.Image := png_Decode joysticktv;
       Receipt.Username := usr |} ].
Proof.
  intros Hsrv Htc Hp Hctl Hm Ha Hurl Hune Hslug Husr Hne Hunk Hrow Hconn.
  split.
  { rewrite (outputEvent_routes srv msg Hctl message author thumbURL Hm Ha Hurl Hune
               tc Hsrv), Hslug. by left. }
  unfold Receipt.HandleFollowedEvent.
  destruct (String.eqb_spec (Receipt.printerAddr s) ""); [done|].
  rewrite Hm, Ha.
  assert (Hname : Receipt.author_name author = usr).
  { unfold Receipt.author_name. rewrite Hslug, Husr. unfold nonempty. cbn.
    by destruct (String.eqb_spec usr ""). }
  rewrite Hname.
  assert (Himg : Receipt.cached_thumbnail s env penv
                   (out_world (DownloadAndStore tc denv w thumbURL "")) usr = None).
  { unfold Receipt.cached_thumbnail, GetThumbnailInfo. rewrite Htc.
    rewrite DownloadAndStore_other_rows by (cbn; congruence). rewrite Hrow.
    destruct (nonempty usr); [|done]. by destruct (info_query_fails env). }
  rewrite Himg.
  destruct (String.eqb_spec usr ""); [done|].
  rewrite printed_print_notification, Hconn.
  by destruct (String.eqb_spec usr "").
Qed.

End Receipts.

Section ListenerMore.
Context `{GoLib}.

Lemma listen_Received (s : Server) (msgs : list Msg) (rest : list Frame) :
  listen s (map Received msgs ++ rest)%list =
  ((concat (map (outputEvent s) msgs) ++ (listen s rest).1)%list, (listen s rest).2).
Proof.
  induction msgs as [|msg msgs IH]; [cbn; by destruct (listen s rest)|].
  cbn [map app listen concat]. rewrite IH. by rewrite <- app_assoc.
Qed.

(** X24. The listener routes every frame it reads, in the order read, up to
    the first failed read, and nothing after it: with credentials, a dial and a
    subscription that succeed, the effects of [ConnectToWebSocket] are the two
    log lines of the connection, the effects of [outputEvent] on each frame
    before the failure, and the log line of the closed connection, and the
    error returned is the one of the read. *)
Theorem ConnectToWebSocket_routes_until_failure (s : Server) (link : Link)
    (msgs : list Msg) (rest : list Frame) :
  clientID s <> "" -> clientSecret s <> "" ->
  dial_fails link = false -> write_fails link = false ->
  frames link = (map Received msgs ++ ReadFailed :: rest)%list ->
  ConnectToWebSocket s link =
  ((LogConnected :: LogSentSubscribe :: concat (map (outputEvent s) msgs)
    ++ [LogClosed])%list,
   Returned ErrRead).
Proof.
  intros Hid Hsecret Hdial Hwrite Hframes.
  rewrite (ConnectToWebSocket_listen s link Hid Hsecret Hdial Hwrite), Hframes.
  by rewrite listen_Received.
Qed.

End ListenerMore.

(** ** The further properties on the example inputs *)

(** The refresh of Bob's thumbnail that breaks off leaves Bob's row. *)
Lemma broken_refresh_keeps_row :
  thumbnails (out_world broken_refresh) = thumbnails bob_world.
Proof.
  unfold broken_refresh.
  apply (@DownloadAndStore_error_keeps_table sampleLib sample_cache
           (broken_copy_env 1700000600 (HttpResponse 200 "abc") 1)
           bob_world "https://cdn/x/bob.png" "Bob" ErrCopy);
    vm_compute; reflexivity.
Defined.

(** Four minutes and 59 seconds after the first download a call for Bob
    does nothing, though the network is down. *)
Lemma first_download_again :
  @DownloadAndStore sampleLib sample_cache (healthy_env 1700000299 HttpError)
    (out_world first_download) "https://cdn/x/avatar.jpeg?sig=1" "Bob"
  = untouched (out_world first_download).
Proof.
  unfold first_download.
  refine (proj2 (@DownloadAndStore_again sampleLib sample_cache
                   (healthy_env 1700000000 (HttpResponse 200 "abc"))
                   (healthy_env 1700000299 HttpError) empty_world
                   "https://cdn/x/avatar.jpeg?sig=1" "https://cdn/x/avatar.jpeg?sig=1"
                   "Bob" _ _ _ _) _);
    vm_compute; try reflexivity; discriminate.
Defined.

(** A record written half a second after second 1700000000 is read back
    with the whole second. *)
Lemma carol_record_read_back :
  GetThumbnailInfo (healthy_env 0 HttpError)
    {| thumbnails :=
         {[ "carol" := {| sha256 := "00ff";
                          file_size := 2;
                          download_timestamp := 1700000000;
                          image_url := "https://cdn/x/carol.png";
                          file_extension := ".png" |} ]};
       files := ∅ |} "carol"
  = Ok (Some {| Username := "carol";
                SHA256 := "00ff";
                FileSize := 2;
                DownloadTimestamp := 1700000000000000000;
                ImageURL := "https://cdn/x/carol.png";
                FileExtension := ".png" |}).
Proof.
  refine (proj1 (GetThumbnailInfo_after_write (healthy_env 0 HttpError)
                   (healthy_env 0 HttpError) empty_world _
                   {| Username := "carol";
                      SHA256 := "00ff";
                      FileSize := 2;
                      DownloadTimestamp := 1700000000500000000;
                      ImageURL := "https://cdn/x/carol.png";
                      FileExtension := ".png" |} _ _));
    [left; vm_compute; reflexivity | reflexivity].
Defined.

(** The digest of Bob's file. *)
Lemma bob_digest_hex64 :
  String.length (hex_EncodeToString (SHA256.Sum256 "old")) = 64%nat.
Proof.
  refine (proj1 (calculateSHA256_hex64 (healthy_env 0 HttpError) bob_world
                   "thumbcache/b/Bob.png" _ _)).
  vm_compute. reflexivity.
Defined.

(** The newest follow among the stored events is the one of bob. *)
Lemma sample_rows_newest_follow :
  Forall (fun e => EventType e = "Followed")
    [ {| ID := 3; ReceivedTimestamp := time_Unix 1700000010; EventType := "Followed";
         UserWhoPerformedAction := Some "bob"; RawJSON := "{}" |} ].
Proof.
  refine (proj1 (@GetEventsByType_newest sampleSql healthy_query sample_rows "Followed" 1 _ _)).
  vm_compute. reflexivity.
Defined.

(** The events of alice. *)
Lemma sample_rows_of_alice :
  Forall (fun e => UserWhoPerformedAction e = Some "alice")
    [ {| ID := 1; ReceivedTimestamp := time_Unix 1700000000; EventType := "Followed";
         UserWhoPerformedAction := Some "alice"; RawJSON := "{}" |} ].
Proof.
  refine (proj1 (@GetEventsByUser_named_only sampleLib sampleSql healthy_query sample_rows "alice" 10 _ _)).
  vm_compute. reflexivity.
Defined.


(** The answer itself: the new follow, then the tip. *)
Example followed_frame_recent_answer :
  @GetRecentEvents sampleSql healthy_query
    (@StoreEvent sampleLib later_store sample_rows followed_frame).1 2
  = inl [ scan_event followed_row;
          {| ID := 2; ReceivedTimestamp := time_Unix 1700000020; EventType := "Tipped";
             UserWhoPerformedAction := None; RawJSON := "{}" |} ].
Proof. vm_compute. reflexivity. Qed.

(** The state handed out at second 200 is good at second 500. *)
Lemma state_env_validates :
  (OAuth.ValidateState (500 * Second)%Z (OAuth.GenerateState state_env oauth_server).1
     "MDEyMzQ1Njc4OWFiY2RlZjAxMjM0NTY3ODlhYmNkZWY=").2 = true.
Proof.
  refine (proj1 (GenerateState_then_ValidateState state_env oauth_server _ _
                   (500 * Second)%Z _ _ _));
    [vm_compute; reflexivity | vm_compute; discriminate..].
Defined.

(** The login at second 200 redirects with the state that the callback at
    second 260 brings back. *)
Lemma state_env_login :
  (OAuth.HandleLogin state_env oauth_server).2 =
  OAuth.Redirect
    ("https://joystick.tv/api/oauth/authorize?client_id=" +:+ OAuth.clientID oauth_server
     +:+ "&redirect_uri=" +:+ OAuth.redirectURL oauth_server
     +:+ "&state="
     +:+ OAuth.base64_URLEncoding (SHA256.bytes_of "0123456789abcdef0123456789abcdef")
     +:+ "&response_type=code&scope=bot").
Proof.
  refine (proj1 (HandleLogin_then_HandleCallback state_env granting_later oauth_server
                   "0123456789abcdef0123456789abcdef" "code" _ _ _ _ _));
    [reflexivity | discriminate | discriminate | vm_compute; discriminate..].
Defined.

(** The callback with the state [s1] is answered by the success page, and
    the listener it starts has its credentials. *)
Lemma granting_connects :
  (OAuth.HandleCallback granting oauth_server "code" "s1").2
  = OAuth.AuthenticationSuccessful /\
  In OAuth.GoConnectToWebSocket (OAuth.HandleCallback granting oauth_server "code" "s1").1.2.
Proof.
  split; [vm_compute; reflexivity|].
  refine (proj2 (proj1 (@HandleCallback_success_connects sampleLib granting oauth_server
                          "code" "s1" _ _)) _);
    [discriminate | discriminate | vm_compute; reflexivity].
Defined.

(** A client id of twelve bytes shows eight of them. *)
Lemma maskString_client_id :
  maskString "abcd1234wxyz" = "abcd****wxyz".
Proof.
  refine (proj1 (maskString_hides_middle "abcd" "1234" "5" "wxyz" _ _ _ _));
    [reflexivity | reflexivity | discriminate | discriminate].
Defined.

(** The follow of tyrm is printed under the name the store records. *)
Lemma followed_frame_printed :
  exists image,
    printed (@Receipt.HandleFollowedEvent sampleLib samplePng receipt_server
               (healthy_env 0 HttpError) ready_printer empty_world followed_frame) =
    [ {| Receipt.Header := "New Follower";
         Receipt.Message := "Welcome!";
         Receipt.Image := image;
         Receipt.Username :=
           default "Anonymous" (@ExtractEventInfo sampleLib followed_frame).1.2 |} ].
Proof.
  refine (proj1 (@HandleFollowedEvent_names_classified_user sampleLib samplePng
                   receipt_server (healthy_env 0 HttpError) ready_printer empty_world
                   followed_frame _ "Followed" _ _ _) _ _);
    [vm_compute; reflexivity | vm_compute; reflexivity | discriminate
    | discriminate | reflexivity].
Defined.

(** The tip of carol that carries a text is printed with that text. *)
Lemma tipped_text_frame_printed :
  printed (@Receipt.HandleTippedEvent tipLib samplePng receipt_server
             (healthy_env 0 HttpError) ready_printer empty_world tipped_text_frame) =
  [ {| Receipt.Header := "New Tip";
       Receipt.Message := "Great stream";
       Receipt.Image := @png_Decode samplePng (@joysticktv samplePng);
       Receipt.Username := "carol" |} ].
Proof.
  refine (proj1 (@HandleTippedEvent_prints tipLib samplePng receipt_server
                   (healthy_env 0 HttpError) ready_printer empty_world tipped_text_frame
                   _ _)).
  vm_compute. left. reflexivity.
Defined.

(** Without a text the tip menu item is printed. *)
Example tipped_frame_printed :
  printed (@Receipt.HandleTippedEvent tipLib samplePng receipt_server
             (healthy_env 0 HttpError) ready_printer empty_world tipped_frame) =
  [ {| Receipt.Header := "New Tip";
       Receipt.Message := "Spin";
       Receipt.Image := @png_Decode samplePng (@joysticktv samplePng);
       Receipt.Username := "carol" |} ].
Proof. vm_compute. reflexivity. Qed.

(** Bob's chat message starts the download of his picture, and his follow
    is printed with it. *)
Lemma bob_download_printed :
  In (GoDownloadAndStore "https://cdn/x/bob.png" "bob")
    (@outputEvent sampleLib sample_server chat_frame) /\
  exists body,
    http_Get (healthy_env 1700000000 (HttpResponse 200 "PNG bob")) "https://cdn/x/bob.png"
    = HttpResponse 200 body /\
    printed (@Receipt.HandleFollowedEvent sampleLib samplePng receipt_server
               (healthy_env 1700000060 HttpError) ready_printer
               (out_world
                  (@DownloadAndStore sampleLib sample_cache
                     (healthy_env 1700000000 (HttpResponse 200 "PNG bob"))
                     empty_world "https://cdn/x/bob.png" "bob")) chat_frame) =
    [ {| Receipt.Header := "New Follower";
         Receipt.Message := "Welcome!";
         Receipt.Image := match @png_Decode samplePng body with
                          | Some decodedImg => Some decodedImg
                          | None => @png_Decode samplePng (@joysticktv samplePng)
                          end;
         Receipt.Username := "bob" |} ].
Proof.
  refine (@HandleFollowedEvent_prints_downloaded_thumbnail sampleLib samplePng
            sample_server receipt_server sample_cache
            (healthy_env 1700000000 (HttpResponse 200 "PNG bob"))
            (healthy_env 1700000060 HttpError) ready_printer empty_world chat_frame
            _ _ "https://cdn/x/bob.png" "bob" _ _ _ _ _ _ _ _ _ _ _ _ _ _ _);
    try (vm_compute; reflexivity); try discriminate.
Defined.

(** The picture of the author with the empty slug is downloaded, and the
    follow of that author is printed with the embedded picture. *)
Lemma empty_slug_frame_printed :
  In (GoDownloadAndStore "https://cdn/x/bob.png" "")
    (@outputEvent sampleLib sample_server empty_slug_frame) /\
  printed (@Receipt.HandleFollowedEvent sampleLib samplePng receipt_server
             (healthy_env 1700000060 HttpError) ready_printer
             (out_world
                (@DownloadAndStore sampleLib sample_cache
                   (healthy_env 1700000000 (HttpResponse 200 "PNG bob"))
                   empty_world "https://cdn/x/bob.png" "")) empty_slug_frame) =
  [ {| Receipt.Header := "New Follower";
       Receipt.Message := "Welcome!";
       Receipt.Image := @png_Decode samplePng (@joysticktv samplePng);
       Receipt.Username := "bob" |} ].
Proof.
  refine (@HandleFollowedEvent_misses_empty_slug sampleLib samplePng
            sample_server receipt_server sample_cache
            (healthy_env 1700000000 (HttpResponse 200 "PNG bob"))
            (healthy_env 1700000060 HttpError) ready_printer empty_world
            empty_slug_frame _ _ "https://cdn/x/bob.png" "bob"
            _ _ _ _ _ _ _ _ _ _ _ _ _ _);
    try (vm_compute; reflexivity); try discriminate.
Defined.

(** On the connection that fails after one chat message, that message is
    routed and the one after the failure is not. *)
Lemma failing_link_routes_one :
  @ConnectToWebSocket sampleLib sample_server failing_link =
  ((LogConnected :: LogSentSubscribe
    :: concat (map (@outputEvent sampleLib sample_server) [chat_frame])
    ++ [LogClosed])%list,
   Returned ErrRead).
Proof.
  refine (@ConnectToWebSocket_routes_until_failure sampleLib sample_server failing_link
            [chat_frame] [Received chat_frame] _ _ _ _ _);
    [discriminate | discriminate | reflexivity..].
Defined.
